(** * Dark Family war report: the benchmark estimator and the roster aggregator

    A shallow embedding of [calculate_fair_benchmark] and of the aggregation
    part of [generate_html_for_clan] (src/HTMLTest_v8.py), with the
    properties the specification states about them, followed by the URL
    building of [get_api_data] and the computations the HTML builders make
    on the aggregated data (battle totals, war dates, day indicators, the
    history filter), with properties read off the code.

    The payloads are what [response.json()] returns: dynamically typed JSON
    values.  Every Python operation that can raise on such a value
    ([.get] on something that is no dict, subscripting with a missing key,
    hashing a list, comparing [None] with a number, ...) raises in the
    model too, so the functions below return in an error monad.  JSON
    numbers are integers here (the API only sends integers); floats are
    outside the model. *)

From Stdlib Require Import Ascii.
From stdpp Require Import base gmap sets list strings pretty.

Set Warnings "-register-all".
Open Scope Z_scope.

(** ** Python values and exceptions *)

Inductive pyval :=
  | PNone
  | PBool (b : bool)
  | PInt (z : Z)
  | PStr (s : string)
  | PList (l : list pyval)
  | PDict (kvs : list (string * pyval)).

Inductive pyexn :=
  | AttributeError
  | KeyError
  | TypeError
  | IndexError
  | ValueError.

Inductive res (A : Type) :=
  | Ok (a : A)
  | Raise (e : pyexn).
Arguments Ok {A} a.
Arguments Raise {A} e.

Definition bind {A B} (m : res A) (k : A → res B) : res B :=
  match m with
  | Ok a => k a
  | Raise e => Raise e
  end.

Notation "'let!' x ':=' m 'in' k" := (bind m (λ x, k))
  (at level 10, x name, m at level 100, k at level 200).

(** A [for] loop whose body may raise, threading the loop's state. *)
Fixpoint foldM {A S} (body : S → A → res S) (s : S) (l : list A) : res S :=
  match l with
  | [] => Ok s
  | x :: l' => let! s' := body s x in foldM body s' l'
  end.

(** A list comprehension over [enumerate]. *)
Fixpoint imapM {A B} (f : nat → A → res B) (i : nat) (l : list A) : res (list B) :=
  match l with
  | [] => Ok []
  | x :: l' => let! y := f i x in let! ys := imapM f (S i) l' in Ok (y :: ys)
  end.

(** Truthiness, as tested by [not x] and [all]. *)
Definition truthy (v : pyval) : bool :=
  match v with
  | PNone => false
  | PBool b => b
  | PInt z => negb (z =? 0)
  | PStr s => negb (String.eqb s EmptyString)
  | PList l => match l with [] => false | _ => true end
  | PDict kvs => match kvs with [] => false | _ => true end
  end.

(** A dict is an association list; the first binding of a key is its value. *)
Fixpoint assoc (k : string) (kvs : list (string * pyval)) : option pyval :=
  match kvs with
  | [] => None
  | (k', v) :: kvs' => if String.eqb k k' then Some v else assoc k kvs'
  end.

(** [v.get(k, d)] *)
Definition get (v : pyval) (k : string) (d : pyval) : res pyval :=
  match v with
  | PDict kvs => Ok (default d (assoc k kvs))
  | _ => Raise AttributeError
  end.

(** [v[k]] for a string [k] *)
Definition item (v : pyval) (k : string) : res pyval :=
  match v with
  | PDict kvs => match assoc k kvs with Some x => Ok x | None => Raise KeyError end
  | _ => Raise TypeError
  end.

(** [for x in v]: the elements of a list, the keys of a dict, the characters
    of a string; anything else is not iterable. *)
Definition py_iter (v : pyval) : res (list pyval) :=
  match v with
  | PList l => Ok l
  | PDict kvs => Ok ((λ kv, PStr (fst kv)) <$> kvs)
  | PStr s => Ok ((λ c, PStr (String c EmptyString)) <$> String.list_ascii_of_string s)
  | _ => Raise TypeError
  end.

(** [v == s] for a string literal [s]; never raises. *)
Definition py_eq_str (v : pyval) (s : string) : bool :=
  match v with
  | PStr t => String.eqb t s
  | _ => false
  end.

(** [v > 0]: defined on numbers ([bool] is a subclass of [int]). *)
Definition py_gt0 (v : pyval) : res bool :=
  match v with
  | PInt z => Ok (0 <? z)
  | PBool b => Ok b
  | _ => Raise TypeError
  end.

(** The integer a number stands for in arithmetic ([True == 1]). *)
Definition py_int (v : pyval) : res Z :=
  match v with
  | PInt z => Ok z
  | PBool b => Ok (if b then 1 else 0)
  | _ => Raise TypeError
  end.

(** ** Benchmark estimator *)

(** [collections.Counter]: a dict from value to count, in insertion order. *)
Fixpoint counter_incr (x : Z) (c : list (Z * nat)) : list (Z * nat) :=
  match c with
  | [] => [(x, 1%nat)]
  | (y, n) :: c' =>
      if decide (x = y) then (y, S n) :: c' else (y, n) :: counter_incr x c'
  end.

Definition Counter (l : list Z) : list (Z * nat) :=
  foldl (λ c x, counter_incr x c) [] l.

(** [most_common(1)] is [heapq.nlargest(1, items, key=count)], that is
    [max(items, key=count)]: the first item among those of largest count. *)
Fixpoint max_by_count (best : Z * nat) (c : list (Z * nat)) : Z * nat :=
  match c with
  | [] => best
  | p :: c' =>
      if (p.2 <=? best.2)%nat then max_by_count best c' else max_by_count p c'
  end.

Definition most_common_1 (c : list (Z * nat)) : list (Z * nat) :=
  match c with
  | [] => []
  | p :: c' => [max_by_count p c']
  end.

(** [max(l)] *)
Definition py_max (l : list Z) : res Z :=
  match l with
  | [] => Raise ValueError
  | x :: l' => Ok (foldl Z.max x l')
  end.

(** [[p.get('decksUsed', 0) for p in participants if p.get('decksUsed', 0) > 0]] *)
Fixpoint decks_used_list (participants : list pyval) : res (list Z) :=
  match participants with
  | [] => Ok []
  | p :: ps =>
      let! d := get p "decksUsed" (PInt 0) in
      let! keep := py_gt0 d in
      if keep then
        let! d' := get p "decksUsed" (PInt 0) in
        let! z := py_int d' in
        let! zs := decks_used_list ps in
        Ok (z :: zs)
      else decks_used_list ps
  end.

Definition calculate_fair_benchmark (participants : pyval) : res Z :=
  if negb (truthy participants) then Ok 16 else
  let! ps := py_iter participants in
  let! decks := decks_used_list ps in
  match decks with
  | [] => Ok 16
  | _ =>
      let! max_attacks := py_max decks in
      match most_common_1 (Counter decks) with
      | [] => Raise IndexError
      | (most_common_attacks, _) :: _ =>
          if bool_decide (most_common_attacks ∈ [4; 8; 12])
             && (most_common_attacks <? max_attacks)
          then Ok most_common_attacks
          else Ok max_attacks
      end
  end.

(** ** Roster aggregator *)

(** What a value is as a dict key or set element: lists and dicts are
    unhashable, and [True] and [1] (also [False] and [0]) are the same key. *)
Inductive key :=
  | KNone
  | KInt (z : Z)
  | KStr (s : string).

Global Instance key_eq_dec : EqDecision key.
Proof. solve_decision. Defined.

Global Instance key_countable : Countable key.
Proof.
  refine (inj_countable'
    (λ k, match k with
          | KNone => inl ()
          | KInt z => inr (inl z)
          | KStr s => inr (inr s)
          end)
    (λ x, match x with
          | inl _ => KNone
          | inr (inl z) => KInt z
          | inr (inr s) => KStr s
          end) _).
  by intros [].
Defined.

Definition hash_key (v : pyval) : res key :=
  match v with
  | PNone => Ok KNone
  | PBool b => Ok (KInt (if b then 1 else 0))
  | PInt z => Ok (KInt z)
  | PStr s => Ok (KStr s)
  | PList _ | PDict _ => Raise TypeError
  end.

(** The dict [{'fame': fame, 'decksUsed': decks_used}] of one war. *)
Record history_entry := HistoryEntry {
  fame : pyval;
  decksUsed : pyval;
}.

(** One value of [player_stats].  The two current-war fields and the name
    hold whatever the payload held; the totals start at [0] and only grow
    by [+=], so they are integers. *)
Record player := Player {
  name : pyval;
  current_war_decks_used : pyval;
  current_war_fame : pyval;
  total_war_fame : Z;
  total_decks_used : Z;
  war_history : gmap string history_entry;
}.

Definition set_name (v : pyval) (r : player) : player :=
  Player v (current_war_decks_used r) (current_war_fame r)
         (total_war_fame r) (total_decks_used r) (war_history r).

Definition set_current_war_decks_used (v : pyval) (r : player) : player :=
  Player (name r) v (current_war_fame r)
         (total_war_fame r) (total_decks_used r) (war_history r).

Definition set_current_war_fame (v : pyval) (r : player) : player :=
  Player (name r) (current_war_decks_used r) v
         (total_war_fame r) (total_decks_used r) (war_history r).

Definition set_war_history (w : string) (e : history_entry) (r : player) : player :=
  Player (name r) (current_war_decks_used r) (current_war_fame r)
         (total_war_fame r) (total_decks_used r) (<[w := e]> (war_history r)).

Definition add_totals (f d : Z) (r : player) : player :=
  Player (name r) (current_war_decks_used r) (current_war_fame r)
         (total_war_fame r + f) (total_decks_used r + d) (war_history r).

Definition placeholder_name : string := "Former Member (*)".

Definition new_player (n : pyval) : player :=
  Player n (PInt 0) (PInt 0) 0 0 ∅.

Definition former_member : player := new_player (PStr placeholder_name).

Definition TOP_CLANS_FOR_BENCHMARK : list string :=
  ["#2V2VRRLJ"; "#8UCRLJ0J"; "#8Y8UG0JJ"; "#YUYP9229"].

(** [s.split('T')[0]] *)
Fixpoint before_T (s : string) : string :=
  match s with
  | EmptyString => EmptyString
  | String c s' => if Ascii.eqb c "T"%char then EmptyString else String c (before_T s')
  end.

Definition split_T_0 (v : pyval) : res string :=
  match v with
  | PStr s => Ok (before_T s)
  | _ => Raise AttributeError
  end.

(** [player_stats[k]] *)
Definition lookup_player (player_stats : gmap key player) (k : key) : res player :=
  match player_stats !! k with
  | Some r => Ok r
  | None => Raise KeyError
  end.

Definition zero_entry : history_entry := HistoryEntry (PInt 0) (PInt 0).

(** What [generate_html_for_clan] hands to the HTML builders: the error
    fragment, or the aggregated [player_stats], [current_member_tags],
    [war_ids] and [war_benchmarks].  The builders themselves are templating
    and are not modelled. *)
Inductive report :=
  | ApiErrorFragment
  | ClanReport (player_stats : gmap key player) (current_member_tags : gset key)
               (war_ids : list string) (war_benchmarks : gmap string Z).

Section aggregator.

(** [str] of a list or a dict prints the [repr] of its elements, whose
    quoting rules belong to the interpreter, not to this program: a
    parameter.  Nothing is assumed about it. *)
Context (container_repr : pyval → string).

(** [f"{v}"] *)
Definition py_str (v : pyval) : string :=
  match v with
  | PNone => "None"
  | PBool true => "True"
  | PBool false => "False"
  | PInt z => pretty z
  | PStr s => s
  | PList _ | PDict _ => container_repr v
  end.

(** line 88: [{member['tag'] for member in ...}] *)
Definition current_member_tags_of (members : list pyval) : res (gset key) :=
  foldM (λ tags member,
           let! t := item member "tag" in
           let! k := hash_key t in
           Ok (tags ∪ {[k]})) ∅ members.

(** lines 89-94: the dict comprehension seeding [player_stats] *)
Definition seed_member (player_stats : gmap key player) (member : pyval)
  : res (gmap key player) :=
  let! t := item member "tag" in
  let! n := item member "name" in
  let! k := hash_key t in
  Ok (<[k := new_player n]> player_stats).

Definition seed_player_stats (members : list pyval) : res (gmap key player) :=
  foldM seed_member ∅ members.

(** lines 97-99: one participant of the current war *)
Definition overlay_participant (player_stats : gmap key player) (p : pyval)
  : res (gmap key player) :=
  let! t := get p "tag" PNone in
  let! k := hash_key t in
  match player_stats !! k with
  | None => Ok player_stats
  | Some _ =>
      let! d := get p "decksUsed" (PInt 0) in
      let! t1 := item p "tag" in
      let! k1 := hash_key t1 in
      let! r1 := lookup_player player_stats k1 in
      let player_stats1 := <[k1 := set_current_war_decks_used d r1]> player_stats in
      let! f := get p "fame" (PInt 0) in
      let! t2 := item p "tag" in
      let! k2 := hash_key t2 in
      let! r2 := lookup_player player_stats1 k2 in
      Ok (<[k2 := set_current_war_fame f r2]> player_stats1)
  end.

(** lines 96-99 *)
Definition overlay_current_war (current_war_data : pyval)
    (player_stats : gmap key player) : res (gmap key player) :=
  let! clan := get current_war_data "clan" (PDict []) in
  let! participants := get clan "participants" (PList []) in
  let! ps := py_iter participants in
  foldM overlay_participant player_stats ps.

(** line 102: one element of [war_ids] *)
Definition war_id_of (i : nat) (war : pyval) : res string :=
  let! created := get war "createdDate" (PStr "N/A") in
  let! day := split_T_0 created in
  Ok ("War " +:+ pretty (i + 1)%nat +:+ " (" +:+ day +:+ ")").

Definition war_ids_of (war_log_items : list pyval) : res (list string) :=
  imapM war_id_of 0 war_log_items.

(** lines 108-109 *)
Definition add_participant_tag (all_participants : gset key) (p : pyval)
  : res (gset key) :=
  let! t := get p "tag" PNone in
  let! k := hash_key t in
  Ok (all_participants ∪ {[k]}).

(** lines 107-109 *)
Definition add_standing_tags (clan_tag : string) (all_participants : gset key)
    (standing : pyval) : res (gset key) :=
  let! c := get standing "clan" (PDict []) in
  let! t := get c "tag" PNone in
  if py_eq_str t clan_tag then
    let! c' := get standing "clan" (PDict []) in
    let! participants := get c' "participants" (PList []) in
    let! ps := py_iter participants in
    foldM add_participant_tag all_participants ps
  else Ok all_participants.

(** lines 106-109 *)
Definition add_war_tags (clan_tag : string) (all_participants : gset key)
    (war : pyval) : res (gset key) :=
  let! standings := get war "standings" (PList []) in
  let! ss := py_iter standings in
  foldM (add_standing_tags clan_tag) all_participants ss.

(** lines 104-109 *)
Definition collect_all_participants (clan_tag : string)
    (player_stats : gmap key player) (war_log_items : list pyval)
  : res (gset key) :=
  foldM (add_war_tags clan_tag) (dom player_stats) war_log_items.

(** lines 112-114 *)
Definition add_former_member (tag : key) (player_stats : gmap key player)
  : gmap key player :=
  match player_stats !! tag with
  | Some _ => player_stats
  | None => <[tag := former_member]> player_stats
  end.

(** lines 111-114; the order in which a set is walked does not matter here *)
Definition add_former_members (all_participants : gset key)
    (player_stats : gmap key player) : gmap key player :=
  set_fold add_former_member player_stats all_participants.

(** lines 120-124: the participants of the first standing of this clan *)
Fixpoint find_war_participants (clan_tag : string) (standings : list pyval)
  : res pyval :=
  match standings with
  | [] => Ok (PList [])
  | standing :: rest =>
      let! c := get standing "clan" (PDict []) in
      let! t := get c "tag" PNone in
      if py_eq_str t clan_tag then
        let! c' := get standing "clan" (PDict []) in
        get c' "participants" (PList [])
      else find_war_participants clan_tag rest
  end.

(** lines 136-142: one participant of a logged war *)
Definition record_participant (war_id : string)
    (player_stats : gmap key player) (p : pyval) : res (gmap key player) :=
  let! tag := get p "tag" PNone in
  let! fame := get p "fame" (PInt 0) in
  let! decks_used := get p "decksUsed" (PInt 0) in
  let! k := hash_key tag in
  match player_stats !! k with
  | None => Ok player_stats
  | Some r =>
      let! r1 :=
        if py_eq_str (name r) placeholder_name then
          let! n := get p "name" PNone in
          Ok (set_name (PStr (py_str n +:+ " (*)")) r)
        else Ok r in
      let r2 := set_war_history war_id (HistoryEntry fame decks_used) r1 in
      let! f := py_int fame in
      let! d := py_int decks_used in
      Ok (<[k := add_totals f d r2]> player_stats)
  end.

(** lines 118-142: one iteration of the loop over the war log *)
Definition process_war (clan_tag : string)
    (state : gmap key player * gmap string Z) (entry : string * pyval)
  : res (gmap key player * gmap string Z) :=
  let '(player_stats, war_benchmarks) := state in
  let '(war_id, war) := entry in
  let! standings := get war "standings" (PList []) in
  let! ss := py_iter standings in
  let! war_participants := find_war_participants clan_tag ss in
  let! benchmark :=
    if bool_decide (clan_tag ∈ TOP_CLANS_FOR_BENCHMARK)
    then calculate_fair_benchmark war_participants
    else Ok 16 in
  let war_benchmarks' := <[war_id := benchmark]> war_benchmarks in
  let player_stats' := set_war_history war_id zero_entry <$> player_stats in
  let! ps := py_iter war_participants in
  let! player_stats'' := foldM (record_participant war_id) player_stats' ps in
  Ok (player_stats'', war_benchmarks').

(** lines 79-142.  The three payloads are the results of [get_api_data]:
    [PNone] when the request failed, the decoded JSON otherwise. *)
Definition generate_html_for_clan (clan_tag : string)
    (clan_data current_war_data war_log_data : pyval) : res report :=
  if negb (truthy clan_data && truthy current_war_data && truthy war_log_data)
  then Ok ApiErrorFragment
  else
    let! members := get clan_data "memberList" (PList []) in
    let! ms := py_iter members in
    let! current_member_tags := current_member_tags_of ms in
    let! members' := get clan_data "memberList" (PList []) in
    let! ms' := py_iter members' in
    let! player_stats := seed_player_stats ms' in
    let! player_stats := overlay_current_war current_war_data player_stats in
    let! items := get war_log_data "items" (PList []) in
    let! war_log_items := py_iter items in
    let! war_ids := war_ids_of war_log_items in
    let! all_participants :=
      collect_all_participants clan_tag player_stats war_log_items in
    let player_stats := add_former_members all_participants player_stats in
    let! final :=
      foldM (process_war clan_tag) (player_stats, ∅) (zip war_ids war_log_items) in
    Ok (ClanReport final.1 current_member_tags war_ids final.2).

End aggregator.

(** * Vocabulary of the properties *)

(** ** Attack counts *)

(** How often [x] occurs in [l]. *)
Definition occ (l : list Z) (x : Z) : nat := count_occ Z.eq_dec l x.

(** The distinct values of a list, in the order of their first occurrence. *)
Definition first_seen (l : list Z) : list Z :=
  foldl (λ ks x, if decide (x ∈ ks) then ks else ks ++ [x]) [] l.

(** The participant [p] reports [z] attacks ([decksUsed] defaults to 0). *)
Definition reports_attacks (p : pyval) (z : Z) : Prop :=
  get p "decksUsed" (PInt 0) = Ok (PInt z).

(** The positive attack counts, in input order. *)
Definition positive_counts (counts : list Z) : list Z :=
  filter (λ z, 0 < z) counts.

(** The largest value of [l]. *)
Definition is_max (mx : Z) (l : list Z) : Prop :=
  mx ∈ l ∧ ∀ y, y ∈ l → y ≤ mx.

(** A most frequent value of [l]. *)
Definition is_mode (m : Z) (l : list Z) : Prop :=
  m ∈ l ∧ ∀ x, (occ l x ≤ occ l m)%nat.

(** [m] occurs in [l] before any occurrence of [x]. *)
Definition occurs_first (m x : Z) (l : list Z) : Prop :=
  ∃ l1 l2, l = l1 ++ m :: l2 ∧ (x ∉ l1) ∧ (m ∉ l1).

(** The mode, ties going to the value met first. *)
Definition is_first_mode (m : Z) (l : list Z) : Prop :=
  is_mode m l ∧ ∀ x, x ≠ m → occ l x = occ l m → occurs_first m x l.

(** The test of line 65. *)
Definition checkpoint_below (m mx : Z) : bool :=
  bool_decide (m ∈ [4; 8; 12]) && (m <? mx).

(** A participant record that holds nothing but its attack count. *)
Definition with_attacks (z : Z) : pyval := PDict [("decksUsed", PInt z)].

(** ** Reading a payload without raising *)

(** [v.get(k, d)] where [v] is known to be a dict; [d] otherwise. *)
Definition field (v : pyval) (k : string) (d : pyval) : pyval :=
  match get v k d with
  | Ok x => x
  | Raise _ => d
  end.

(** The elements [for x in v] walks; none when [v] is not iterable. *)
Definition elements_of (v : pyval) : list pyval :=
  match py_iter v with
  | Ok l => l
  | Raise _ => []
  end.

(** The registry key of [p.get('tag')]: a participant without a tag goes
    under the key [None], as in the source. *)
Definition tag_key (p : pyval) : option key :=
  match hash_key (field p "tag" PNone) with
  | Ok k => Some k
  | Raise _ => None
  end.

(** The members of the current roster. *)
Definition roster (clan_data : pyval) : list pyval :=
  elements_of (field clan_data "memberList" (PList [])).

Definition roster_tags (clan_data : pyval) : gset key :=
  list_to_set (omap tag_key (roster clan_data)).

(** The participants the current-war payload lists for the clan. *)
Definition current_war_participants (current_war_data : pyval) : list pyval :=
  elements_of (field (field current_war_data "clan" (PDict [])) "participants" (PList [])).

Definition war_log_items (war_log_data : pyval) : list pyval :=
  elements_of (field war_log_data "items" (PList [])).

Definition standing_clan_tag (standing : pyval) : pyval :=
  field (field standing "clan" (PDict [])) "tag" PNone.

Definition standing_participants (standing : pyval) : list pyval :=
  elements_of (field (field standing "clan" (PDict [])) "participants" (PList [])).

(** The standings of a war whose clan tag is the clan under report. *)
Definition clan_standings (clan_tag : string) (war : pyval) : list pyval :=
  filter (λ s, py_eq_str (standing_clan_tag s) clan_tag = true)
         (elements_of (field war "standings" (PList []))).

(** Every participant of every such standing of a war. *)
Definition clan_participants (clan_tag : string) (war : pyval) : list pyval :=
  mbind (M := list) standing_participants (clan_standings clan_tag war).

(** Every participant tag the war log holds for the clan under report. *)
Definition war_log_tags (clan_tag : string) (war_log_data : pyval) : gset key :=
  list_to_set
    (omap tag_key
       (mbind (M := list) (clan_participants clan_tag) (war_log_items war_log_data))).

(** The participants of the standing the per-war loop settles on: the first
    one of the clan, none when no standing matches. *)
Definition war_participants (clan_tag : string) (war : pyval) : list pyval :=
  match find_war_participants clan_tag (elements_of (field war "standings" (PList []))) with
  | Ok ps => elements_of ps
  | Raise _ => []
  end.

(** The integer a stored value counts for in a sum. *)
Definition int_of (v : pyval) : Z :=
  match py_int v with
  | Ok z => z
  | Raise _ => 0
  end.

(** ** Versions of a record *)

(** What two versions of a record share when only the current-war fields
    may differ. *)
Definition same_but_current_war (r r' : player) : Prop :=
  name r' = name r ∧
  total_war_fame r' = total_war_fame r ∧
  total_decks_used r' = total_decks_used r ∧
  war_history r' = war_history r.

(** A record as the seeding and the former-member step create it. *)
Definition fresh_record (r : player) : Prop :=
  ∃ n, r = new_player n.

(** The record of a participant's tag after lines 138-142. *)
Definition recorded (container_repr : pyval → string)
    (war_id : string) (p : pyval) (r : player) : player :=
  let fame := field p "fame" (PInt 0) in
  let decks_used := field p "decksUsed" (PInt 0) in
  add_totals (int_of fame) (int_of decks_used)
    (set_war_history war_id (HistoryEntry fame decks_used)
       (if py_eq_str (name r) placeholder_name
        then set_name (PStr (py_str container_repr (field p "name" PNone) +:+ " (*)")) r
        else r)).

(** What one war may change in a record: not the current-war fields, not
    the history of another war, not a name that is not the placeholder. *)
Definition war_step (war_id : string) (r r' : player) : Prop :=
  current_war_decks_used r' = current_war_decks_used r ∧
  current_war_fame r' = current_war_fame r ∧
  (∀ w, w ≠ war_id → war_history r' !! w = war_history r !! w) ∧
  (is_Some (war_history r !! war_id) → is_Some (war_history r' !! war_id)) ∧
  (py_eq_str (name r) placeholder_name = false → name r' = name r).

Fixpoint spaceless (s : string) : Prop :=
  match s with
  | EmptyString => True
  | String c s' => c ≠ " "%char ∧ spaceless s'
  end.

(** The fame and the attacks a record's history holds for a war. *)
Definition history_fame (r : player) (w : string) : Z :=
  match war_history r !! w with
  | Some e => int_of (fame e)
  | None => 0
  end.

Definition history_decks (r : player) (w : string) : Z :=
  match war_history r !! w with
  | Some e => int_of (decksUsed e)
  | None => 0
  end.

Definition sum_over (f : string → Z) (ws : list string) : Z :=
  foldr (λ w acc, f w + acc) 0 ws.

(** The tags of the participants the per-war loop records for a war. *)
Definition war_tags (clan_tag : string) (war : pyval) : list key :=
  omap tag_key (war_participants clan_tag war).

(** The entry recorded from a participant. *)
Definition entry_of (p : pyval) : history_entry :=
  HistoryEntry (field p "fame" (PInt 0)) (field p "decksUsed" (PInt 0)).

(** How the record [r] of tag [k] before the wars [es] relates to its
    record [r'] after them. *)
Definition log_rel (clan_tag : string) (es : list (string * pyval))
    (k : key) (r r' : player) : Prop :=
  current_war_decks_used r' = current_war_decks_used r ∧
  current_war_fame r' = current_war_fame r ∧
  (py_eq_str (name r) placeholder_name = false → name r' = name r) ∧
  (∀ w, w ∉ es.*1 → war_history r' !! w = war_history r !! w) ∧
  (∀ w war, (w, war) ∈ es →
     is_Some (war_history r' !! w) ∧
     (k ∉ war_tags clan_tag war → war_history r' !! w = Some zero_entry) ∧
     (NoDup (war_tags clan_tag war) → k ∈ war_tags clan_tag war →
      ∃ p, p ∈ war_participants clan_tag war ∧ tag_key p = Some k ∧
           war_history r' !! w = Some (entry_of p))) ∧
  (Forall (λ e, NoDup (war_tags clan_tag e.2)) es →
   total_war_fame r' = total_war_fame r + sum_over (history_fame r') es.*1 ∧
   total_decks_used r' = total_decks_used r + sum_over (history_decks r') es.*1).

(** ** Fixtures *)

(** A stand-in for the [repr] of containers in the examples, none of which
    formats a list or a dict. *)
Definition repr_elided (v : pyval) : string := "[...]".

Definition participant (tag name : string) (fame decks : Z) : pyval :=
  PDict [("tag", PStr tag); ("name", PStr name);
         ("fame", PInt fame); ("decksUsed", PInt decks)].

Definition member (tag name : string) : pyval :=
  PDict [("tag", PStr tag); ("name", PStr name)].

Definition standing (clan_tag : string) (participants : list pyval) : pyval :=
  PDict [("rank", PInt 1);
         ("clan", PDict [("tag", PStr clan_tag); ("participants", PList participants)])].

Definition war (created : string) (standings : list pyval) : pyval :=
  PDict [("createdDate", PStr created); ("standings", PList standings)].

(** Two current members, one of them active in the current war, and one
    logged war in which a departed player took part. *)
Definition sample_clan : pyval :=
  PDict [("tag", PStr "#2V2VRRLJ");
         ("memberList", PList [member "#A" "Ann"; member "#B" "Bob"])].

Definition sample_current_war : pyval :=
  PDict [("state", PStr "warDay");
         ("clan", PDict [("participants", PList [participant "#A" "Ann" 100 2])])].

Definition sample_war_log : pyval :=
  PDict [("items", PList [
    war "20240101T000000.000Z"
        [standing "#OTHER" [participant "#Z" "Zed" 700 4];
         standing "#2V2VRRLJ" [participant "#A" "Ann" 500 4;
                               participant "#C" "Cat" 900 8]]])].

Definition sample_run : res report :=
  generate_html_for_clan repr_elided "#2V2VRRLJ"
    sample_clan sample_current_war sample_war_log.

Definition report_player_stats (r : res report) : gmap key player :=
  match r with
  | Ok (ClanReport player_stats _ _ _) => player_stats
  | _ => ∅
  end.

Definition report_member_tags (r : res report) : gset key :=
  match r with
  | Ok (ClanReport _ tags _ _) => tags
  | _ => ∅
  end.

Definition report_war_ids (r : res report) : list string :=
  match r with
  | Ok (ClanReport _ _ war_ids _) => war_ids
  | _ => []
  end.

Definition report_benchmarks (r : res report) : gmap string Z :=
  match r with
  | Ok (ClanReport _ _ _ war_benchmarks) => war_benchmarks
  | _ => ∅
  end.

(** The name line 139 builds from a participant: the reported name followed
    by the former-member mark. *)
Definition starred_name (container_repr : pyval → string) (p : pyval) : string :=
  py_str container_repr (field p "name" PNone) +:+ " (*)".

(** ** Payloads with absent fields *)

Definition is_str (v : pyval) : bool :=
  match v with PStr _ => true | _ => false end.

Definition is_int (v : pyval) : bool :=
  match v with PInt _ => true | _ => false end.

Definition any_value (v : pyval) : bool := true.

(** [v] is an object whose field [k] is absent or passes [check]. *)
Definition optional (k : string) (check : pyval → bool) (v : pyval) : bool :=
  match v with
  | PDict kvs => match assoc k kvs with Some x => check x | None => true end
  | _ => false
  end.

(** [v] is an object whose field [k] is present and passes [check]. *)
Definition required (k : string) (check : pyval → bool) (v : pyval) : bool :=
  match v with
  | PDict kvs => match assoc k kvs with Some x => check x | None => false end
  | _ => false
  end.

Definition list_of (check : pyval → bool) (v : pyval) : bool :=
  match v with
  | PList l => forallb check l
  | _ => false
  end.

(** The shape of the three payloads: every field may be absent except the
    tag and the name of a roster member; a field that is present holds what
    the API documents (a string tag and date, integer fame and attacks). *)
Definition member_ok (m : pyval) : bool :=
  required "tag" is_str m && required "name" any_value m.

Definition clan_data_ok (clan_data : pyval) : bool :=
  optional "memberList" (list_of member_ok) clan_data.

Definition participant_ok (p : pyval) : bool :=
  optional "tag" is_str p && optional "fame" is_int p && optional "decksUsed" is_int p.

Definition standing_clan_ok (c : pyval) : bool :=
  optional "participants" (list_of participant_ok) c.

Definition current_war_ok (current_war_data : pyval) : bool :=
  optional "clan" standing_clan_ok current_war_data.

Definition standing_ok (s : pyval) : bool :=
  optional "clan" standing_clan_ok s.

Definition war_ok (w : pyval) : bool :=
  optional "createdDate" is_str w && optional "standings" (list_of standing_ok) w.

Definition war_log_ok (war_log_data : pyval) : bool :=
  optional "items" (list_of war_ok) war_log_data.

Definition all_ok (check : pyval → bool) (l : list pyval) : Prop :=
  Forall (λ x, check x = true) l.

(** ** Further fixtures *)


Definition sample_seed : gmap key player :=
  match seed_player_stats (roster sample_clan) with
  | Ok st => st
  | Raise _ => ∅
  end.

Definition sample_overlay : gmap key player :=
  match overlay_current_war sample_current_war sample_seed with
  | Ok st => st
  | Raise _ => ∅
  end.

(** Payloads with fields left out: a participant without tag, name, fame or
    attacks, a war without creation date, a standing without clan entry. *)
Definition sparse_current_war : pyval :=
  PDict [("clan", PDict [("participants",
    PList [PDict [("tag", PStr "#A")]; PDict [("fame", PInt 50)]])])].

Definition sparse_war_log : pyval :=
  PDict [("items", PList [
    PDict [("standings", PList [
      PDict [("rank", PInt 2)];
      PDict [("clan", PDict [("tag", PStr "#2V2VRRLJ");
                             ("participants", PList [PDict []; PDict [("tag", PStr "#C")]])])]])];
    PDict [("createdDate", PStr "20240108T000000.000Z")]])].

(** A roster member without a name. *)
Definition nameless_member_clan : pyval :=
  PDict [("memberList", PList [PDict [("tag", PStr "#A")]])].

(** A departed player whose reported name is the text of the placeholder
    without its mark, seen in two wars under two names. *)
Definition homonym_war_1 : string * pyval :=
  ("War 1 (20240101)",
   war "20240101T000000.000Z"
       [standing "#2V2VRRLJ" [participant "#C" "Former Member" 900 8]]).

Definition homonym_war_2 : string * pyval :=
  ("War 2 (20240108)",
   war "20240108T000000.000Z"
       [standing "#2V2VRRLJ" [participant "#C" "Cat" 400 4]]).

Definition homonym_start : gmap key player :=
  add_former_members {[KStr "#C"]} ∅.

Definition registry_after (es : list (string * pyval)) : gmap key player :=
  match foldM (process_war repr_elided "#2V2VRRLJ") (homonym_start, ∅) es with
  | Ok (st, _) => st
  | Raise _ => ∅
  end.

(** * Vocabulary of the further properties *)

(** ** Participants and benchmarks *)

(** The participants of a list that carry the tag [k]. *)
Definition tagged (k : key) (ps : list pyval) : list pyval :=
  filter (λ p, tag_key p = Some k) ps.

(** The fame, and the attacks, a list of participants reports in all. *)
Definition fame_sum (ps : list pyval) : Z :=
  foldr (λ p acc, int_of (field p "fame" (PInt 0)) + acc) 0 ps.

Definition decks_sum (ps : list pyval) : Z :=
  foldr (λ p acc, int_of (field p "decksUsed" (PInt 0)) + acc) 0 ps.

(** The participants of all the standings the per-war loop settles on. *)
Definition recorded_participants (clan_tag : string) (wars : list pyval) : list pyval :=
  mbind (M := list) (war_participants clan_tag) wars.

(** The entry a list of participants leaves in a history: the one of its
    last element, the default when it is empty. *)
Definition last_entry (ps : list pyval) : history_entry :=
  match last ps with
  | Some p => entry_of p
  | None => zero_entry
  end.

(** The benchmark lines 120-128 compute for a war; 16 stands in where they
    raise. *)
Definition war_benchmark (clan_tag : string) (war : pyval) : Z :=
  if bool_decide (clan_tag ∈ TOP_CLANS_FOR_BENCHMARK) then
    match find_war_participants clan_tag
            (elements_of (field war "standings" (PList []))) with
    | Ok wp => match calculate_fair_benchmark wp with Ok b => b | Raise _ => 16 end
    | Raise _ => 16
    end
  else 16.

(** line 223: [sum(war_benchmarks.values())] *)
Definition total_possible_battles (war_benchmarks : gmap string Z) : Z :=
  map_fold (λ _ benchmark acc, benchmark + acc) 0 war_benchmarks.

Definition sum_list_Z (l : list Z) : Z := foldr Z.add 0 l.

(** A most frequent value that nothing else equals in frequency. *)
Definition is_strict_mode (m : Z) (l : list Z) : Prop :=
  m ∈ l ∧ ∀ x, x ≠ m → (occ l x < occ l m)%nat.

Definition is_dict (v : pyval) : bool :=
  match v with PDict _ => true | _ => false end.

(** ** Strings: [split], slices and [replace] *)

(** The character [a] does not occur in [s]. *)
Fixpoint lacks (a : ascii) (s : string) : Prop :=
  match s with
  | EmptyString => True
  | String c s' => c ≠ a ∧ lacks a s'
  end.

(** [s.split(sep)] for a separator of one character. *)
Fixpoint split_char (sep : ascii) (s : string) : list string :=
  match s with
  | EmptyString => [EmptyString]
  | String c s' =>
      if Ascii.eqb c sep then EmptyString :: split_char sep s'
      else match split_char sep s' with
           | piece :: pieces => String c piece :: pieces
           | [] => [String c EmptyString]
           end
  end.

(** [l[-1]] *)
Definition py_last (l : list string) : res string :=
  match last l with
  | Some x => Ok x
  | None => Raise IndexError
  end.

(** [s[:-1]] *)
Fixpoint drop_last (s : string) : string :=
  match s with
  | EmptyString => EmptyString
  | String c EmptyString => EmptyString
  | String c s' => String c (drop_last s')
  end.

(** line 235 of [build_history_html]: [war_id.split('(')[-1][:-1]] *)
Definition war_date (war_id : string) : res string :=
  let! piece := py_last (split_char "(" war_id) in
  Ok (drop_last piece).

(** [s.replace(old, new)] for a non-empty [old]: the occurrences are taken
    from left to right and do not overlap, and the text put in is not
    searched again.  [skip] counts the characters of a match still to pass. *)
Fixpoint replace_from (old new : string) (skip : nat) (s : string) : string :=
  match s with
  | EmptyString => EmptyString
  | String c s' =>
      match skip with
      | S skip' => replace_from old new skip' s'
      | O =>
          if String.prefix old (String c s')
          then new +:+ replace_from old new (String.length old - 1) s'
          else String c (replace_from old new O s')
      end
  end.

Definition str_replace (old new s : string) : string :=
  replace_from old new 0 s.

(** ** The request URL and the section identifier *)

Definition BASE_URL : string := "https://api.clashroyale.com/v1".

(** line 32 *)
Definition encoded_clan_tag (clan_tag : string) : string :=
  str_replace "#" "%23" clan_tag.

(** line 33: the URL [get_api_data] requests.  The request itself is
    outside the model. *)
Definition api_url (endpoint clan_tag : string) : string :=
  BASE_URL +:+ str_replace "{clanTag}" (encoded_clan_tag clan_tag) endpoint.

(** lines 77 and 266 *)
Definition clan_id_of (clan_tag : string) : string :=
  str_replace "#" EmptyString clan_tag.

(** ** The current-war table *)

(** lines 179-180 *)
Definition war_day_number (current_war_data : pyval) : res Z :=
  let! period_index := get current_war_data "periodIndex" (PInt 0) in
  let! z := py_int period_index in
  Ok (Z.max 1 (z - 2)).

(** line 181 *)
Definition cumulative_max_battles (day : Z) : Z := day * 4.

(** The quotation mark, and the [<span>] of the three indicator texts. *)
Definition quote : string := String (ascii_of_nat 34) EmptyString.

Definition indicator_span (colour text : string) : string :=
  " <span class=" +:+ quote +:+ "block " +:+ colour +:+ " text-xs italic" +:+ quote
  +:+ ">" +:+ text +:+ "</span>".

Definition all_complete_html : string :=
  indicator_span "text-green-400" "(All Battles Complete!)".

Definition waiting_html (day : Z) : string :=
  indicator_span "text-yellow-500" ("(Waiting on Day " +:+ pretty day +:+ " Battles)").

Definition missed_prior_day_html : string :=
  indicator_span "text-red-500" "(Missed Battle(s) on Prior Day)".

(** line 188; [decks_used] is what the record holds *)
Definition daily_status_html (day : Z) (decks_used : pyval) : res string :=
  let! d := py_int decks_used in
  if cumulative_max_battles day <=? d then Ok all_complete_html
  else Ok (waiting_html day).

(** line 189: [and] does not look at [decks_used] on day 1 *)
Definition missed_battle_indicator_html (day : Z) (decks_used : pyval) : res string :=
  if 1 <? day then
    let! d := py_int decks_used in
    if d <? (day - 1) * 4 then Ok missed_prior_day_html else Ok EmptyString
  else Ok EmptyString.

(** line 190 *)
Definition indicators_html (day : Z) (decks_used : pyval) : res string :=
  let! daily := daily_status_html day decks_used in
  let! missed := missed_battle_indicator_html day decks_used in
  Ok (daily +:+ missed).

(** ** The history table *)

(** A value arithmetic accepts: an integer or a boolean. *)
Definition numeric (v : pyval) : Prop := ∃ z, py_int v = Ok z.

Definition numeric_entry (e : history_entry) : Prop :=
  numeric (fame e) ∧ numeric (decksUsed e).

(** line 242 of [build_history_html]:
    [history['decksUsed'] > 0 or history['fame'] > 0] *)
Definition history_row_shown (e : history_entry) : res bool :=
  let! decks_positive := py_gt0 (decksUsed e) in
  if decks_positive then Ok true else py_gt0 (fame e).

(** The records hold numbers only in their histories. *)
Definition numeric_histories (player_stats : gmap key player) : Prop :=
  ∀ k r w e, player_stats !! k = Some r → war_history r !! w = Some e → numeric_entry e.

(** ** Fixtures of the further properties *)

(** A logged war that lists one member twice. *)
Definition doubled_war : pyval :=
  war "20240101T000000.000Z"
      [standing "#2V2VRRLJ" [participant "#A" "Ann" 500 4;
                             participant "#A" "Ann" 300 2]].

Definition doubled_war_log : pyval := PDict [("items", PList [doubled_war])].

Definition doubled_run : res report :=
  generate_html_for_clan repr_elided "#2V2VRRLJ"
    sample_clan sample_current_war doubled_war_log.

Definition doubled_ann : player :=
  default former_member (report_player_stats doubled_run !! KStr "#A").



Definition sample_ann : player :=
  default former_member (report_player_stats sample_run !! KStr "#A").

(** ** The first standing of the clan *)

(** The participants a war's payload lists in the first of its standings
    whose clan tag is the clan under report; none when no standing is of the
    clan. *)
Definition first_standing_participants (clan_tag : string) (war : pyval)
  : list pyval :=
  match clan_standings clan_tag war with
  | s :: _ => standing_participants s
  | [] => []
  end.

Definition first_standing_tags (clan_tag : string) (war : pyval) : list key :=
  omap tag_key (first_standing_participants clan_tag war).

(** The participants of the first standing of the clan, war after war. *)
Definition logged_participants (clan_tag : string) (wars : list pyval)
  : list pyval :=
  mbind (M := list) (first_standing_participants clan_tag) wars.

(** The object [v] has no field [k]. *)
Definition absent (k : string) (v : pyval) : Prop :=
  match v with
  | PDict kvs => assoc k kvs = None
  | _ => False
  end.

(** A value that is no number: [None], a string, a list or an object. *)
Definition non_number (v : pyval) : Prop :=
  match v with
  | PNone | PStr _ | PList _ | PDict _ => True
  | PBool _ | PInt _ => False
  end.

(** A departed player absent from the first logged war, listed after a
    current member in the second, and listed under another name in the
    third. *)
Definition late_war_log : pyval :=
  PDict [("items", PList [
    war "20240101T000000.000Z"
        [standing "#2V2VRRLJ" [participant "#A" "Ann" 500 4]];
    war "20240108T000000.000Z"
        [standing "#2V2VRRLJ" [participant "#A" "Ann" 300 2;
                               participant "#C" "Cat" 900 8]];
    war "20240115T000000.000Z"
        [standing "#2V2VRRLJ" [participant "#C" "Kit" 100 1]]])].

Definition late_run : res report :=
  generate_html_for_clan repr_elided "#2V2VRRLJ"
    sample_clan sample_current_war late_war_log.

(** * Properties *)

(** ** The error monad *)

Lemma bind_Ok {A B} (m : res A) (k : A → res B) b :
  bind m k = Ok b ↔ ∃ a, m = Ok a ∧ k a = Ok b.
Proof.
  destruct m as [a|e]; simpl; split.
  - eauto.
  - by intros (a' & [= <-] & ?).
  - done.
  - by intros (? & ? & ?).
Qed.

Tactic Notation "inv_bind" hyp(H) "as" ident(a) ident(E) :=
  apply bind_Ok in H as (a & E & H).

Lemma foldM_app {A S} (body : S → A → res S) s l1 l2 :
  foldM body s (l1 ++ l2) = let! s' := foldM body s l1 in foldM body s' l2.
Proof.
  revert s. induction l1 as [|x l1 IH]; intros s; simpl; [done|].
  destruct (body s x); simpl; auto.
Qed.

(** An invariant of the loop's state holds after the loop when every
    iteration that does not raise keeps it. *)
Lemma foldM_invariant {A S} (I : S → Prop) (body : S → A → res S) l s s' :
  (∀ s x s', x ∈ l → I s → body s x = Ok s' → I s') →
  I s → foldM body s l = Ok s' → I s'.
Proof.
  revert s. induction l as [|x l IH]; intros s Hbody Hs H; simpl in H.
  - by injection H as <-.
  - inv_bind H as s1 E. eapply IH; [| |exact H].
    + intros ????. apply Hbody. by right.
    + eapply Hbody; [by left|exact Hs|exact E].
Qed.

(** ** Benchmark estimator: the frequency count *)

Lemma first_seen_snoc l x :
  first_seen (l ++ [x]) =
  if decide (x ∈ first_seen l) then first_seen l else first_seen l ++ [x].
Proof. unfold first_seen. by rewrite foldl_app. Qed.

Lemma elem_of_first_seen l x : x ∈ first_seen l ↔ x ∈ l.
Proof.
  induction l as [|y l IH] using rev_ind.
  - done.
  - rewrite first_seen_snoc. destruct (decide (y ∈ first_seen l)) as [Hy|Hy].
    + rewrite elem_of_app, list_elem_of_singleton, <- IH.
      split; [tauto|]. intros [?| ->]; tauto.
    + rewrite !elem_of_app, IH. tauto.
Qed.

Lemma first_seen_NoDup l : NoDup (first_seen l).
Proof.
  induction l as [|y l IH] using rev_ind.
  - constructor.
  - rewrite first_seen_snoc. destruct (decide (y ∈ first_seen l)) as [Hy|Hy]; [done|].
    apply NoDup_app. split_and!; [done| |apply NoDup_singleton].
    intros x Hx ->%list_elem_of_singleton. done.
Qed.

(** Whatever stands in the list before the first occurrence of a value was
    seen before that value. *)
Lemma first_seen_split l k1 y k2 :
  first_seen l = k1 ++ y :: k2 →
  ∃ l1 l2, l = l1 ++ y :: l2 ∧ ∀ x, x ∈ l1 → x ∈ k1.
Proof.
  revert k2. induction l as [|z l IH] using rev_ind; intros k2 Hk.
  - by destruct k1.
  - rewrite first_seen_snoc in Hk.
    destruct (decide (z ∈ first_seen l)) as [Hz|Hz].
    + destruct (IH _ Hk) as (l1 & l2 & -> & Hl1).
      exists l1, (l2 ++ [z]). by rewrite <- app_assoc.
    + destruct k2 as [|w k2 _] using rev_ind.
      * change (k1 ++ [y]) with (k1 ++ [y]) in Hk.
        apply app_inj_tail in Hk as [Hk <-].
        exists l, []. split; [done|].
        intros x Hx. rewrite <- Hk. by apply elem_of_first_seen.
      * rewrite app_comm_cons, app_assoc in Hk.
        apply app_inj_tail in Hk as [Hk <-].
        destruct (IH _ Hk) as (l1 & l2 & -> & Hl1).
        exists l1, (l2 ++ [z]). by rewrite <- app_assoc.
Qed.

Lemma Counter_snoc l x : Counter (l ++ [x]) = counter_incr x (Counter l).
Proof. unfold Counter. by rewrite foldl_app. Qed.

Lemma counter_incr_fmap (f : Z → nat) x ks :
  NoDup ks → (x ∉ ks → f x = 0%nat) →
  counter_incr x ((λ y, (y, f y)) <$> ks) =
  (λ y, (y, if decide (y = x) then S (f y) else f y)) <$>
    (if decide (x ∈ ks) then ks else ks ++ [x]).
Proof.
  intros Hnd H0. induction ks as [|k ks IH]; [simpl|rewrite fmap_cons; cbn [counter_incr]].
  - destruct (decide (x ∈ [])) as [[]%not_elem_of_nil|_]. simpl.
    rewrite decide_True by done. rewrite H0; [done|apply not_elem_of_nil].
  - apply NoDup_cons in Hnd as [Hk Hnd].
    destruct (decide (x = k)) as [->|Hxk].
    + rewrite (decide_True (P := k ∈ k :: ks)) by left. simpl.
      rewrite decide_True by done.
      f_equal. apply list_fmap_ext. intros _ y Hy%list_elem_of_lookup_2.
      rewrite decide_False; [done|]. by intros ->.
    + rewrite IH; [|done|]; last first.
      { intros Hx. apply H0. rewrite elem_of_cons. tauto. }
      destruct (decide (x ∈ ks)) as [Hx|Hx].
      * rewrite (decide_True (P := x ∈ k :: ks)) by (by right). simpl.
        by rewrite (decide_False (P := k = x)).
      * rewrite (decide_False (P := x ∈ k :: ks)) by (rewrite elem_of_cons; tauto).
        simpl. by rewrite (decide_False (P := k = x)).
Qed.

Lemma occ_snoc l x y :
  occ (l ++ [x]) y = if decide (y = x) then S (occ l y) else occ l y.
Proof.
  unfold occ. rewrite count_occ_app. simpl.
  destruct (Z.eq_dec x y), (decide (y = x)); try congruence; lia.
Qed.

(** The counter holds each distinct value once, in the order of first
    occurrence, with its number of occurrences. *)
Lemma Counter_first_seen l :
  Counter l = (λ y, (y, occ l y)) <$> first_seen l.
Proof.
  induction l as [|x l IH] using rev_ind; [done|].
  rewrite Counter_snoc, IH, first_seen_snoc.
  rewrite counter_incr_fmap.
  - apply list_fmap_ext. intros _ y _. by rewrite occ_snoc.
  - apply first_seen_NoDup.
  - rewrite elem_of_first_seen, list_elem_of_In. apply count_occ_not_In.
Qed.

(** [max] with a key keeps the first of the largest items. *)
Lemma max_by_count_spec best c :
  ∃ c1 c2, best :: c = c1 ++ max_by_count best c :: c2 ∧
    (∀ p, p ∈ c1 → (p.2 < (max_by_count best c).2)%nat) ∧
    (∀ p, p ∈ c2 → (p.2 ≤ (max_by_count best c).2)%nat).
Proof.
  revert best. induction c as [|p c IH]; intros best; simpl.
  - exists [], []. split_and!; [done|intros ? []%not_elem_of_nil..].
  - destruct (p.2 <=? best.2)%nat eqn:Hle.
    + apply Nat.leb_le in Hle.
      destruct (IH best) as (c1 & c2 & Heq & H1 & H2).
      destruct c1 as [|b c1]; simpl in Heq; injection Heq as Hb Hc.
      * exists [], (p :: c2). rewrite <- Hb, Hc.
        split_and!; [done|intros ? []%not_elem_of_nil|].
        intros q [->|?]%elem_of_cons; [done|].
        rewrite Hb. by apply H2.
      * subst b. exists (best :: p :: c1), c2.
        split_and!; [simpl; do 2 f_equal; exact Hc| |done].
        assert (best.2 < (max_by_count best c).2)%nat by (apply H1; left).
        intros q [->|[->|?]%elem_of_cons]%elem_of_cons; [done|lia|].
        apply H1. by right.
    + apply Nat.leb_gt in Hle.
      destruct (IH p) as (c1 & c2 & Heq & H1 & H2).
      exists (best :: c1), c2. split_and!; [by rewrite Heq| |done].
      intros q [->|Hq]%elem_of_cons; [|by apply H1].
      destruct c1 as [|b c1]; simpl in Heq; injection Heq as Hb Hc.
      * by rewrite <- Hb.
      * subst b. assert (p.2 < (max_by_count p c).2)%nat by (apply H1; left). lia.
Qed.

(** The item [most_common(1)] returns: a value of the list, with its number
    of occurrences, which no value exceeds; among the values that occur as
    often, the one that occurs first. *)
Lemma most_common_1_spec l m n rest :
  most_common_1 (Counter l) = ((m, n) :: rest) →
  m ∈ l ∧ n = occ l m ∧ (∀ x, (occ l x ≤ occ l m)%nat) ∧
  ∀ x, x ≠ m → occ l x = occ l m →
       ∃ l1 l2, l = l1 ++ m :: l2 ∧ (x ∉ l1) ∧ (m ∉ l1).
Proof.
  unfold most_common_1. destruct (Counter l) as [|best c] eqn:HC; [done|].
  intros [= Hm _].
  destruct (max_by_count_spec best c) as (c1 & c2 & Heq & H1 & H2).
  rewrite Hm in Heq, H1, H2. simpl in H1, H2. clear Hm.
  rewrite <- HC, Counter_first_seen in Heq. clear HC best c.
  apply fmap_app_inv in Heq as (k1 & k2' & -> & Hk2 & Hks).
  symmetry in Hk2. apply fmap_cons_inv in Hk2 as (m' & k2 & Hm' & -> & ->).
  injection Hm' as <- ->.
  pose proof (first_seen_NoDup l) as Hnd. rewrite Hks in Hnd.
  apply NoDup_app in Hnd as (_ & Hk1 & [Hmk2 _]%NoDup_cons).
  assert (m ∈ l) as Hml.
  { apply elem_of_first_seen. rewrite Hks, elem_of_app, elem_of_cons. tauto. }
  assert (∀ x, x ∈ k1 → (occ l x < occ l m)%nat) as Hlt.
  { intros x Hx. apply (H1 (x, occ l x)).
    apply list_elem_of_fmap. by exists x. }
  split_and!; [done..| |].
  - intros x. destruct (decide (x ∈ l)) as [Hx|Hx].
    + apply elem_of_first_seen in Hx. rewrite Hks in Hx.
      apply elem_of_app in Hx as [Hx|[->|Hx]%elem_of_cons].
      * apply Hlt in Hx. lia.
      * done.
      * apply (H2 (x, occ l x)). apply list_elem_of_fmap. by exists x.
    + rewrite list_elem_of_In in Hx. apply count_occ_not_In with (eq_dec := Z.eq_dec) in Hx.
      unfold occ at 1. rewrite Hx. lia.
  - intros x Hxm Hocc.
    destruct (first_seen_split _ _ _ _ Hks) as (l1 & l2 & -> & Hl1).
    exists l1, l2. split_and!; [done| |].
    + intros Hx%Hl1%Hlt. lia.
    + intros Hx%Hl1%Hlt. lia.
Qed.

Lemma most_common_1_nonempty l :
  l ≠ [] → ∃ m n, most_common_1 (Counter l) = [(m, n)].
Proof.
  intros Hl. destruct (Counter l) as [|best c] eqn:HC.
  - rewrite Counter_first_seen in HC. apply fmap_nil_inv in HC.
    destruct l as [|x l]; [done|].
    assert (x ∈ first_seen (x :: l)) as Hx by (apply elem_of_first_seen; left).
    rewrite HC in Hx. by apply not_elem_of_nil in Hx.
  - simpl. destruct (max_by_count best c) as [m n]. eauto.
Qed.

(** [max] of a non-empty list of integers. *)
Lemma foldl_max_spec x l :
  foldl Z.max x l ∈ x :: l ∧ ∀ y, y ∈ x :: l → y ≤ foldl Z.max x l.
Proof.
  revert x. induction l as [|z l IH]; intros x; simpl.
  - split; [left|]. by intros y ->%list_elem_of_singleton.
  - destruct (IH (x `max` z)) as [Hin Hle]. split.
    + apply elem_of_cons in Hin as [Hin|Hin]; [|by do 2 right].
      rewrite Hin. destruct (Z.max_spec x z) as [[_ ->]|[_ ->]]; [right|]; left.
    + intros y Hy.
      assert (x `max` z ≤ foldl Z.max (x `max` z) l) by (apply Hle; left).
      apply elem_of_cons in Hy as [->|[->|Hy]%elem_of_cons]; [lia..|].
      apply Hle. by right.
Qed.

(** ** Benchmark estimator: the claims *)

Lemma decks_used_list_counts ps counts :
  Forall2 reports_attacks ps counts →
  decks_used_list ps = Ok (positive_counts counts).
Proof.
  unfold positive_counts.
  induction 1 as [|p z ps counts Hp _ IH]; [done|].
  simpl. unfold reports_attacks in Hp. rewrite Hp. simpl.
  rewrite filter_cons. destruct (Z.ltb_spec 0 z).
  - rewrite decide_True by done. simpl. by rewrite IH.
  - rewrite decide_False by lia. done.
Qed.

Lemma calculate_fair_benchmark_unfold ps decks :
  decks_used_list ps = Ok decks →
  calculate_fair_benchmark (PList ps) =
  match decks with
  | [] => Ok 16
  | x :: decks' =>
      match most_common_1 (Counter decks) with
      | [] => Raise IndexError
      | (m, _) :: _ =>
          Ok (if checkpoint_below m (foldl Z.max x decks') then m
              else foldl Z.max x decks')
      end
  end.
Proof.
  intros Hd. unfold calculate_fair_benchmark. destruct ps as [|p ps].
  - simpl in Hd. by injection Hd as <-.
  - cbn [truthy negb py_iter bind]. rewrite Hd. cbn [bind].
    destruct decks as [|x decks']; [done|]. cbn [py_max bind].
    destruct (most_common_1 _) as [|[m n] ?]; [done|].
    unfold checkpoint_below. by destruct (_ && _).
Qed.

Lemma calculate_fair_benchmark_decks ps decks :
  decks_used_list ps = Ok decks → decks ≠ [] →
  ∃ m mx, is_first_mode m decks ∧ is_max mx decks ∧
    (∃ n, most_common_1 (Counter decks) = [(m, n)]) ∧
    calculate_fair_benchmark (PList ps) =
      Ok (if checkpoint_below m mx then m else mx).
Proof.
  intros Hd Hne. rewrite (calculate_fair_benchmark_unfold _ _ Hd).
  destruct (most_common_1_nonempty decks Hne) as (m & n & Hmc).
  destruct (most_common_1_spec _ _ _ _ Hmc) as (Hin & _ & Hmax & Hfirst).
  destruct decks as [|x decks']; [done|]. rewrite Hmc.
  exists m, (foldl Z.max x decks'). split_and!; [|apply foldl_max_spec..|by eauto|done].
  split; [by split|]. intros y Hy Hocc. by apply Hfirst.
Qed.

Lemma checkpoint_below_decide m mx :
  checkpoint_below m mx = bool_decide (m ∈ [4; 8; 12] ∧ m < mx).
Proof.
  unfold checkpoint_below.
  destruct (Z.ltb_spec m mx), (decide (m ∈ [4; 8; 12])).
  - rewrite !bool_decide_eq_true_2; done.
  - rewrite !bool_decide_eq_false_2; [done|tauto|done].
  - rewrite andb_false_r, bool_decide_eq_false_2; [done|lia].
  - rewrite andb_false_r, bool_decide_eq_false_2; [done|lia].
Qed.

Lemma positive_counts_pos counts z : z ∈ positive_counts counts → 0 < z.
Proof. unfold positive_counts. by intros [? _]%list_elem_of_filter. Qed.

(** C3: on a participant list with at least one positive attack count, the
    estimator returns the mode of the positive counts when the mode is one of
    4, 8, 12 and strictly below the largest positive count, and the largest
    positive count otherwise; when all participants report the same positive
    count [k] it returns [k]; on the counts 4,4,4,8,4,4 it returns 4. *)
Theorem fair_benchmark_mode_or_max :
  (∀ ps counts,
     Forall2 reports_attacks ps counts → positive_counts counts ≠ [] →
     ∃ m mx,
       is_first_mode m (positive_counts counts) ∧
       is_max mx (positive_counts counts) ∧
       calculate_fair_benchmark (PList ps) =
         Ok (if decide (m ∈ [4; 8; 12] ∧ m < mx) then m else mx)) ∧
  (∀ ps k,
     ps ≠ [] → 0 < k → Forall (λ p, reports_attacks p k) ps →
     calculate_fair_benchmark (PList ps) = Ok k) ∧
  calculate_fair_benchmark (PList (with_attacks <$> [4; 4; 4; 8; 4; 4])) = Ok 4.
Proof.
  assert (∀ ps counts,
     Forall2 reports_attacks ps counts → positive_counts counts ≠ [] →
     ∃ m mx,
       is_first_mode m (positive_counts counts) ∧
       is_max mx (positive_counts counts) ∧
       calculate_fair_benchmark (PList ps) =
         Ok (if decide (m ∈ [4; 8; 12] ∧ m < mx) then m else mx)) as Hmain.
  { intros ps counts Hps Hne.
    apply decks_used_list_counts in Hps.
    destruct (calculate_fair_benchmark_decks _ _ Hps Hne)
      as (m & mx & Hm & Hmx & _ & Heq).
    exists m, mx. split_and!; [done..|].
    rewrite Heq, checkpoint_below_decide.
    case_bool_decide; [by rewrite decide_True|by rewrite decide_False]. }
  split_and!; [exact Hmain| |done].
  intros ps k Hne Hk Hps.
  assert (Forall2 reports_attacks ps (replicate (length ps) k)) as H2.
  { clear Hne. induction Hps; simpl; constructor; auto. }
  assert (positive_counts (replicate (length ps) k) = replicate (length ps) k) as Hpos.
  { unfold positive_counts. clear -Hk. induction (length ps) as [|n IH]; [done|].
    simpl. rewrite filter_cons, decide_True by done. by rewrite IH. }
  destruct (Hmain _ _ H2) as (m & mx & [[Hm _] _] & [Hmx _] & ->).
  { rewrite Hpos. by destruct ps. }
  rewrite Hpos in Hm, Hmx.
  apply elem_of_replicate in Hm as [-> _]. apply elem_of_replicate in Hmx as [-> _].
  by destruct (decide _).
Qed.

Lemma fair_benchmark_mode_or_max_witness :
  ∃ m mx,
    is_first_mode m (positive_counts [8; 0; 12; 8]) ∧
    is_max mx (positive_counts [8; 0; 12; 8]) ∧
    calculate_fair_benchmark (PList (with_attacks <$> [8; 0; 12; 8])) =
      Ok (if decide (m ∈ [4; 8; 12] ∧ m < mx) then m else mx).
Proof.
  apply (proj1 fair_benchmark_mode_or_max (with_attacks <$> [8; 0; 12; 8])).
  - repeat constructor.
  - vm_compute. discriminate.
Defined.

(** C4: on every participant list the estimator returns a positive integer
    and raises nothing; it returns 16 when the list is empty or every
    participant's attack count is zero. *)
Theorem fair_benchmark_positive ps counts :
  Forall2 reports_attacks ps counts →
  ∃ b, calculate_fair_benchmark (PList ps) = Ok b ∧ 1 ≤ b ∧
       (Forall (λ z, z = 0) counts → b = 16).
Proof.
  intros Hps. pose proof (decks_used_list_counts _ _ Hps) as Hd.
  destruct (positive_counts counts) as [|x decks'] eqn:Hpos.
  - exists 16. by rewrite (calculate_fair_benchmark_unfold _ _ Hd).
  - destruct (calculate_fair_benchmark_decks _ _ Hd)
      as (m & mx & [[Hm _] _] & [Hmx _] & _ & ->); [done|].
    rewrite <- Hpos in Hm, Hmx.
    apply positive_counts_pos in Hm. apply positive_counts_pos in Hmx.
    eexists. split_and!; [done|by destruct (checkpoint_below m mx); lia|].
    intros Hzero. exfalso.
    assert (x ∈ positive_counts counts) as Hx by (rewrite Hpos; left).
    unfold positive_counts in Hx. apply list_elem_of_filter in Hx as [Hx Hin].
    rewrite Forall_forall in Hzero. apply Hzero in Hin. lia.
Qed.

Lemma fair_benchmark_positive_witness :
  ∃ b, calculate_fair_benchmark (PList [with_attacks 0; PDict []; with_attacks 3]) = Ok b ∧
       1 ≤ b ∧ (Forall (λ z, z = 0) [0; 0; 3] → b = 16).
Proof.
  apply (fair_benchmark_positive [with_attacks 0; PDict []; with_attacks 3] [0; 0; 3]).
  repeat constructor.
Defined.

Lemma occurs_first_antisym m x l :
  occurs_first m x l → occurs_first x m l → m = x.
Proof.
  intros (l1 & l2 & -> & Hx & Hm) (l1' & l2' & Heq & Hm' & Hx').
  destruct (Nat.lt_trichotomy (length l1) (length l1')) as [Hlt|[Hlen|Hgt]].
  - exfalso. apply Hm'.
    pose proof (list_lookup_middle l1 l2 m _ eq_refl) as Hl. rewrite Heq in Hl.
    rewrite lookup_app_l in Hl by done. by eapply list_elem_of_lookup_2.
  - pose proof (list_lookup_middle l1 l2 m _ eq_refl) as Hl. rewrite Heq in Hl.
    rewrite (list_lookup_middle l1' l2' x _ Hlen) in Hl. congruence.
  - exfalso. apply Hx.
    pose proof (list_lookup_middle l1' l2' x _ eq_refl) as Hl. rewrite <- Heq in Hl.
    rewrite lookup_app_l in Hl by done. by eapply list_elem_of_lookup_2.
Qed.

Lemma first_mode_unique m m' l :
  is_mode m l →
  (∀ x, x ≠ m → is_mode x l → occurs_first m x l) →
  is_first_mode m' l → m' = m.
Proof.
  intros Hm Hfirst [Hm' Hfirst'].
  destruct (decide (m' = m)) as [|Hne]; [done|].
  apply occurs_first_antisym with l.
  - apply Hfirst'; [congruence|]. apply Nat.le_antisymm; [apply Hm'|apply Hm].
  - by apply Hfirst.
Qed.

Lemma largest_count_unique mx mx' l : is_max mx l → is_max mx' l → mx' = mx.
Proof. intros [Hin Hle] [Hin' Hle']. apply Hle in Hin'. apply Hle' in Hin. lia. Qed.

(** C9: of the positive attack counts tied for the highest frequency, the
    estimator takes as mode the one met first in the input: a most
    frequent count that precedes every other most frequent count is the
    mode the returned benchmark is computed from; such a count exists
    whenever some count is positive; the benchmark is a function of the
    sequence of attack counts alone. *)
Theorem fair_benchmark_mode_first_seen :
  (∀ ps counts m mx,
     Forall2 reports_attacks ps counts →
     is_mode m (positive_counts counts) →
     (∀ x, x ≠ m → is_mode x (positive_counts counts) →
           occurs_first m x (positive_counts counts)) →
     is_max mx (positive_counts counts) →
     calculate_fair_benchmark (PList ps) =
       Ok (if decide (m ∈ [4; 8; 12] ∧ m < mx) then m else mx)) ∧
  (∀ ps counts,
     Forall2 reports_attacks ps counts → positive_counts counts ≠ [] →
     ∃ m mx,
       is_mode m (positive_counts counts) ∧
       (∀ x, x ≠ m → is_mode x (positive_counts counts) →
             occurs_first m x (positive_counts counts)) ∧
       is_max mx (positive_counts counts) ∧
       calculate_fair_benchmark (PList ps) =
         Ok (if decide (m ∈ [4; 8; 12] ∧ m < mx) then m else mx)) ∧
  (∀ ps ps' counts,
     Forall2 reports_attacks ps counts → Forall2 reports_attacks ps' counts →
     calculate_fair_benchmark (PList ps) = calculate_fair_benchmark (PList ps')).
Proof.
  assert (∀ ps counts,
     Forall2 reports_attacks ps counts → positive_counts counts ≠ [] →
     ∃ m mx,
       is_first_mode m (positive_counts counts) ∧
       is_max mx (positive_counts counts) ∧
       calculate_fair_benchmark (PList ps) =
         Ok (if decide (m ∈ [4; 8; 12] ∧ m < mx) then m else mx)) as Hmain.
  { intros ps counts Hd%decks_used_list_counts Hne.
    destruct (calculate_fair_benchmark_decks _ _ Hd Hne)
      as (m & mx & Hm & Hmx & _ & Heq).
    exists m, mx. split_and!; [done..|].
    rewrite Heq, checkpoint_below_decide.
    case_bool_decide; [by rewrite decide_True|by rewrite decide_False]. }
  split_and!.
  - intros ps counts m mx Hps Hm Hfirst Hmx.
    destruct (Hmain ps counts Hps) as (m' & mx' & Hm' & Hmx' & ->).
    { destruct Hm as [Hin _]. intros Hnil. rewrite Hnil in Hin.
      by apply not_elem_of_nil in Hin. }
    by rewrite (first_mode_unique _ _ _ Hm Hfirst Hm'), (largest_count_unique _ _ _ Hmx Hmx').
  - intros ps counts Hps Hne.
    destruct (Hmain ps counts Hps Hne) as (m & mx & [Hm Hfirst] & Hmx & Heq).
    exists m, mx. split_and!; [done| |done..].
    intros x Hx [_ Hxm]. apply Hfirst; [done|].
    destruct Hm as [_ Hm]. specialize (Hm x). specialize (Hxm m). lia.
  - intros ps ps' counts H1%decks_used_list_counts H2%decks_used_list_counts.
    by rewrite (calculate_fair_benchmark_unfold _ _ H1),
               (calculate_fair_benchmark_unfold _ _ H2).
Qed.

Lemma fair_benchmark_mode_first_seen_witness :
  calculate_fair_benchmark (PList (with_attacks <$> [12; 8; 8; 12; 16])) =
    Ok (if decide (12 ∈ [4; 8; 12] ∧ 12 < 16) then 12 else 16).
Proof.
  apply (proj1 fair_benchmark_mode_first_seen
           (with_attacks <$> [12; 8; 8; 12; 16]) [12; 8; 8; 12; 16] 12 16).
  - repeat constructor.
  - split; [by left|]. intros x. unfold occ, positive_counts.
    change (filter _ _) with [12; 8; 8; 12; 16]. cbn [count_occ].
    repeat destruct (Z.eq_dec _ _); lia.
  - intros x _ _. exists [], [8; 8; 12; 16].
    split_and!; [done|apply not_elem_of_nil..].
  - split; [by do 4 right; left|].
    intros y Hy. vm_compute in Hy.
    repeat (apply elem_of_cons in Hy as [->|Hy]; [lia|]).
    by apply not_elem_of_nil in Hy.
Defined.

(** ** Accessors *)

Lemma get_field v k d x : get v k d = Ok x → field v k d = x.
Proof. unfold field. by intros ->. Qed.

Lemma py_iter_elements v l : py_iter v = Ok l → elements_of v = l.
Proof. unfold elements_of. by intros ->. Qed.

Lemma item_get v k d x : item v k = Ok x → get v k d = Ok x.
Proof.
  destruct v; simpl; try done.
  destruct (assoc k kvs); [|done]. by intros [= ->].
Qed.

Lemma get_hash_tag_key p t k :
  get p "tag" PNone = Ok t → hash_key t = Ok k → tag_key p = Some k.
Proof. unfold tag_key. intros ->%get_field. by intros ->. Qed.

Lemma lookup_player_Ok st k r : lookup_player st k = Ok r ↔ st !! k = Some r.
Proof.
  unfold lookup_player. destruct (st !! k); split; try done; by intros [= ->].
Qed.

(** ** The current-war overlay *)

Lemma same_but_current_war_refl r : same_but_current_war r r.
Proof. by repeat split. Qed.

Lemma same_but_current_war_trans r1 r2 r3 :
  same_but_current_war r1 r2 → same_but_current_war r2 r3 →
  same_but_current_war r1 r3.
Proof.
  unfold same_but_current_war. intros (?&?&?&?) (?&?&?&?).
  split_and!; congruence.
Qed.

Lemma overlay_participant_lookup st p st' k :
  overlay_participant st p = Ok st' →
  option_Forall2
    (λ r r', same_but_current_war r r' ∧ (tag_key p ≠ Some k → r' = r))
    (st !! k) (st' !! k).
Proof.
  unfold overlay_participant. intros H.
  inv_bind H as t Ht. inv_bind H as k0 Hk0.
  pose proof (get_hash_tag_key _ _ _ Ht Hk0) as Hp.
  destruct (st !! k0) as [r0|] eqn:Hr0; last first.
  { injection H as <-. destruct (st !! k); constructor.
    split; [apply same_but_current_war_refl|done]. }
  inv_bind H as d Hd. inv_bind H as t1 Ht1. inv_bind H as k1 Hk1.
  inv_bind H as r1 Hr1. apply lookup_player_Ok in Hr1.
  inv_bind H as f Hf. inv_bind H as t2 Ht2. inv_bind H as k2 Hk2.
  inv_bind H as r2 Hr2. apply lookup_player_Ok in Hr2.
  injection H as <-.
  apply (item_get _ _ PNone) in Ht1, Ht2.
  assert (t1 = t) as -> by congruence. assert (t2 = t) as -> by congruence.
  assert (k1 = k0) as -> by congruence. assert (k2 = k0) as -> by congruence.
  rewrite lookup_insert_eq in Hr2. injection Hr2 as <-.
  destruct (decide (k = k0)) as [->|Hk].
  - rewrite Hr1, lookup_insert_eq. constructor. split; [by repeat split|].
    rewrite Hp. congruence.
  - rewrite !lookup_insert_ne by done. destruct (st !! k); constructor.
    split; [apply same_but_current_war_refl|done].
Qed.

Lemma overlay_loop_lookup ps st st' k :
  foldM overlay_participant st ps = Ok st' →
  option_Forall2
    (λ r r', same_but_current_war r r' ∧ (Some k ∉ tag_key <$> ps → r' = r))
    (st !! k) (st' !! k).
Proof.
  revert st. induction ps as [|p ps IH]; intros st H; simpl in H.
  - injection H as <-. destruct (st !! k); constructor.
    split; [apply same_but_current_war_refl|done].
  - inv_bind H as st1 E. apply (overlay_participant_lookup _ _ _ k) in E.
    apply IH in H.
    destruct E as [r r1 [Hs1 Hf1]|]; inversion H as [? r2 [Hs2 Hf2]|]; constructor.
    split; [by eapply same_but_current_war_trans|].
    rewrite fmap_cons, not_elem_of_cons. intros [Hp Hps].
    rewrite Hf2, Hf1; [done|congruence|done].
Qed.

(** ** Seeding the registry from the roster *)

Lemma current_member_tags_of_spec ms tags :
  current_member_tags_of ms = Ok tags → tags = list_to_set (omap tag_key ms).
Proof.
  unfold current_member_tags_of.
  assert (∀ acc, foldM (λ tags member,
             let! t := item member "tag" in
             let! k := hash_key t in
             Ok (tags ∪ {[k]})) acc ms = Ok tags →
           tags = acc ∪ list_to_set (omap tag_key ms)) as Hgen.
  { induction ms as [|m ms IH]; intros acc H; simpl in H.
    - injection H as <-. set_solver.
    - inv_bind H as acc1 E. inv_bind E as t Ht. inv_bind E as k Hk.
      injection E as <-. apply (item_get _ _ PNone) in Ht.
      rewrite (IH _ H). simpl.
      rewrite (get_hash_tag_key _ _ _ Ht Hk). set_solver. }
  intros H%Hgen. set_solver.
Qed.

Lemma seed_loop_spec ms st st' :
  foldM seed_member st ms = Ok st' →
  dom st' = dom st ∪ list_to_set (omap tag_key ms) ∧
  ∀ k r, st' !! k = Some r → st !! k = Some r ∨ fresh_record r.
Proof.
  revert st. induction ms as [|m ms IH]; intros st H; simpl in H.
  - injection H as <-. split; [set_solver|auto].
  - inv_bind H as st1 E. unfold seed_member in E.
    inv_bind E as t Ht. inv_bind E as n Hn. inv_bind E as k Hk.
    injection E as <-. apply (item_get _ _ PNone) in Ht.
    destruct (IH _ H) as [Hdom Hrec]. split.
    + rewrite Hdom, dom_insert_L. simpl.
      rewrite (get_hash_tag_key _ _ _ Ht Hk). set_solver.
    + intros k' r Hr. destruct (Hrec _ _ Hr) as [Hr'|?]; [|by right].
      destruct (decide (k = k')) as [->|Hne].
      * rewrite lookup_insert_eq in Hr'. injection Hr' as <-. right. by exists n.
      * rewrite lookup_insert_ne in Hr' by done. by left.
Qed.

Lemma seed_player_stats_spec ms st :
  seed_player_stats ms = Ok st →
  dom st = list_to_set (omap tag_key ms) ∧
  ∀ k r, st !! k = Some r → fresh_record r.
Proof.
  intros [Hdom Hrec]%seed_loop_spec. split.
  - rewrite Hdom, dom_empty_L. set_solver.
  - intros k r Hr. by destruct (Hrec _ _ Hr) as [?%lookup_empty_Some|?].
Qed.

(** ** Collecting the participants of the war log *)

Lemma add_participant_tags_spec ps acc acc' :
  foldM add_participant_tag acc ps = Ok acc' →
  acc' = acc ∪ list_to_set (omap tag_key ps).
Proof.
  revert acc. induction ps as [|p ps IH]; intros acc H; simpl in H.
  - injection H as <-. set_solver.
  - inv_bind H as acc1 E. unfold add_participant_tag in E.
    inv_bind E as t Ht. inv_bind E as k Hk. injection E as <-.
    rewrite (IH _ H). simpl. rewrite (get_hash_tag_key _ _ _ Ht Hk). set_solver.
Qed.

Lemma add_standing_tags_spec clan_tag acc s acc' :
  add_standing_tags clan_tag acc s = Ok acc' →
  acc' = acc ∪ list_to_set (omap tag_key
           (if py_eq_str (standing_clan_tag s) clan_tag
            then standing_participants s else [])).
Proof.
  unfold add_standing_tags, standing_clan_tag, standing_participants. intros H.
  inv_bind H as c Hc. inv_bind H as t Ht.
  rewrite (get_field _ _ _ _ Hc), (get_field _ _ _ _ Ht).
  destruct (py_eq_str t clan_tag).
  - inv_bind H as c' Hc'. inv_bind H as participants Hps. inv_bind H as ps Hiter.
    assert (c' = c) as -> by congruence.
    rewrite (get_field _ _ _ _ Hps), (py_iter_elements _ _ Hiter).
    by apply add_participant_tags_spec.
  - injection H as <-. set_solver.
Qed.

Lemma add_standings_tags_spec clan_tag ss acc acc' :
  foldM (add_standing_tags clan_tag) acc ss = Ok acc' →
  acc' = acc ∪ list_to_set (omap tag_key
           (mbind (M := list) standing_participants
              (filter (λ s, py_eq_str (standing_clan_tag s) clan_tag = true) ss))).
Proof.
  revert acc. induction ss as [|s ss IH]; intros acc H; simpl in H.
  - injection H as <-. set_solver.
  - inv_bind H as acc1 E. apply add_standing_tags_spec in E.
    rewrite (IH _ H), E, filter_cons.
    destruct (py_eq_str (standing_clan_tag s) clan_tag) eqn:Heq.
    + rewrite decide_True by done. rewrite bind_cons, omap_app, list_to_set_app_L.
      set_solver.
    + rewrite decide_False by done. set_solver.
Qed.

Lemma add_war_tags_spec clan_tag acc war acc' :
  add_war_tags clan_tag acc war = Ok acc' →
  acc' = acc ∪ list_to_set (omap tag_key (clan_participants clan_tag war)).
Proof.
  unfold add_war_tags, clan_participants, clan_standings. intros H.
  inv_bind H as standings Hs. inv_bind H as ss Hss.
  rewrite (get_field _ _ _ _ Hs), (py_iter_elements _ _ Hss).
  by apply add_standings_tags_spec.
Qed.

Lemma add_wars_tags_spec clan_tag wars acc acc' :
  foldM (add_war_tags clan_tag) acc wars = Ok acc' →
  acc' = acc ∪ list_to_set (omap tag_key
           (mbind (M := list) (clan_participants clan_tag) wars)).
Proof.
  revert acc. induction wars as [|war wars IH]; intros acc H; simpl in H.
  - injection H as <-. set_solver.
  - inv_bind H as acc1 E. apply add_war_tags_spec in E.
    rewrite (IH _ H), E, bind_cons, omap_app, list_to_set_app_L. set_solver.
Qed.

(** ** Former members *)

Lemma add_former_members_lookup allp st k :
  add_former_members allp st !! k =
  match st !! k with
  | Some r => Some r
  | None => if decide (k ∈ allp) then Some former_member else None
  end.
Proof.
  unfold add_former_members. revert allp k.
  apply (set_fold_ind_L
    (λ acc X, ∀ k, acc !! k =
       match st !! k with
       | Some r => Some r
       | None => if decide (k ∈ X) then Some former_member else None
       end) add_former_member st).
  - intros k. destruct (st !! k); [done|].
    by rewrite decide_False by set_solver.
  - intros x X acc Hx IH k. unfold add_former_member.
    destruct (acc !! x) eqn:Hacc.
    + rewrite IH. destruct (st !! k) eqn:Hk; [done|].
      destruct (decide (k ∈ X)).
      * by rewrite decide_True by set_solver.
      * destruct (decide (k = x)) as [->|Hne].
        -- rewrite IH, Hk, decide_False in Hacc by done. done.
        -- by rewrite decide_False by set_solver.
    + destruct (decide (k = x)) as [->|Hne].
      * rewrite lookup_insert_eq. rewrite IH in Hacc.
        destruct (st !! x); [done|]. by rewrite decide_True by set_solver.
      * rewrite lookup_insert_ne by done. rewrite IH.
        destruct (st !! k); [done|].
        destruct (decide (k ∈ X)).
        -- by rewrite decide_True by set_solver.
        -- by rewrite decide_False by set_solver.
Qed.

Lemma add_former_members_dom allp st :
  dom (add_former_members allp st) = dom st ∪ allp.
Proof.
  apply set_eq. intros k.
  rewrite elem_of_union, !elem_of_dom, add_former_members_lookup.
  destruct (st !! k) eqn:Hk.
  - split; [by left|done].
  - destruct (decide (k ∈ allp)).
    + split; [by right|done].
    + split; [by intros []|]. by intros [[]|?].
Qed.

(** ** One participant of a logged war *)

Section record.
Context (container_repr : pyval → string).

Lemma py_int_int_of v z : py_int v = Ok z → int_of v = z.
Proof. unfold int_of. by intros ->. Qed.

Lemma record_participant_Ok w st p st' :
  record_participant container_repr w st p = Ok st' →
  ∃ k, tag_key p = Some k ∧
       st' = match st !! k with
             | Some r => <[k := recorded container_repr w p r]> st
             | None => st
             end.
Proof.
  unfold record_participant. intros H.
  inv_bind H as t Ht. inv_bind H as f Hf. inv_bind H as d Hd. inv_bind H as k Hk.
  exists k. split; [by eapply get_hash_tag_key|].
  destruct (st !! k) as [r|]; [|by injection H as <-].
  inv_bind H as r1 Hr1. inv_bind H as zf Hzf. inv_bind H as zd Hzd.
  injection H as <-. unfold recorded.
  rewrite (get_field _ _ _ _ Hf), (get_field _ _ _ _ Hd).
  rewrite (py_int_int_of _ _ Hzf), (py_int_int_of _ _ Hzd).
  destruct (py_eq_str (name r) placeholder_name).
  - inv_bind Hr1 as n Hn. injection Hr1 as <-. by rewrite (get_field _ _ _ _ Hn).
  - by injection Hr1 as <-.
Qed.

Lemma war_step_refl w r : war_step w r r.
Proof. by repeat split. Qed.

Lemma war_step_trans w r1 r2 r3 :
  war_step w r1 r2 → war_step w r2 r3 → war_step w r1 r3.
Proof.
  intros (?&?&Hh1&?&Hn1) (?&?&Hh2&?&Hn2). split_and!; try congruence; [| auto |].
  - intros w' Hw'. by rewrite Hh2, Hh1.
  - intros Hn. rewrite Hn2, Hn1; [done..|]. by rewrite Hn1.
Qed.

Lemma war_step_recorded w p r : war_step w r (recorded container_repr w p r).
Proof.
  unfold recorded. split_and!.
  - by destruct (py_eq_str _ _).
  - by destruct (py_eq_str _ _).
  - intros w' Hw'. simpl. rewrite lookup_insert_ne by done.
    by destruct (py_eq_str _ _).
  - intros _. simpl. rewrite lookup_insert_eq. eauto.
  - by intros ->.
Qed.

Lemma war_step_default w r : war_step w r (set_war_history w zero_entry r).
Proof.
  split_and!; try done.
  - intros w' Hw'. simpl. by rewrite lookup_insert_ne.
  - intros _. simpl. rewrite lookup_insert_eq. eauto.
Qed.

(** The loop over the participants of one war, seen from one tag. *)
Lemma record_loop_other w ps st st' k :
  foldM (record_participant container_repr w) st ps = Ok st' →
  k ∉ omap tag_key ps → st' !! k = st !! k.
Proof.
  revert st. induction ps as [|p ps IH]; intros st H Hk; simpl in H.
  - by injection H as <-.
  - inv_bind H as st1 E. apply record_participant_Ok in E as (k0 & Hk0 & ->).
    simpl in Hk. rewrite Hk0 in Hk. apply not_elem_of_cons in Hk as [Hne Hk].
    rewrite (IH _ H Hk). destruct (st !! k0); [|done].
    by rewrite lookup_insert_ne.
Qed.

Lemma record_loop_once w ps st st' k r :
  foldM (record_participant container_repr w) st ps = Ok st' →
  NoDup (omap tag_key ps) → k ∈ omap tag_key ps → st !! k = Some r →
  ∃ p, p ∈ ps ∧ tag_key p = Some k ∧ st' !! k = Some (recorded container_repr w p r).
Proof.
  revert st. induction ps as [|p ps IH]; intros st H Hnd Hk Hr; simpl in *.
  - by apply not_elem_of_nil in Hk.
  - inv_bind H as st1 E. apply record_participant_Ok in E as (k0 & Hk0 & ->).
    rewrite Hk0 in Hnd, Hk. apply NoDup_cons in Hnd as [Hk0' Hnd].
    destruct (decide (k = k0)) as [->|Hne].
    + exists p. split_and!; [left|done|].
      rewrite (record_loop_other _ _ _ _ _ H Hk0'), Hr. apply lookup_insert_eq.
    + apply elem_of_cons in Hk as [?|Hk]; [done|].
      destruct (IH _ H Hnd Hk) as (p' & Hp' & Htag & Hst').
      { destruct (st !! k0); [|done]. by rewrite lookup_insert_ne. }
      exists p'. split_and!; [by right|done..].
Qed.

Lemma record_loop_step w ps st st' k :
  foldM (record_participant container_repr w) st ps = Ok st' →
  option_Forall2 (war_step w) (st !! k) (st' !! k).
Proof.
  revert st. induction ps as [|p ps IH]; intros st H; simpl in H.
  - injection H as <-. destruct (st !! k); constructor. apply war_step_refl.
  - inv_bind H as st1 E. apply record_participant_Ok in E as (k0 & Hk0 & ->).
    apply IH in H. destruct (st !! k0) as [r0|] eqn:Hr0; [|done].
    destruct (decide (k = k0)) as [->|Hne].
    + rewrite lookup_insert_eq in H. rewrite Hr0.
      inversion H as [? r' Hstep|]. constructor.
      eapply war_step_trans; [apply war_step_recorded|done].
    + by rewrite lookup_insert_ne in H.
Qed.

(** ** One logged war *)

Lemma process_war_Ok clan_tag s b w war s' b' :
  process_war container_repr clan_tag (s, b) (w, war) = Ok (s', b') →
  (∃ benchmark, b' = <[w := benchmark]> b) ∧
  foldM (record_participant container_repr w)
        (set_war_history w zero_entry <$> s) (war_participants clan_tag war) = Ok s'.
Proof.
  unfold process_war, war_participants. intros H.
  inv_bind H as standings Hs. inv_bind H as ss Hss. inv_bind H as wp Hwp.
  inv_bind H as benchmark Hb. inv_bind H as ps Hps. inv_bind H as s1 Hs1.
  injection H as <- <-.
  rewrite (get_field _ _ _ _ Hs), (py_iter_elements _ _ Hss), Hwp.
  rewrite (py_iter_elements _ _ Hps). eauto.
Qed.

(** A war, seen from one tag of the registry. *)
Lemma process_war_lookup clan_tag s b w war s' b' k :
  process_war container_repr clan_tag (s, b) (w, war) = Ok (s', b') →
  match s !! k with
  | None => s' !! k = None
  | Some r =>
      ∃ r', s' !! k = Some r' ∧ war_step w r r' ∧
        is_Some (war_history r' !! w) ∧
        (k ∉ omap tag_key (war_participants clan_tag war) →
         r' = set_war_history w zero_entry r) ∧
        (NoDup (omap tag_key (war_participants clan_tag war)) →
         k ∈ omap tag_key (war_participants clan_tag war) →
         ∃ p, p ∈ war_participants clan_tag war ∧ tag_key p = Some k ∧
              r' = recorded container_repr w p (set_war_history w zero_entry r))
  end.
Proof.
  intros [_ H]%process_war_Ok.
  pose proof (record_loop_step _ _ _ _ k H) as Hstep.
  rewrite lookup_fmap in Hstep.
  destruct (s !! k) as [r|] eqn:Hr; simpl in Hstep.
  - inversion Hstep as [? r' Hrr' Heq1 Heq2|]. symmetry in Heq2.
    exists r'. split_and!; [done| | | |].
    + eapply war_step_trans; [apply war_step_default|done].
    + destruct Hrr' as (_&_&_&Hsome&_). apply Hsome. simpl.
      rewrite lookup_insert_eq. eauto.
    + intros Hk. apply (record_loop_other _ _ _ _ _ H) in Hk.
      rewrite lookup_fmap, Hr in Hk. simpl in Hk. congruence.
    + intros Hnd Hk.
      destruct (record_loop_once _ _ _ _ k (set_war_history w zero_entry r) H Hnd Hk)
        as (p & Hp & Htag & Hst').
      { by rewrite lookup_fmap, Hr. }
      exists p. split_and!; [done..|congruence].
  - by inversion Hstep.
Qed.

End record.

(** ** War identifiers *)

Lemma append_cons c s1 s2 : String c s1 +:+ s2 = String c (s1 +:+ s2).
Proof. done. Qed.

Lemma append_nil s : EmptyString +:+ s = s.
Proof. done. Qed.

Lemma spaceless_snoc d c : spaceless d → c ≠ " "%char → spaceless (d +:+ String c EmptyString).
Proof.
  intros Hd Hc. induction d as [|c' d IH].
  - by rewrite append_nil.
  - rewrite append_cons. destruct Hd. split; auto.
Qed.

Lemma pretty_N_go_spaceless x s :
  ∃ d, pretty_N_go x s = d +:+ s ∧ spaceless d.
Proof.
  revert s. induction (N.lt_wf_0 x) as [x _ IH]; intros s.
  destruct (decide (x = 0)%N) as [->|Hx].
  - exists EmptyString. by rewrite pretty_N_go_0.
  - rewrite pretty_N_go_step by lia.
    destruct (IH (x `div` 10)%N) with (s := String (pretty_N_char (x `mod` 10)) s)
      as (d & -> & Hd).
    { apply N.div_lt; lia. }
    exists (d +:+ String (pretty_N_char (x `mod` 10)) EmptyString). split.
    + clear. induction d as [|c d IHd]; [done|].
      by rewrite !append_cons, IHd.
    + apply spaceless_snoc; [done|]. unfold pretty_N_char. by repeat case_match.
Qed.

Lemma pretty_nat_spaceless (n : nat) : spaceless (pretty n).
Proof.
  unfold pretty, pretty_nat, pretty, pretty_N.
  destruct (decide (N.of_nat n = 0)%N); [by split|].
  destruct (pretty_N_go_spaceless (N.of_nat n) EmptyString) as (d & -> & Hd).
  clear -Hd. induction d as [|c d IHd]; [done|].
  rewrite append_cons. destruct Hd. split; auto.
Qed.

Lemma spaceless_prefix_inj d1 d2 r1 r2 :
  spaceless d1 → spaceless d2 →
  d1 +:+ String " " r1 = d2 +:+ String " " r2 → d1 = d2.
Proof.
  revert d2. induction d1 as [|c d1 IH]; intros [|c' d2];
    rewrite ?append_cons, ?append_nil.
  - done.
  - intros _ [Hc _] [= <-]. done.
  - intros [Hc _] _ [= ->]. done.
  - intros [_ H1] [_ H2] [= -> Heq]. f_equal. by eapply IH.
Qed.

Lemma war_id_of_inj i j war war' w :
  war_id_of i war = Ok w → war_id_of j war' = Ok w → i = j.
Proof.
  unfold war_id_of. intros H H'.
  inv_bind H as c Hc. inv_bind H as day Hday. injection H as <-.
  inv_bind H' as c' Hc'. inv_bind H' as day' Hday'. injection H' as H'.
  apply (inj (String.append _)) in H'.
  change (" (" +:+ ?x) with (String " " ("(" +:+ x)) in H'.
  apply spaceless_prefix_inj in H'; [|apply pretty_nat_spaceless..].
  apply (inj pretty) in H'. lia.
Qed.

Lemma imapM_lookup {A B} (f : nat → A → res B) i l ys :
  imapM f i l = Ok ys →
  length ys = length l ∧
  ∀ j y, ys !! j = Some y → ∃ x, l !! j = Some x ∧ f (i + j)%nat x = Ok y.
Proof.
  revert i ys. induction l as [|x l IH]; intros i ys H; simpl in H.
  - by injection H as <-.
  - inv_bind H as y Hy. inv_bind H as ys' Hys'. injection H as <-.
    destruct (IH _ _ Hys') as [Hlen Hlook]. split; [simpl; lia|].
    intros [|j] y' Hj; simpl in Hj.
    + injection Hj as <-. exists x. by rewrite Nat.add_0_r.
    + destruct (Hlook _ _ Hj) as (x' & Hx' & Hf). exists x'. split; [done|].
      by replace (i + S j)%nat with (S i + j)%nat by lia.
Qed.

Lemma war_ids_of_spec items ids :
  war_ids_of items = Ok ids → length ids = length items ∧ NoDup ids.
Proof.
  unfold war_ids_of. intros [Hlen Hlook]%imapM_lookup. split; [done|].
  apply NoDup_alt. intros i j w Hi Hj.
  destruct (Hlook _ _ Hi) as (war & _ & Hw).
  destruct (Hlook _ _ Hj) as (war' & _ & Hw').
  simpl in Hw, Hw'. by eapply war_id_of_inj.
Qed.

(** ** The loop over the war log *)

Section war_log.
Context (container_repr : pyval → string).

Lemma recorded_history w p r :
  war_history (recorded container_repr w p r) !! w = Some (entry_of p).
Proof.
  unfold recorded. simpl. by rewrite lookup_insert_eq.
Qed.

Lemma process_war_totals clan_tag s b w war s' b' k r r1 :
  process_war container_repr clan_tag (s, b) (w, war) = Ok (s', b') →
  NoDup (war_tags clan_tag war) →
  s !! k = Some r → s' !! k = Some r1 →
  total_war_fame r1 = total_war_fame r + history_fame r1 w ∧
  total_decks_used r1 = total_decks_used r + history_decks r1 w.
Proof.
  intros H Hnd Hr Hr1.
  pose proof (process_war_lookup _ _ _ _ _ _ _ _ k H) as Hk. rewrite Hr in Hk.
  destruct Hk as (r1' & Hr1' & _ & _ & Hnot & Hin).
  assert (r1' = r1) as -> by congruence.
  unfold history_fame, history_decks.
  destruct (decide (k ∈ war_tags clan_tag war)) as [Hk|Hk].
  - destruct (Hin Hnd Hk) as (p & _ & _ & ->).
    rewrite recorded_history. unfold recorded. simpl.
    by destruct (py_eq_str _ _).
  - rewrite (Hnot Hk). simpl. rewrite lookup_insert_eq. simpl.
    unfold int_of. simpl. lia.
Qed.

Lemma war_loop_lookup clan_tag es s b s' b' k :
  foldM (process_war container_repr clan_tag) (s, b) es = Ok (s', b') →
  NoDup es.*1 →
  match s !! k with
  | None => s' !! k = None
  | Some r => ∃ r', s' !! k = Some r' ∧ log_rel clan_tag es k r r'
  end.
Proof.
  revert s b. induction es as [|[w war] es IH]; intros s b H Hnd.
  - injection H as <- <-. destruct (s !! k) as [r|]; [|done].
    exists r. split; [done|]. unfold log_rel. split_and!; try done.
    + by intros ?? ?%not_elem_of_nil.
    + intros _. simpl. lia.
  - simpl in H. inv_bind H as st1 E. destruct st1 as [s1 b1].
    rewrite fmap_cons in Hnd. apply NoDup_cons in Hnd as [Hw Hnd]. simpl in Hw.
    pose proof (process_war_lookup _ _ _ _ _ _ _ _ k E) as H1.
    specialize (IH _ _ H Hnd).
    destruct (s !! k) as [r|] eqn:Hr; [|by rewrite H1 in IH].
    destruct H1 as (r1 & Hr1 & Hstep & Hsome & Hnot & Hin). rewrite Hr1 in IH.
    destruct IH as (r' & Hr' & Hc1 & Hc2 & Hname & Hframe & Hwars & Htot).
    destruct Hstep as (Hs1 & Hs2 & Hs3 & _ & Hs5).
    exists r'. split; [done|]. unfold log_rel. split_and!.
    + congruence.
    + congruence.
    + intros Hn. rewrite Hname; [by apply Hs5|]. by rewrite Hs5.
    + intros w0 Hw0. rewrite fmap_cons in Hw0.
      apply not_elem_of_cons in Hw0 as [Hne Hw0]. simpl in Hne.
      by rewrite Hframe, Hs3.
    + intros w0 war0 [[= -> ->]|Hin0]%elem_of_cons; [|by apply Hwars].
      rewrite (Hframe w Hw). split_and!; [done| |].
      * intros Hk. rewrite (Hnot Hk). simpl. apply lookup_insert_eq.
      * intros Hnd0 Hk. destruct (Hin Hnd0 Hk) as (p & Hp & Htag & ->).
        exists p. split_and!; [done..|]. apply recorded_history.
    + intros [Hnd0 Hall]%Forall_cons. simpl in Hnd0.
      destruct (Htot Hall) as [Hf Hd].
      destruct (process_war_totals _ _ _ _ _ _ _ _ _ _ E Hnd0 Hr Hr1) as [Hf1 Hd1].
      rewrite fmap_cons. simpl.
      replace (history_fame r' w) with (history_fame r1 w)
        by (unfold history_fame; by rewrite (Hframe w Hw)).
      replace (history_decks r' w) with (history_decks r1 w)
        by (unfold history_decks; by rewrite (Hframe w Hw)).
      lia.
Qed.

End war_log.

(** ** The whole aggregation *)

Section report.
Context (container_repr : pyval → string).

Lemma overlay_current_war_Ok cw st st' :
  overlay_current_war cw st = Ok st' →
  foldM overlay_participant st (current_war_participants cw) = Ok st'.
Proof.
  unfold overlay_current_war, current_war_participants. intros H.
  inv_bind H as clan Hc. inv_bind H as participants Hp. inv_bind H as ps Hps.
  by rewrite (get_field _ _ _ _ Hc), (get_field _ _ _ _ Hp), (py_iter_elements _ _ Hps).
Qed.

(** The stages a run that returns a report went through. *)
Lemma generate_html_for_clan_Ok clan_tag cd cw wl st tags ids bm :
  generate_html_for_clan container_repr clan_tag cd cw wl = Ok (ClanReport st tags ids bm) →
  ∃ st0 st1 allp,
    current_member_tags_of (roster cd) = Ok tags ∧
    seed_player_stats (roster cd) = Ok st0 ∧
    foldM overlay_participant st0 (current_war_participants cw) = Ok st1 ∧
    war_ids_of (war_log_items wl) = Ok ids ∧
    collect_all_participants clan_tag st1 (war_log_items wl) = Ok allp ∧
    foldM (process_war container_repr clan_tag)
          (add_former_members allp st1, ∅) (zip ids (war_log_items wl)) = Ok (st, bm).
Proof.
  unfold generate_html_for_clan, roster, war_log_items. intros H.
  destruct (negb _); [done|].
  inv_bind H as members Hm. inv_bind H as ms Hms. inv_bind H as tags' Htags.
  inv_bind H as members' Hm'. inv_bind H as ms' Hms'. inv_bind H as st0 Hst0.
  inv_bind H as st1 Hst1. inv_bind H as items Hitems. inv_bind H as wars Hwars.
  inv_bind H as ids' Hids. inv_bind H as allp Hallp. inv_bind H as final Hfinal.
  injection H as <- <- <- <-.
  assert (members' = members) as -> by congruence.
  assert (ms' = ms) as -> by congruence.
  rewrite (get_field _ _ _ _ Hm), (py_iter_elements _ _ Hms).
  rewrite (get_field _ _ _ _ Hitems), (py_iter_elements _ _ Hwars).
  exists st0, st1, allp. apply overlay_current_war_Ok in Hst1.
  split_and!; try done. by destruct final.
Qed.

Lemma overlay_loop_dom ps st st' :
  foldM overlay_participant st ps = Ok st' → dom st' = dom st.
Proof.
  intros H. apply set_eq. intros k. rewrite !elem_of_dom.
  pose proof (overlay_loop_lookup _ _ _ k H) as Hk.
  destruct Hk; split; intros [? ?]; eauto; done.
Qed.

Lemma war_loop_dom clan_tag es s b s' b' :
  foldM (process_war container_repr clan_tag) (s, b) es = Ok (s', b') →
  NoDup es.*1 → dom s' = dom s.
Proof.
  intros H Hnd. apply set_eq. intros k. rewrite !elem_of_dom.
  pose proof (war_loop_lookup _ _ _ _ _ _ _ k H Hnd) as Hk.
  destruct (s !! k).
  - destruct Hk as (r' & -> & _). split; eauto.
  - rewrite Hk. split; intros [? ?]; done.
Qed.

Lemma zip_war_ids (ids : list string) (items : list pyval) :
  length ids = length items → (zip ids items).*1 = ids.
Proof. intros Hlen. apply fst_zip. lia. Qed.

(** The records the loop over the war log starts from. *)
Lemma initial_records cd cw st0 st1 allp k r :
  seed_player_stats (roster cd) = Ok st0 →
  foldM overlay_participant st0 (current_war_participants cw) = Ok st1 →
  add_former_members allp st1 !! k = Some r →
  war_history r = ∅ ∧ total_war_fame r = 0 ∧ total_decks_used r = 0 ∧
  (k ∉ roster_tags cd → r = former_member).
Proof.
  intros [Hdom Hfresh]%seed_player_stats_spec Hov Hr.
  rewrite add_former_members_lookup in Hr.
  pose proof (overlay_loop_lookup _ _ _ k Hov) as Hk.
  destruct (st0 !! k) as [r0|] eqn:Hr0, (st1 !! k) as [r1|] eqn:Hr1;
    inversion Hk as [? ? [(_ & Hf & Hd & Hh) _]|]; subst.
  - injection Hr as <-.
    destruct (Hfresh _ _ Hr0) as [n ->]. rewrite Hh, Hf, Hd. split_and!; try done.
    intros []. unfold roster_tags. rewrite <- Hdom. apply elem_of_dom. eauto.
  - destruct (decide (k ∈ allp)); [|done].
    injection Hr as <-. split_and!; done.
Qed.

End report.

Lemma sample_run_Ok :
  sample_run =
  Ok (ClanReport (report_player_stats sample_run) (report_member_tags sample_run)
                 (report_war_ids sample_run) (report_benchmarks sample_run)).
Proof. vm_compute. reflexivity. Qed.

(** ** The claims about the registry *)

Section claims.
Context (container_repr : pyval → string).

(** C1: the tags of the registry are the tags of the current roster together
    with the tags of every participant of every war-log standing of the clan
    under report; none is lost and none is added. *)
Theorem registry_tags_union clan_tag cd cw wl st tags ids bm :
  generate_html_for_clan container_repr clan_tag cd cw wl
    = Ok (ClanReport st tags ids bm) →
  dom st = roster_tags cd ∪ war_log_tags clan_tag wl.
Proof.
  intros (st0 & st1 & allp & _ & Hseed & Hov & Hids & Hall & Hloop)%generate_html_for_clan_Ok.
  apply war_ids_of_spec in Hids as [Hlen Hnd].
  apply war_loop_dom in Hloop; [|by rewrite zip_war_ids].
  apply overlay_loop_dom in Hov. apply seed_player_stats_spec in Hseed as [Hdom _].
  apply add_wars_tags_spec in Hall.
  rewrite Hloop, add_former_members_dom, Hall, Hov, Hdom.
  unfold roster_tags, war_log_tags. set_solver.
Qed.

Lemma zip_lookup_elem (ids : list string) (items : list pyval) i w x :
  ids !! i = Some w → items !! i = Some x → (w, x) ∈ zip ids items.
Proof.
  intros Hw Hx. apply list_elem_of_lookup. exists i.
  by rewrite lookup_zip_with, Hw, Hx.
Qed.

Lemma elem_of_zip_fst (ids : list string) (items : list pyval) w :
  length ids = length items → w ∈ ids → ∃ x, (w, x) ∈ zip ids items.
Proof.
  intros Hlen [i Hi]%list_elem_of_lookup.
  destruct (lookup_lt_is_Some_2 items i) as [x Hx].
  { rewrite <- Hlen. by eapply lookup_lt_Some. }
  exists x. by eapply zip_lookup_elem.
Qed.





(** C10: the current-war overlay keeps the tags of the registry and, in every
    record, the name, the cumulative totals and the war history; a record
    whose tag is not among the current-war participants is left as it was. *)
Theorem overlay_changes_current_war_only cw st st' :
  overlay_current_war cw st = Ok st' →
  ∀ k,
    match st !! k with
    | None => st' !! k = None
    | Some r =>
        ∃ r', st' !! k = Some r' ∧
          name r' = name r ∧
          total_war_fame r' = total_war_fame r ∧
          total_decks_used r' = total_decks_used r ∧
          war_history r' = war_history r ∧
          (k ∉ omap tag_key (current_war_participants cw) → r' = r)
    end.
Proof.
  intros H%overlay_current_war_Ok k.
  pose proof (overlay_loop_lookup _ _ _ k H) as Hk.
  destruct (st !! k) as [r|], (st' !! k) as [r'|];
    inversion Hk as [? ? [(Hn & Hf & Hd & Hh) Hsame]|]; subst; [|done].
  exists r'. split_and!; try done.
  intros Hnot. apply Hsame. intros (p & Hp & Hin)%list_elem_of_fmap.
  apply Hnot. apply list_elem_of_omap. eauto.
Qed.

End claims.

Lemma registry_tags_union_witness :
  dom (report_player_stats sample_run) =
  roster_tags sample_clan ∪ war_log_tags "#2V2VRRLJ" sample_war_log.
Proof.
  apply (registry_tags_union repr_elided "#2V2VRRLJ" sample_clan sample_current_war
           sample_war_log (report_player_stats sample_run)
           (report_member_tags sample_run) (report_war_ids sample_run)
           (report_benchmarks sample_run)).
  vm_compute. reflexivity.
Defined.

(** ** Former-member names *)

Lemma length_append s1 s2 :
  String.length (s1 +:+ s2) = (String.length s1 + String.length s2)%nat.
Proof.
  induction s1 as [|c s1 IH]; [done|]. rewrite append_cons. simpl. by rewrite IH.
Qed.

Lemma append_suffix_inj s1 s2 t : s1 +:+ t = s2 +:+ t → s1 = s2.
Proof.
  revert s2. induction s1 as [|c s1 IH]; intros [|c' s2];
    rewrite ?append_cons, ?append_nil; intros H.
  - done.
  - apply (f_equal String.length) in H. simpl in H.
    rewrite length_append in H. lia.
  - apply (f_equal String.length) in H. simpl in H.
    rewrite length_append in H. lia.
  - injection H as -> H. f_equal. by apply IH.
Qed.

Section names.
Context (container_repr : pyval → string).

Lemma starred_name_not_placeholder p :
  py_str container_repr (field p "name" PNone) ≠ "Former Member" →
  py_eq_str (PStr (starred_name container_repr p)) placeholder_name = false.
Proof.
  intros Hne. simpl. apply String.eqb_neq. intros Heq. apply Hne.
  by apply (append_suffix_inj _ _ " (*)").
Qed.

Lemma record_loop_first_match w l1 p l2 st st' k r :
  foldM (record_participant container_repr w) st (l1 ++ p :: l2) = Ok st' →
  k ∉ omap tag_key l1 → tag_key p = Some k → st !! k = Some r →
  name r = PStr placeholder_name →
  py_str container_repr (field p "name" PNone) ≠ "Former Member" →
  ∃ r', st' !! k = Some r' ∧ name r' = PStr (starred_name container_repr p).
Proof.
  intros H Hl1 Hp Hr Hname Hne. rewrite foldM_app in H.
  inv_bind H as st1 H1. simpl in H. inv_bind H as st2 H2.
  apply (record_loop_other _ _ _ _ _ _ H1) in Hl1. rewrite Hr in Hl1.
  apply record_participant_Ok in H2 as (k0 & Hk0 & ->).
  assert (k0 = k) as -> by congruence. rewrite Hl1 in H.
  pose proof (record_loop_step _ _ _ _ _ k H) as Hstep.
  rewrite lookup_insert_eq in Hstep.
  inversion Hstep as [? r' (_ & _ & _ & _ & Hmono) Heq1 Heq2|].
  exists r'. split; [done|].
  assert (name (recorded container_repr w p r) = PStr (starred_name container_repr p)) as Hrec.
  { unfold recorded. rewrite Hname. simpl. done. }
  rewrite Hmono, Hrec; [done|]. rewrite Hrec. by apply starred_name_not_placeholder.
Qed.

Lemma war_loop_name clan_tag es s b s' b' k r :
  foldM (process_war container_repr clan_tag) (s, b) es = Ok (s', b') →
  s !! k = Some r → py_eq_str (name r) placeholder_name = false →
  ∃ r', s' !! k = Some r' ∧ name r' = name r.
Proof.
  revert s b r. induction es as [|[w x] es IH]; intros s b r H Hr Hname.
  - injection H as <- <-. eauto.
  - simpl in H. inv_bind H as st1 E. destruct st1 as [s1 b1].
    pose proof (process_war_lookup _ _ _ _ _ _ _ _ k E) as Hk. rewrite Hr in Hk.
    destruct Hk as (r1 & Hr1 & (_ & _ & _ & _ & Hmono) & _).
    destruct (IH _ _ _ H Hr1) as (r' & Hr' & Hn'); [by rewrite Hmono|].
    exists r'. split; [done|]. by rewrite Hn', Hmono.
Qed.

End names.

(** ** The short-circuit on a failed request *)

Section short_circuit.
Context (container_repr : pyval → string).

(** C5: the error fragment is returned exactly when one of the three
    payloads is falsy, which the failure sentinel [None] is; nothing is
    aggregated then, whatever the other payloads hold. *)
Theorem error_fragment_iff_falsy clan_tag cd cw wl :
  (generate_html_for_clan container_repr clan_tag cd cw wl = Ok ApiErrorFragment ↔
   truthy cd = false ∨ truthy cw = false ∨ truthy wl = false) ∧
  (cd = PNone ∨ cw = PNone ∨ wl = PNone →
   generate_html_for_clan container_repr clan_tag cd cw wl = Ok ApiErrorFragment).
Proof.
  assert (truthy cd = false ∨ truthy cw = false ∨ truthy wl = false →
          generate_html_for_clan container_repr clan_tag cd cw wl = Ok ApiErrorFragment)
    as Hfalsy.
  { unfold generate_html_for_clan.
    intros [-> | [-> | ->]]; by rewrite ?andb_false_r. }
  split; [split; [|done]|].
  - unfold generate_html_for_clan.
    destruct (truthy cd), (truthy cw), (truthy wl); simpl; auto.
    intros H. exfalso.
    repeat (apply bind_Ok in H as (? & _ & H)). done.
  - intros [-> | [-> | ->]]; apply Hfalsy; auto.
Qed.

End short_circuit.

(** ** Payloads with absent fields return *)

Lemma optional_get k check v d :
  optional k check v = true → check d = true →
  ∃ x, get v k d = Ok x ∧ check x = true.
Proof.
  destruct v; try done. simpl. destruct (assoc k kvs); simpl; eauto.
Qed.

Lemma required_item k check v :
  required k check v = true → ∃ x, item v k = Ok x ∧ check x = true.
Proof.
  destruct v; try done. simpl. destruct (assoc k kvs); [eauto|done].
Qed.

Lemma list_of_iter check v :
  list_of check v = true → ∃ l, py_iter v = Ok l ∧ all_ok check l.
Proof.
  destruct v; try done. simpl. intros H. exists l. split; [done|].
  apply Forall_forall. intros x Hx%list_elem_of_In.
  rewrite forallb_forall in H. auto.
Qed.

Lemma is_str_hash v : is_str v = true → ∃ s, v = PStr s ∧ hash_key v = Ok (KStr s).
Proof. destruct v; try done. eauto. Qed.

Lemma is_int_py_int v : is_int v = true → ∃ z, v = PInt z ∧ py_int v = Ok z.
Proof. destruct v; try done. eauto. Qed.

(** The tag of a participant: absent, or a string. *)
Lemma participant_tag p :
  participant_ok p = true →
  (get p "tag" PNone = Ok PNone ∧ item p "tag" = Raise KeyError) ∨
  (∃ s, get p "tag" PNone = Ok (PStr s) ∧ item p "tag" = Ok (PStr s)).
Proof.
  unfold participant_ok. intros [[Ht _]%andb_prop _]%andb_prop.
  destruct p; try done. simpl in *.
  destruct (assoc "tag" kvs) as [t|]; [|by left].
  destruct t; try done. right. eauto.
Qed.

Lemma participant_numbers p :
  participant_ok p = true →
  ∃ f d, get p "fame" (PInt 0) = Ok (PInt f) ∧ get p "decksUsed" (PInt 0) = Ok (PInt d).
Proof.
  unfold participant_ok. intros [[_ Hf]%andb_prop Hd]%andb_prop.
  destruct (optional_get _ _ _ (PInt 0) Hf) as (f & Hgf & [zf [-> _]]%is_int_py_int); [done|].
  destruct (optional_get _ _ _ (PInt 0) Hd) as (d & Hgd & [zd [-> _]]%is_int_py_int); [done|].
  eauto.
Qed.

Lemma participant_get p k d : participant_ok p = true → ∃ x, get p k d = Ok x.
Proof.
  unfold participant_ok. intros [[Ht _]%andb_prop _]%andb_prop.
  destruct p; try done. simpl. eauto.
Qed.

Lemma current_member_tags_of_total ms :
  all_ok member_ok ms → ∃ tags, current_member_tags_of ms = Ok tags.
Proof.
  unfold current_member_tags_of. generalize (∅ : gset key).
  induction ms as [|m ms IH]; intros acc Hms; simpl; [eauto|].
  apply Forall_cons in Hms as [[Ht _]%andb_prop Hms].
  destruct (required_item _ _ _ Ht) as (t & -> & (s & -> & Hk)%is_str_hash).
  simpl. by apply IH.
Qed.

Lemma seed_loop_total ms st :
  all_ok member_ok ms → st !! KNone = None →
  ∃ st', foldM seed_member st ms = Ok st' ∧ st' !! KNone = None.
Proof.
  revert st. induction ms as [|m ms IH]; intros st Hms Hst; simpl; [eauto|].
  apply Forall_cons in Hms as [[Ht Hn]%andb_prop Hms].
  unfold seed_member.
  destruct (required_item _ _ _ Ht) as (t & -> & (s & -> & Hk)%is_str_hash).
  destruct (required_item _ _ _ Hn) as (n & -> & _).
  simpl. apply IH; [done|]. by rewrite lookup_insert_ne.
Qed.

Lemma overlay_participant_total st p :
  participant_ok p = true → st !! KNone = None →
  ∃ st', overlay_participant st p = Ok st'.
Proof.
  intros Hp Hst. unfold overlay_participant.
  destruct (participant_get p "decksUsed" (PInt 0) Hp) as [d Hd].
  destruct (participant_get p "fame" (PInt 0) Hp) as [f Hf].
  destruct (participant_tag p Hp) as [[-> _]|(s & -> & ->)]; simpl.
  - rewrite Hst. eauto.
  - destruct (st !! KStr s) as [r|] eqn:Hr; [|eauto].
    rewrite Hd. simpl. unfold lookup_player. rewrite Hr. simpl.
    rewrite Hf. simpl. rewrite lookup_insert_eq. simpl. eauto.
Qed.

Lemma overlay_loop_total ps st :
  all_ok participant_ok ps → st !! KNone = None →
  ∃ st', foldM overlay_participant st ps = Ok st' ∧ st' !! KNone = None.
Proof.
  revert st. induction ps as [|p ps IH]; intros st Hps Hst; simpl; [eauto|].
  apply Forall_cons in Hps as [Hp Hps].
  destruct (overlay_participant_total st p Hp Hst) as [st1 H1]. rewrite H1. simpl.
  apply IH; [done|].
  pose proof (overlay_participant_lookup _ _ _ KNone H1) as Hk.
  rewrite Hst in Hk. by inversion Hk.
Qed.

(** The participants a standing's clan entry lists. *)
Lemma standing_participants_total s d :
  standing_ok s = true →
  ∃ c t participants,
    get s "clan" (PDict []) = Ok c ∧ get c "tag" d = Ok t ∧
    get c "participants" (PList []) = Ok participants ∧
    list_of participant_ok participants = true.
Proof.
  intros Hs. destruct (optional_get _ _ _ (PDict []) Hs) as (c & Hc & Hcok); [done|].
  destruct (optional_get _ _ _ (PList []) Hcok) as (ps & Hps & Hpsok); [done|].
  exists c. unfold standing_clan_ok in Hcok.
  destruct c; try done. simpl. eauto 10.
Qed.

Lemma add_participant_tags_total ps acc :
  all_ok participant_ok ps → ∃ acc', foldM add_participant_tag acc ps = Ok acc'.
Proof.
  revert acc. induction ps as [|p ps IH]; intros acc Hps; simpl; [eauto|].
  apply Forall_cons in Hps as [Hp Hps]. unfold add_participant_tag.
  destruct (participant_tag p Hp) as [[-> _]|(s & -> & _)]; simpl; by apply IH.
Qed.

Lemma add_standings_tags_total clan_tag ss acc :
  all_ok standing_ok ss → ∃ acc', foldM (add_standing_tags clan_tag) acc ss = Ok acc'.
Proof.
  revert acc. induction ss as [|s ss IH]; intros acc Hss; simpl; [eauto|].
  apply Forall_cons in Hss as [Hs Hss]. unfold add_standing_tags.
  destruct (standing_participants_total s PNone Hs) as (c & t & ps & -> & Ht & Hps & Hok).
  cbn [bind]. rewrite Ht. cbn [bind].
  destruct (py_eq_str t clan_tag); cbn [bind]; [|by apply IH].
  rewrite Hps. cbn [bind].
  destruct (list_of_iter _ _ Hok) as (l & -> & Hl). cbn [bind].
  destruct (add_participant_tags_total l acc Hl) as [acc1 ->]. cbn [bind]. by apply IH.
Qed.

Lemma war_standings_total x :
  war_ok x = true →
  ∃ standings ss, get x "standings" (PList []) = Ok standings ∧
                  py_iter standings = Ok ss ∧ all_ok standing_ok ss.
Proof.
  intros [_ Hs]%andb_prop.
  destruct (optional_get _ _ _ (PList []) Hs) as (standings & Hg & Hok); [done|].
  destruct (list_of_iter _ _ Hok) as (ss & Hss & Hall). eauto.
Qed.

Lemma collect_total clan_tag wars acc :
  all_ok war_ok wars → ∃ acc', foldM (add_war_tags clan_tag) acc wars = Ok acc'.
Proof.
  revert acc. induction wars as [|x wars IH]; intros acc Hwars; simpl; [eauto|].
  apply Forall_cons in Hwars as [Hx Hwars]. unfold add_war_tags.
  destruct (war_standings_total x Hx) as (standings & ss & Hg & Hiter & Hss).
  rewrite Hg. cbn [bind]. rewrite Hiter. cbn [bind].
  destruct (add_standings_tags_total clan_tag ss acc Hss) as [acc1 ->]. cbn [bind].
  by apply IH.
Qed.

Lemma war_ids_total wars i :
  all_ok war_ok wars → ∃ ids, imapM war_id_of i wars = Ok ids.
Proof.
  revert i. induction wars as [|x wars IH]; intros i Hwars; simpl; [eauto|].
  apply Forall_cons in Hwars as [Hx Hwars].
  destruct (IH (S i) Hwars) as [ids ->]. unfold war_id_of.
  apply andb_prop in Hx as [Hc _].
  destruct (optional_get _ _ _ (PStr "N/A") Hc) as (c & -> & Hstr); [done|].
  destruct c; try done. simpl. eauto.
Qed.

Lemma find_war_participants_total clan_tag ss :
  all_ok standing_ok ss →
  ∃ wp, find_war_participants clan_tag ss = Ok wp ∧ list_of participant_ok wp = true.
Proof.
  induction ss as [|s ss IH]; intros Hss; simpl; [eauto|].
  apply Forall_cons in Hss as [Hs Hss].
  destruct (standing_participants_total s PNone Hs) as (c & t & ps & -> & Ht & Hps & Hok).
  cbn [bind]. rewrite Ht. cbn [bind].
  destruct (py_eq_str t clan_tag); cbn [bind]; [|by apply IH].
  rewrite Hps. eauto.
Qed.

Lemma participants_report_attacks ps :
  all_ok participant_ok ps → ∃ counts, Forall2 reports_attacks ps counts.
Proof.
  induction 1 as [|p ps Hp _ [counts IH]]; [by exists []|].
  destruct (participant_numbers p Hp) as (f & d & _ & Hd).
  exists (d :: counts). by constructor.
Qed.

Lemma calculate_fair_benchmark_total ps :
  all_ok participant_ok ps → ∃ b, calculate_fair_benchmark (PList ps) = Ok b.
Proof.
  intros [counts Hc%decks_used_list_counts]%participants_report_attacks.
  rewrite (calculate_fair_benchmark_unfold _ _ Hc).
  destruct (positive_counts counts) as [|z zs] eqn:Hpos; [eauto|].
  destruct (most_common_1_nonempty (z :: zs)) as (m & n & ->); [done|]. eauto.
Qed.

Section total.
Context (container_repr : pyval → string).

Lemma record_loop_total w ps st :
  all_ok participant_ok ps →
  ∃ st', foldM (record_participant container_repr w) st ps = Ok st'.
Proof.
  revert st. induction ps as [|p ps IH]; intros st Hps; simpl; [eauto|].
  apply Forall_cons in Hps as [Hp Hps]. unfold record_participant.
  destruct (participant_numbers p Hp) as (f & d & Hf & Hd).
  destruct (participant_get p "name" PNone Hp) as [n Hn].
  assert (∃ k, (let! t := get p "tag" PNone in hash_key t) = Ok k) as [k Hk].
  { destruct (participant_tag p Hp) as [[-> _]|(s & -> & _)]; simpl; eauto. }
  inv_bind Hk as t Ht. rewrite Ht. cbn [bind]. rewrite Hf. cbn [bind].
  rewrite Hd. cbn [bind]. rewrite Hk. cbn [bind].
  destruct (st !! k) as [r|]; [|by apply IH].
  rewrite Hn. destruct (py_eq_str (name r) placeholder_name); simpl; by apply IH.
Qed.

Lemma process_war_total clan_tag s b w x :
  war_ok x = true →
  ∃ s' b', process_war container_repr clan_tag (s, b) (w, x) = Ok (s', b').
Proof.
  intros Hx. unfold process_war.
  destruct (war_standings_total x Hx) as (standings & ss & Hg & Hiter & Hss).
  rewrite Hg. cbn [bind]. rewrite Hiter. cbn [bind].
  destruct (find_war_participants_total clan_tag ss Hss) as (wp & -> & Hwp). cbn [bind].
  destruct (list_of_iter _ _ Hwp) as (ps & Hips & Hps).
  assert (wp = PList ps) as -> by (destruct wp; try done; simpl in Hips; congruence).
  assert (∃ benchmark,
    (if bool_decide (clan_tag ∈ TOP_CLANS_FOR_BENCHMARK)
     then calculate_fair_benchmark (PList ps) else Ok 16) = Ok benchmark) as [bench ->].
  { destruct (bool_decide _); [by apply calculate_fair_benchmark_total|eauto]. }
  cbn [bind py_iter].
  destruct (record_loop_total w ps (set_war_history w zero_entry <$> s) Hps) as [s' ->].
  cbn [bind]. eauto.
Qed.

Lemma war_loop_total clan_tag es s b :
  all_ok war_ok es.*2 →
  ∃ final, foldM (process_war container_repr clan_tag) (s, b) es = Ok final.
Proof.
  revert s b. induction es as [|[w x] es IH]; intros s b Hes; cbn [foldM]; [eauto|].
  rewrite fmap_cons in Hes. apply Forall_cons in Hes as [Hx Hes].
  destruct (process_war_total clan_tag s b w x Hx) as (s' & b' & ->). cbn [bind].
  by apply IH.
Qed.

(** Payloads of the documented shape, whatever fields they leave out, make
    the aggregation return. *)
Lemma well_formed_payloads_return clan_tag cd cw wl :
  clan_data_ok cd = true → current_war_ok cw = true → war_log_ok wl = true →
  ∃ r, generate_html_for_clan container_repr clan_tag cd cw wl = Ok r.
Proof.
  intros Hcd Hcw Hwl. unfold generate_html_for_clan.
  destruct (negb _); [eauto|].
  destruct (optional_get _ _ _ (PList []) Hcd) as (members & Hm & Hms); [done|].
  destruct (list_of_iter _ _ Hms) as (ms & Hiter & Hall).
  rewrite Hm. cbn [bind]. rewrite Hiter. cbn [bind].
  destruct (current_member_tags_of_total ms Hall) as [tags ->]. cbn [bind].
  destruct (seed_loop_total ms ∅ Hall) as (st0 & Hst0 & Hnone0); [done|].
  unfold seed_player_stats. rewrite Hst0. cbn [bind].
  unfold overlay_current_war.
  destruct (optional_get _ _ _ (PDict []) Hcw) as (clan & -> & Hclan); [done|].
  destruct (optional_get _ _ _ (PList []) Hclan) as (participants & Hgp & Hps); [done|].
  destruct (list_of_iter _ _ Hps) as (ps & Hips & Hpsok).
  cbn [bind]. rewrite Hgp. cbn [bind]. rewrite Hips. cbn [bind].
  destruct (overlay_loop_total ps st0 Hpsok Hnone0) as (st1 & -> & _). cbn [bind].
  destruct (optional_get _ _ _ (PList []) Hwl) as (items & -> & Hitems); [done|].
  destruct (list_of_iter _ _ Hitems) as (wars & Hiw & Hwars).
  cbn [bind]. rewrite Hiw. cbn [bind].
  destruct (war_ids_total wars 0 Hwars) as [ids Hids].
  unfold war_ids_of. rewrite Hids. cbn [bind].
  unfold collect_all_participants.
  destruct (collect_total clan_tag wars (dom st1) Hwars) as [allp ->]. cbn [bind].
  destruct (war_loop_total clan_tag (zip ids wars) (add_former_members allp st1) ∅)
    as [final ->]; [|cbn [bind]; eauto].
  unfold all_ok in *.
  apply Forall_forall. intros x Hx. rewrite Forall_forall in Hwars. apply Hwars.
  apply list_elem_of_fmap in Hx as ([w x'] & -> & Hin). simpl.
  apply list_elem_of_lookup in Hin as [i Hi]. rewrite lookup_zip_with in Hi.
  destruct (ids !! i); [|done]. simpl in Hi.
  destruct (wars !! i) eqn:Hw; [|done]. injection Hi as _ <-.
  by eapply list_elem_of_lookup_2.
Qed.

End total.

(** ** Examples *)


Lemma overlay_changes_current_war_only_witness :
  match sample_seed !! KStr "#A" with
  | None => sample_overlay !! KStr "#A" = None
  | Some r =>
      ∃ r', sample_overlay !! KStr "#A" = Some r' ∧
        name r' = name r ∧
        total_war_fame r' = total_war_fame r ∧
        total_decks_used r' = total_decks_used r ∧
        war_history r' = war_history r ∧
        (KStr "#A" ∉ omap tag_key (current_war_participants sample_current_war) → r' = r)
  end.
Proof.
  apply (overlay_changes_current_war_only sample_current_war sample_seed sample_overlay).
  vm_compute. reflexivity.
Defined.

Lemma error_fragment_iff_falsy_witness :
  generate_html_for_clan repr_elided "#2V2VRRLJ" sample_clan PNone sample_war_log
    = Ok ApiErrorFragment.
Proof.
  apply (proj2 (error_fragment_iff_falsy repr_elided "#2V2VRRLJ"
                  sample_clan PNone sample_war_log)).
  right. left. reflexivity.
Defined.

(** An empty JSON object is no failure sentinel, and the report is the error
    fragment all the same. *)
Lemma empty_payload_taken_for_failure :
  sample_clan ≠ PNone ∧ sample_current_war ≠ PNone ∧ PDict [] ≠ PNone ∧
  generate_html_for_clan repr_elided "#2V2VRRLJ" sample_clan sample_current_war (PDict [])
    = Ok ApiErrorFragment.
Proof. split_and!; [discriminate..|]. vm_compute. reflexivity. Qed.

(** A roster member without a name makes the aggregation raise. *)
Lemma nameless_member_raises :
  generate_html_for_clan repr_elided "#2V2VRRLJ"
    nameless_member_clan sample_current_war sample_war_log = Raise KeyError.
Proof. vm_compute. reflexivity. Qed.

(** The name that replaced the placeholder after the first war is replaced
    again by the second war. *)
Lemma replaced_name_changes_again :
  name <$> (registry_after [] !! KStr "#C") = Some (PStr placeholder_name) ∧
  name <$> (registry_after [homonym_war_1] !! KStr "#C") =
    Some (PStr (starred_name repr_elided (participant "#C" "Former Member" 900 8))) ∧
  name <$> (registry_after [homonym_war_1; homonym_war_2] !! KStr "#C") =
    Some (PStr (starred_name repr_elided (participant "#C" "Cat" 400 4))) ∧
  starred_name repr_elided (participant "#C" "Cat" 400 4) ≠
    starred_name repr_elided (participant "#C" "Former Member" 900 8).
Proof. split_and!; [vm_compute; reflexivity..|]. vm_compute. discriminate. Qed.

(** * Further properties *)

(** ** The estimator on arbitrary input *)

Lemma decks_used_list_elems ps decks z :
  decks_used_list ps = Ok decks → z ∈ decks →
  0 < z ∧ ∃ p, p ∈ ps ∧ py_int (field p "decksUsed" (PInt 0)) = Ok z.
Proof.
  revert decks. induction ps as [|p ps IH]; intros decks H Hz; simpl in H.
  - injection H as <-. by apply not_elem_of_nil in Hz.
  - inv_bind H as d Hd. inv_bind H as keep Hkeep.
    assert (∀ decks', decks_used_list ps = Ok decks' → z ∈ decks' →
              0 < z ∧ ∃ p', p' ∈ p :: ps ∧ py_int (field p' "decksUsed" (PInt 0)) = Ok z)
      as IH'.
    { intros decks' H' Hz'. destruct (IH _ H' Hz') as (? & p' & ? & ?).
      split; [done|]. exists p'. split; [by right|done]. }
    destruct keep; [|by eapply IH'].
    inv_bind H as d' Hd'. inv_bind H as z0 Hz0. inv_bind H as zs Hzs.
    injection H as <-. assert (d' = d) as -> by congruence.
    apply elem_of_cons in Hz as [->|Hz]; [|by eapply IH'].
    split.
    + destruct d; simpl in *; try done.
      * injection Hkeep as ->. injection Hz0 as <-. lia.
      * injection Hkeep as Hlt. injection Hz0 as <-. by apply Z.ltb_lt.
    + exists p. split; [left|]. by rewrite (get_field _ _ _ _ Hd).
Qed.

Lemma calculate_fair_benchmark_Ok_inv v b :
  calculate_fair_benchmark v = Ok b →
  b = 16 ∨ ∃ ps decks, py_iter v = Ok ps ∧ decks_used_list ps = Ok decks ∧ b ∈ decks.
Proof.
  unfold calculate_fair_benchmark. intros H.
  destruct (negb (truthy v)); [left; congruence|].
  inv_bind H as ps Hps. inv_bind H as decks Hdecks.
  destruct decks as [|x decks']; [left; congruence|].
  inv_bind H as mx Hmx. simpl in Hmx. injection Hmx as <-.
  right. exists ps, (x :: decks'). split_and!; [done..|].
  destruct (most_common_1 (Counter (x :: decks'))) as [|[m n] rest] eqn:Hmc; [done|].
  destruct (most_common_1_spec _ _ _ _ Hmc) as (Hin & _).
  destruct (_ && _); injection H as <-; [done|apply foldl_max_spec].
Qed.

(** X1: on any value, lists of ill-formed records included, a benchmark
    the estimator returns is greater than 0, and it is 16 or a positive
    attack count that some element of the input reports. *)
Theorem fair_benchmark_is_a_reported_count v b :
  calculate_fair_benchmark v = Ok b →
  0 < b ∧
  (b = 16 ∨ ∃ p, p ∈ elements_of v ∧ py_int (field p "decksUsed" (PInt 0)) = Ok b).
Proof.
  intros [->|(ps & decks & Hps & Hdecks & Hb)]%calculate_fair_benchmark_Ok_inv.
  - split; [lia|by left].
  - destruct (decks_used_list_elems _ _ _ Hdecks Hb) as (Hpos & p & Hp & Hint).
    split; [lia|]. right. exists p. by rewrite (py_iter_elements _ _ Hps).
Qed.

Lemma fair_benchmark_is_a_reported_count_witness :
  0 < 5 ∧
  (5 = 16 ∨ ∃ p, p ∈ elements_of (PList [with_attacks 5; PDict [("decksUsed", PBool true)]]) ∧
                 py_int (field p "decksUsed" (PInt 0)) = Ok 5).
Proof.
  apply (fair_benchmark_is_a_reported_count
           (PList [with_attacks 5; PDict [("decksUsed", PBool true)]]) 5).
  vm_compute. reflexivity.
Defined.

(** ** Reordering the participants *)

Lemma occ_Permutation l l' x : l ≡ₚ l' → occ l x = occ l' x.
Proof.
  intros Hp. unfold occ. revert x. by apply Permutation_count_occ.
Qed.

Lemma is_max_unique l mx mx' : is_max mx l → is_max mx' l → mx = mx'.
Proof.
  intros [Hin Hle] [Hin' Hle']. apply Hle in Hin'. apply Hle' in Hin. lia.
Qed.

Lemma strict_mode_unique l m m' : is_strict_mode m l → is_mode m' l → m' = m.
Proof.
  intros [_ Hstrict] [_ Hmax]. destruct (decide (m' = m)) as [|Hne]; [done|].
  specialize (Hstrict m' Hne). specialize (Hmax m). lia.
Qed.

(** X2: when one positive attack count is strictly more frequent than every
    other, the benchmark does not depend on the order of the participants. *)
Theorem fair_benchmark_order_independent ps ps' counts counts' m :
  Forall2 reports_attacks ps counts → Forall2 reports_attacks ps' counts' →
  counts ≡ₚ counts' → is_strict_mode m (positive_counts counts) →
  calculate_fair_benchmark (PList ps) = calculate_fair_benchmark (PList ps').
Proof.
  intros Hps Hps' Hperm Hm.
  assert (positive_counts counts ≡ₚ positive_counts counts') as Hpos.
  { unfold positive_counts. by rewrite Hperm. }
  apply decks_used_list_counts in Hps, Hps'.
  assert (positive_counts counts ≠ []) as Hne.
  { destruct Hm as [Hin _]. intros Heq. rewrite Heq in Hin.
    by apply not_elem_of_nil in Hin. }
  assert (positive_counts counts' ≠ []) as Hne'.
  { intros Heq. rewrite Heq in Hpos. by apply Permutation_nil_r in Hpos. }
  destruct (calculate_fair_benchmark_decks _ _ Hps Hne)
    as (m1 & mx1 & [Hm1 _] & Hmx1 & _ & ->).
  destruct (calculate_fair_benchmark_decks _ _ Hps' Hne')
    as (m2 & mx2 & [Hm2 _] & Hmx2 & _ & ->).
  assert (is_mode m2 (positive_counts counts)) as Hm2'.
  { destruct Hm2 as [Hin Hocc]. split; [by rewrite Hpos|].
    intros x. rewrite !(occ_Permutation _ _ _ Hpos). apply Hocc. }
  assert (is_max mx2 (positive_counts counts)) as Hmx2'.
  { destruct Hmx2 as [Hin Hle]. split; [by rewrite Hpos|].
    intros y Hy. apply Hle. by rewrite <- Hpos. }
  rewrite (strict_mode_unique _ _ _ Hm Hm1), (strict_mode_unique _ _ _ Hm Hm2').
  by rewrite (is_max_unique _ _ _ Hmx1 Hmx2').
Qed.

Lemma fair_benchmark_order_independent_witness :
  calculate_fair_benchmark (PList (with_attacks <$> [4; 16; 4; 0; 8])) =
  calculate_fair_benchmark (PList (with_attacks <$> [8; 4; 0; 4; 16])).
Proof.
  apply (fair_benchmark_order_independent
           (with_attacks <$> [4; 16; 4; 0; 8]) (with_attacks <$> [8; 4; 0; 4; 16])
           [4; 16; 4; 0; 8] [8; 4; 0; 4; 16] 4).
  - repeat constructor.
  - repeat constructor.
  - apply (bool_decide_unpack _). vm_compute. exact I.
  - change (positive_counts [4; 16; 4; 0; 8]) with [4; 16; 4; 8].
    split; [left|]. intros x Hx. unfold occ. cbn [count_occ].
    repeat (destruct (Z.eq_dec _ _)); lia.
Defined.

(** ** Participants that share a tag *)

Lemma tagged_cons k p ps :
  tagged k (p :: ps) = if decide (tag_key p = Some k) then p :: tagged k ps else tagged k ps.
Proof. unfold tagged. by rewrite filter_cons. Qed.

Lemma tagged_app k l1 l2 : tagged k (l1 ++ l2) = tagged k l1 ++ tagged k l2.
Proof. unfold tagged. apply filter_app. Qed.

Lemma tagged_nil_iff k ps : tagged k ps = [] ↔ k ∉ omap tag_key ps.
Proof.
  unfold tagged. induction ps as [|p ps IH]; simpl.
  { split; [intros _; apply not_elem_of_nil|done]. }
  rewrite filter_cons. destruct (tag_key p) as [k0|] eqn:Hp.
  - rewrite not_elem_of_cons. destruct (decide (Some k0 = Some k)) as [[= ->]|Hne].
    + split; [done|]. by intros [[] _].
    + rewrite IH. split; [|tauto]. intros ?. split; [congruence|done].
  - rewrite decide_False by done. done.
Qed.

Lemma fame_sum_app l1 l2 : fame_sum (l1 ++ l2) = fame_sum l1 + fame_sum l2.
Proof. induction l1 as [|p l1 IH]; simpl; [done|]. rewrite IH. lia. Qed.

Lemma decks_sum_app l1 l2 : decks_sum (l1 ++ l2) = decks_sum l1 + decks_sum l2.
Proof. induction l1 as [|p l1 IH]; simpl; [done|]. rewrite IH. lia. Qed.

Lemma last_cons_tagged (p : pyval) ps :
  last (p :: ps) = match last ps with Some p' => Some p' | None => Some p end.
Proof. rewrite last_cons. by destruct (last ps). Qed.

(** ** The overlay, value by value *)

Lemma overlay_participant_Ok st p st' :
  overlay_participant st p = Ok st' →
  ∃ k, tag_key p = Some k ∧
    st' = match st !! k with
          | Some r =>
              <[k := set_current_war_fame (field p "fame" (PInt 0))
                       (set_current_war_decks_used (field p "decksUsed" (PInt 0)) r)]> st
          | None => st
          end.
Proof.
  unfold overlay_participant. intros H.
  inv_bind H as t Ht. inv_bind H as k0 Hk0.
  exists k0. split; [by eapply get_hash_tag_key|].
  destruct (st !! k0) as [r0|] eqn:Hr0; [|by injection H as <-].
  inv_bind H as d Hd. inv_bind H as t1 Ht1. inv_bind H as k1 Hk1.
  inv_bind H as r1 Hr1. apply lookup_player_Ok in Hr1.
  inv_bind H as f Hf. inv_bind H as t2 Ht2. inv_bind H as k2 Hk2.
  inv_bind H as r2 Hr2. apply lookup_player_Ok in Hr2.
  injection H as <-.
  apply (item_get _ _ PNone) in Ht1, Ht2.
  assert (t1 = t) as -> by congruence. assert (t2 = t) as -> by congruence.
  assert (k1 = k0) as -> by congruence. assert (k2 = k0) as -> by congruence.
  rewrite lookup_insert_eq in Hr2. injection Hr2 as <-.
  assert (r1 = r0) as -> by congruence.
  rewrite (get_field _ _ _ _ Hd), (get_field _ _ _ _ Hf).
  by rewrite insert_insert_eq.
Qed.

Lemma overlay_loop_last ps st st' k r :
  foldM overlay_participant st ps = Ok st' → st !! k = Some r →
  ∃ r', st' !! k = Some r' ∧
    current_war_decks_used r' =
      match last (tagged k ps) with
      | Some p => field p "decksUsed" (PInt 0)
      | None => current_war_decks_used r
      end ∧
    current_war_fame r' =
      match last (tagged k ps) with
      | Some p => field p "fame" (PInt 0)
      | None => current_war_fame r
      end.
Proof.
  revert st r. induction ps as [|p ps IH]; intros st r H Hr; simpl in H.
  - injection H as <-. eauto.
  - inv_bind H as st1 E. apply overlay_participant_Ok in E as (k0 & Hk0 & ->).
    rewrite tagged_cons, Hk0. destruct (decide (Some k0 = Some k)) as [[= ->]|Hne].
    + rewrite Hr in H.
      destruct (IH _ _ H (lookup_insert_eq _ _ _)) as (r' & Hr' & Hd & Hf).
      exists r'. split; [done|]. rewrite last_cons_tagged, Hd, Hf.
      by destruct (last (tagged k ps)).
    + apply (IH _ r H). destruct (st !! k0); [|done].
      rewrite lookup_insert_ne; [done|congruence].
Qed.

(** ** The roster, member by member *)

Lemma seed_loop_member ms st st' k r :
  foldM seed_member st ms = Ok st' → st' !! k = Some r →
  st !! k = Some r ∨
  ∃ m, m ∈ ms ∧ tag_key m = Some k ∧ r = new_player (field m "name" PNone).
Proof.
  revert st. induction ms as [|m ms IH]; intros st H Hr; simpl in H.
  - injection H as <-. by left.
  - inv_bind H as st1 E. unfold seed_member in E.
    inv_bind E as t Ht. inv_bind E as n Hn. inv_bind E as k0 Hk0.
    injection E as <-. apply (item_get _ _ PNone) in Ht, Hn.
    destruct (IH _ H Hr) as [Hr1|(m' & Hm' & ? & ?)].
    + destruct (decide (k0 = k)) as [->|Hne].
      * rewrite lookup_insert_eq in Hr1. injection Hr1 as <-. right.
        exists m. split_and!; [left|by eapply get_hash_tag_key|].
        by rewrite (get_field _ _ _ _ Hn).
      * rewrite lookup_insert_ne in Hr1 by done. by left.
    + right. exists m'. split_and!; [by right|done..].
Qed.

(** ** One war, participant by participant *)

Section records.
Context (container_repr : pyval → string).

Lemma record_loop_sum w ps st st' k r :
  foldM (record_participant container_repr w) st ps = Ok st' → st !! k = Some r →
  ∃ r', st' !! k = Some r' ∧
    total_war_fame r' = total_war_fame r + fame_sum (tagged k ps) ∧
    total_decks_used r' = total_decks_used r + decks_sum (tagged k ps) ∧
    war_history r' !! w =
      match last (tagged k ps) with
      | Some p => Some (entry_of p)
      | None => war_history r !! w
      end ∧
    (tagged k ps = [] → r' = r).
Proof.
  revert st r. induction ps as [|p ps IH]; intros st r H Hr; simpl in H.
  - injection H as <-. exists r. split_and!; try done; simpl; lia.
  - inv_bind H as st1 E. apply record_participant_Ok in E as (k0 & Hk0 & ->).
    rewrite tagged_cons, Hk0. destruct (decide (Some k0 = Some k)) as [[= ->]|Hne].
    + rewrite Hr in H.
      destruct (IH _ _ H (lookup_insert_eq _ _ _)) as (r' & Hr' & Hf & Hd & Hh & _).
      exists r'. split; [done|]. rewrite last_cons_tagged, Hf, Hd, Hh.
      split_and!; [| | |done].
      * unfold recorded. simpl. destruct (py_eq_str _ _); simpl; lia.
      * unfold recorded. simpl. destruct (py_eq_str _ _); simpl; lia.
      * destruct (last (tagged k ps)); [done|].
        unfold recorded. simpl. by rewrite lookup_insert_eq.
    + apply (IH _ r H). destruct (st !! k0); [|done].
      rewrite lookup_insert_ne; [done|congruence].
Qed.

Lemma calculate_fair_benchmark_pos v b :
  calculate_fair_benchmark v = Ok b → 1 ≤ b.
Proof.
  intros [->|(ps & decks & _ & Hdecks & Hb)]%calculate_fair_benchmark_Ok_inv; [lia|].
  destruct (decks_used_list_elems _ _ _ Hdecks Hb). lia.
Qed.

Lemma process_war_benchmark clan_tag s b w x s' b' :
  process_war container_repr clan_tag (s, b) (w, x) = Ok (s', b') →
  b' = <[w := war_benchmark clan_tag x]> b ∧
  1 ≤ war_benchmark clan_tag x ∧
  (clan_tag ∉ TOP_CLANS_FOR_BENCHMARK → war_benchmark clan_tag x = 16) ∧
  (clan_tag ∈ TOP_CLANS_FOR_BENCHMARK →
   ∃ wp, find_war_participants clan_tag
           (elements_of (field x "standings" (PList []))) = Ok wp ∧
         calculate_fair_benchmark wp = Ok (war_benchmark clan_tag x)).
Proof.
  unfold process_war, war_benchmark. intros H.
  inv_bind H as standings Hs. inv_bind H as ss Hss. inv_bind H as wp Hwp.
  inv_bind H as benchmark Hb. inv_bind H as ps Hps. inv_bind H as s1 Hs1.
  injection H as <- <-.
  rewrite (get_field _ _ _ _ Hs), (py_iter_elements _ _ Hss), Hwp.
  case_bool_decide as Htop.
  - rewrite Hb. split_and!; [done|by eapply calculate_fair_benchmark_pos|done|eauto].
  - injection Hb as <-. split_and!; [done|lia|done|done].
Qed.

Lemma process_war_record clan_tag s b w x s' b' k r :
  process_war container_repr clan_tag (s, b) (w, x) = Ok (s', b') →
  s !! k = Some r →
  ∃ r', s' !! k = Some r' ∧
    total_war_fame r' =
      total_war_fame r + fame_sum (tagged k (war_participants clan_tag x)) ∧
    total_decks_used r' =
      total_decks_used r + decks_sum (tagged k (war_participants clan_tag x)) ∧
    war_history r' !! w = Some (last_entry (tagged k (war_participants clan_tag x))) ∧
    (tagged k (war_participants clan_tag x) = [] → name r' = name r).
Proof.
  intros [_ H]%process_war_Ok Hr.
  destruct (record_loop_sum _ _ _ _ k (set_war_history w zero_entry r) H)
    as (r' & Hr' & Hf & Hd & Hh & Hsame).
  { by rewrite lookup_fmap, Hr. }
  exists r'. split_and!; [done..| |].
  - rewrite Hh. unfold last_entry.
    destruct (last _); [done|]. simpl. by rewrite lookup_insert_eq.
  - by intros ->%Hsame.
Qed.

(** ** The war log, war by war *)

Lemma war_loop_record clan_tag es s b s' b' k r :
  foldM (process_war container_repr clan_tag) (s, b) es = Ok (s', b') →
  s !! k = Some r →
  ∃ r', s' !! k = Some r' ∧
    total_war_fame r' =
      total_war_fame r + fame_sum (tagged k (recorded_participants clan_tag es.*2)) ∧
    total_decks_used r' =
      total_decks_used r + decks_sum (tagged k (recorded_participants clan_tag es.*2)) ∧
    (tagged k (recorded_participants clan_tag es.*2) = [] → name r' = name r).
Proof.
  unfold recorded_participants.
  revert s b r. induction es as [|[w x] es IH]; intros s b r H Hr.
  - injection H as <- <-. exists r. split_and!; try done; simpl; lia.
  - simpl in H. inv_bind H as st1 E. destruct st1 as [s1 b1].
    destruct (process_war_record _ _ _ _ _ _ _ _ _ E Hr) as (r1 & Hr1 & Hf1 & Hd1 & _ & Hn1).
    destruct (IH _ _ _ H Hr1) as (r' & Hr' & Hf & Hd & Hn).
    exists r'. split; [done|].
    rewrite fmap_cons, bind_cons, tagged_app, fame_sum_app, decks_sum_app. simpl.
    split_and!; [lia..|].
    intros [H1 H2]%app_eq_nil. by rewrite Hn, Hn1.
Qed.

Lemma war_loop_history clan_tag es s b s' b' k r r' w x :
  foldM (process_war container_repr clan_tag) (s, b) es = Ok (s', b') →
  NoDup es.*1 → (w, x) ∈ es → s !! k = Some r → s' !! k = Some r' →
  war_history r' !! w = Some (last_entry (tagged k (war_participants clan_tag x))).
Proof.
  intros H Hnd Hin Hr Hr'.
  apply list_elem_of_split in Hin as (es1 & es2 & ->).
  rewrite foldM_app in H. inv_bind H as st1 H1. destruct st1 as [s1 b1].
  simpl in H. inv_bind H as st2 H2. destruct st2 as [s2 b2].
  rewrite fmap_app, fmap_cons in Hnd.
  apply NoDup_app in Hnd as (_ & _ & [Hw Hnd2]%NoDup_cons). simpl in Hw.
  destruct (war_loop_record _ _ _ _ _ _ k r H1 Hr) as (r1 & Hr1 & _).
  destruct (process_war_record _ _ _ _ _ _ _ _ _ H2 Hr1) as (r2 & Hr2 & _ & _ & Hh & _).
  pose proof (war_loop_lookup _ _ _ _ _ _ _ k H Hnd2) as Hk.
  rewrite Hr2 in Hk. destruct Hk as (r'' & Hr'' & (_ & _ & _ & Hframe & _)).
  assert (r'' = r') as -> by congruence.
  by rewrite (Hframe w Hw).
Qed.

Lemma total_possible_battles_insert b w z :
  b !! w = None →
  total_possible_battles (<[w := z]> b) = z + total_possible_battles b.
Proof.
  intros Hw. unfold total_possible_battles.
  rewrite map_fold_insert_L; [done| |done].
  intros. lia.
Qed.

Lemma war_loop_benchmarks clan_tag es s b s' b' :
  foldM (process_war container_repr clan_tag) (s, b) es = Ok (s', b') →
  NoDup es.*1 →
  (∀ w, w ∉ es.*1 → b' !! w = b !! w) ∧
  (∀ w x, (w, x) ∈ es →
     b' !! w = Some (war_benchmark clan_tag x) ∧
     1 ≤ war_benchmark clan_tag x ∧
     (clan_tag ∉ TOP_CLANS_FOR_BENCHMARK → war_benchmark clan_tag x = 16) ∧
     (clan_tag ∈ TOP_CLANS_FOR_BENCHMARK →
      ∃ wp, find_war_participants clan_tag
              (elements_of (field x "standings" (PList []))) = Ok wp ∧
            calculate_fair_benchmark wp = Ok (war_benchmark clan_tag x))) ∧
  ((∀ w, w ∈ es.*1 → b !! w = None) →
   total_possible_battles b' =
     total_possible_battles b + sum_list_Z (war_benchmark clan_tag <$> es.*2)).
Proof.
  revert s b. induction es as [|[w x] es IH]; intros s b H Hnd.
  - injection H as <- <-. split_and!; [done| |intros _; simpl; lia].
    by intros ?? ?%not_elem_of_nil.
  - simpl in H. inv_bind H as st1 E. destruct st1 as [s1 b1].
    rewrite fmap_cons in Hnd. apply NoDup_cons in Hnd as [Hw Hnd]. simpl in Hw.
    destruct (process_war_benchmark _ _ _ _ _ _ _ E) as (-> & Hpos & Hnot & Htop).
    destruct (IH _ _ H Hnd) as (Hframe & Hwars & Hsum).
    split_and!.
    + intros w0 Hw0. rewrite fmap_cons in Hw0.
      apply not_elem_of_cons in Hw0 as [Hne Hw0]. simpl in Hne.
      rewrite (Hframe _ Hw0). by rewrite lookup_insert_ne.
    + intros w0 x0 [[= -> ->]|Hin]%elem_of_cons; [|by apply Hwars].
      rewrite (Hframe _ Hw), lookup_insert_eq. done.
    + intros Hnone. rewrite Hsum.
      * rewrite total_possible_battles_insert by (apply Hnone; left).
        rewrite !fmap_cons. simpl. lia.
      * intros w0 Hw0. rewrite lookup_insert_ne by (intros ->; done).
        apply Hnone. by right.
Qed.

End records.

(** ** The report as a whole *)

Section whole_report.
Context (container_repr : pyval → string).

Lemma zip_war_items (ids : list string) (items : list pyval) :
  length ids = length items → (zip ids items).*2 = items.
Proof. intros Hlen. apply snd_zip. lia. Qed.

(** The benchmark map has one entry for each war identifier, computed from
    what the search of the per-war loop returns. *)
Lemma benchmarks_of_recorded_wars clan_tag cd cw wl st tags ids bm :
  generate_html_for_clan container_repr clan_tag cd cw wl
    = Ok (ClanReport st tags ids bm) →
  dom bm = list_to_set ids ∧
  ∀ i w x, ids !! i = Some w → war_log_items wl !! i = Some x →
    ∃ z, bm !! w = Some z ∧ 1 ≤ z ∧
      (clan_tag ∉ TOP_CLANS_FOR_BENCHMARK → z = 16) ∧
      (clan_tag ∈ TOP_CLANS_FOR_BENCHMARK →
       ∃ wp, find_war_participants clan_tag
               (elements_of (field x "standings" (PList []))) = Ok wp ∧
             calculate_fair_benchmark wp = Ok z).
Proof.
  intros (st0 & st1 & allp & _ & _ & _ & Hids & _ & Hloop)%generate_html_for_clan_Ok.
  apply war_ids_of_spec in Hids as [Hlen Hnd].
  apply war_loop_benchmarks in Hloop as (Hframe & Hwars & _);
    [|by rewrite zip_war_ids].
  rewrite zip_war_ids in Hframe by done. split.
  - apply set_eq. intros w. rewrite elem_of_dom, elem_of_list_to_set. split.
    + intros Hsome. destruct (decide (w ∈ ids)) as [|Hw]; [done|].
      rewrite (Hframe w Hw), lookup_empty in Hsome. by destruct Hsome.
    + intros [x Hx]%(elem_of_zip_fst _ (war_log_items wl)); [|done].
      destruct (Hwars _ _ Hx) as [-> _]. eauto.
  - intros i w x Hw Hx.
    destruct (Hwars w x) as (Hb & Hpos & Hnot & Htop); [by eapply zip_lookup_elem|].
    eauto 10.
Qed.

(** X4: the total of possible battles the performance table shows is the
    sum of the benchmarks of the logged wars, no war counted twice or
    left out; for a clan outside the top clans it is 16 for each logged
    war. *)
Theorem total_possible_battles_per_war clan_tag cd cw wl st tags ids bm :
  generate_html_for_clan container_repr clan_tag cd cw wl
    = Ok (ClanReport st tags ids bm) →
  total_possible_battles bm =
    sum_list_Z (war_benchmark clan_tag <$> war_log_items wl) ∧
  (clan_tag ∉ TOP_CLANS_FOR_BENCHMARK →
   total_possible_battles bm = 16 * Z.of_nat (length (war_log_items wl))).
Proof.
  intros (st0 & st1 & allp & _ & _ & _ & Hids & _ & Hloop)%generate_html_for_clan_Ok.
  apply war_ids_of_spec in Hids as [Hlen Hnd].
  apply war_loop_benchmarks in Hloop as (_ & _ & Hsum); [|by rewrite zip_war_ids].
  rewrite zip_war_items in Hsum by done.
  assert (total_possible_battles bm =
          sum_list_Z (war_benchmark clan_tag <$> war_log_items wl)) as Htotal.
  { rewrite Hsum; [|by intros; apply lookup_empty].
    unfold total_possible_battles at 1. rewrite map_fold_empty. lia. }
  split; [done|]. intros Hnot. rewrite Htotal.
  unfold war_benchmark. rewrite bool_decide_eq_false_2 by done.
  clear. induction (war_log_items wl) as [|x l IH]; [done|].
  rewrite fmap_cons. cbn [sum_list_Z foldr length]. unfold sum_list_Z in IH.
  rewrite IH. lia.
Qed.

(** The record of a tag at the end of a run and the record the loop over
    the war log found for it. *)
Lemma final_record_totals clan_tag cd cw wl st tags ids bm k r :
  generate_html_for_clan container_repr clan_tag cd cw wl
    = Ok (ClanReport st tags ids bm) →
  st !! k = Some r →
  ∃ st0 st1 allp r0,
    seed_player_stats (roster cd) = Ok st0 ∧
    foldM overlay_participant st0 (current_war_participants cw) = Ok st1 ∧
    add_former_members allp st1 !! k = Some r0 ∧
    current_war_decks_used r = current_war_decks_used r0 ∧
    current_war_fame r = current_war_fame r0 ∧
    (py_eq_str (name r0) placeholder_name = false → name r = name r0) ∧
    total_war_fame r =
      total_war_fame r0 +
      fame_sum (tagged k (recorded_participants clan_tag (war_log_items wl))) ∧
    total_decks_used r =
      total_decks_used r0 +
      decks_sum (tagged k (recorded_participants clan_tag (war_log_items wl))) ∧
    (tagged k (recorded_participants clan_tag (war_log_items wl)) = [] →
     name r = name r0) ∧
    ∀ i w x, ids !! i = Some w → war_log_items wl !! i = Some x →
      war_history r !! w = Some (last_entry (tagged k (war_participants clan_tag x))).
Proof.
  intros (st0 & st1 & allp & _ & Hseed & Hov & Hids & _ & Hloop)%generate_html_for_clan_Ok Hr.
  apply war_ids_of_spec in Hids as [Hlen Hnd].
  pose proof (war_loop_lookup _ _ _ _ _ _ _ k Hloop) as Hk.
  rewrite zip_war_ids in Hk by done. specialize (Hk Hnd).
  destruct (add_former_members allp st1 !! k) as [r0|] eqn:Hr0; [|congruence].
  destruct Hk as (r' & Hr' & (Hc1 & Hc2 & Hname & _)).
  assert (r' = r) as -> by congruence.
  destruct (war_loop_record _ _ _ _ _ _ _ k r0 Hloop Hr0) as (r' & Hr'' & Hf & Hd & Hn).
  assert (r' = r) as -> by congruence.
  rewrite zip_war_items in Hf, Hd, Hn by done.
  exists st0, st1, allp, r0. split_and!; try done.
  intros i w x Hw Hx.
  eapply war_loop_history; [exact Hloop|by rewrite zip_war_ids| |exact Hr0|exact Hr].
  by eapply zip_lookup_elem.
Qed.

(** The totals of a record are sums over the participants the per-war loop
    walks. *)
Lemma totals_over_recorded_participants clan_tag cd cw wl st tags ids bm k r :
  generate_html_for_clan container_repr clan_tag cd cw wl
    = Ok (ClanReport st tags ids bm) →
  st !! k = Some r →
  total_war_fame r =
    fame_sum (tagged k (recorded_participants clan_tag (war_log_items wl))) ∧
  total_decks_used r =
    decks_sum (tagged k (recorded_participants clan_tag (war_log_items wl))).
Proof.
  intros H Hr.
  destruct (final_record_totals _ _ _ _ _ _ _ _ _ _ H Hr)
    as (st0 & st1 & allp & r0 & Hseed & Hov & Hr0 & _ & _ & _ & Hf & Hd & _).
  destruct (initial_records _ _ _ _ _ _ _ Hseed Hov Hr0) as (_ & Hf0 & Hd0 & _).
  lia.
Qed.

(** The history entry of a record for a war comes from the last participant
    the per-war loop walks under the record's tag. *)
Lemma history_of_recorded_participants clan_tag cd cw wl st tags ids bm k r i w x :
  generate_html_for_clan container_repr clan_tag cd cw wl
    = Ok (ClanReport st tags ids bm) →
  st !! k = Some r → ids !! i = Some w → war_log_items wl !! i = Some x →
  war_history r !! w = Some (last_entry (tagged k (war_participants clan_tag x))).
Proof.
  intros H Hr Hw Hx.
  destruct (final_record_totals _ _ _ _ _ _ _ _ _ _ H Hr)
    as (_ & _ & _ & _ & _ & _ & _ & _ & _ & _ & _ & _ & _ & Hh).
  by eapply Hh.
Qed.

(** X7: the set of current-member tags handed to the builders is the set of
    roster tags, each of which has a record; that record carries the name
    of a roster member with the tag, whatever the war log reports, unless
    the roster name is the placeholder text. *)
Theorem roster_names_kept clan_tag cd cw wl st tags ids bm :
  generate_html_for_clan container_repr clan_tag cd cw wl
    = Ok (ClanReport st tags ids bm) →
  tags = roster_tags cd ∧
  ∀ k, k ∈ tags →
    ∃ r m, st !! k = Some r ∧ m ∈ roster cd ∧ tag_key m = Some k ∧
      (py_eq_str (field m "name" PNone) placeholder_name = false →
       name r = field m "name" PNone).
Proof.
  intros H.
  pose proof H as (st0 & st1 & allp & Htags & Hseed & Hov & Hids & _ & Hloop)%generate_html_for_clan_Ok.
  apply current_member_tags_of_spec in Htags. split; [done|].
  intros k Hk. rewrite Htags in Hk.
  pose proof (seed_player_stats_spec _ _ Hseed) as [Hdom _].
  assert (is_Some (st0 !! k)) as [r0 Hr0] by (apply elem_of_dom; by rewrite Hdom).
  destruct (seed_loop_member _ _ _ _ _ Hseed Hr0) as [?%lookup_empty_Some|(m & Hm & Htag & ->)];
    [done|].
  pose proof (overlay_loop_lookup _ _ _ k Hov) as Hk1. rewrite Hr0 in Hk1.
  inversion Hk1 as [? r1 [(Hn1 & _) _] Heq0 Heq1|]. symmetry in Heq1.
  assert (add_former_members allp st1 !! k = Some r1) as Hr1.
  { by rewrite add_former_members_lookup, Heq1. }
  apply war_ids_of_spec in Hids as [Hlen Hnd].
  pose proof (war_loop_lookup _ _ _ _ _ _ _ k Hloop) as Hk2.
  rewrite zip_war_ids in Hk2 by done. specialize (Hk2 Hnd). rewrite Hr1 in Hk2.
  destruct Hk2 as (r & Hr & (_ & _ & Hname & _)).
  exists r, m. split_and!; [done..|].
  intros Hne. rewrite Hname, Hn1; [done|]. by rewrite Hn1.
Qed.

(** X8: in the report, the current-war fields of a roster member are those
    of the last current-war participant with the member's tag (absent
    fields read as 0), and 0 when no participant has the tag; the war log
    has no part in them. *)
Theorem current_war_fields_from_payload clan_tag cd cw wl st tags ids bm k r :
  generate_html_for_clan container_repr clan_tag cd cw wl
    = Ok (ClanReport st tags ids bm) →
  st !! k = Some r → k ∈ roster_tags cd →
  current_war_decks_used r =
    match last (tagged k (current_war_participants cw)) with
    | Some p => field p "decksUsed" (PInt 0)
    | None => PInt 0
    end ∧
  current_war_fame r =
    match last (tagged k (current_war_participants cw)) with
    | Some p => field p "fame" (PInt 0)
    | None => PInt 0
    end.
Proof.
  intros H Hr Hk.
  destruct (final_record_totals _ _ _ _ _ _ _ _ _ _ H Hr)
    as (st0 & st1 & allp & r1 & Hseed & Hov & Hr1 & -> & -> & _).
  pose proof (seed_player_stats_spec _ _ Hseed) as [Hdom Hfresh].
  assert (is_Some (st0 !! k)) as [r0 Hr0] by (apply elem_of_dom; by rewrite Hdom).
  destruct (overlay_loop_last _ _ _ _ _ Hov Hr0) as (r1' & Hr1' & Hd & Hf).
  rewrite add_former_members_lookup, Hr1' in Hr1. injection Hr1 as <-.
  destruct (Hfresh _ _ Hr0) as [n ->]. by rewrite Hd, Hf.
Qed.


(** X10: a payload that is truthy and not a JSON object is not a failure
    sentinel and is not aggregated either: the call raises. *)
Theorem non_object_payload_raises clan_tag cd cw wl :
  truthy cd = true → truthy cw = true → truthy wl = true →
  is_dict cd = false ∨ is_dict cw = false ∨ is_dict wl = false →
  ∃ e, generate_html_for_clan container_repr clan_tag cd cw wl = Raise e.
Proof.
  intros Hcd Hcw Hwl Hnot.
  destruct (generate_html_for_clan container_repr clan_tag cd cw wl) as [rep|e] eqn:H;
    [|eauto]. exfalso.
  unfold generate_html_for_clan in H. rewrite Hcd, Hcw, Hwl in H. simpl in H.
  inv_bind H as members Hm. inv_bind H as ms Hms. inv_bind H as tags' Htags.
  inv_bind H as members' Hm'. inv_bind H as ms' Hms'. inv_bind H as st0 Hst0.
  inv_bind H as st1 Hst1. inv_bind H as items Hitems.
  unfold overlay_current_war in Hst1. inv_bind Hst1 as clan Hclan.
  destruct cd, cw, wl; try done. simpl in Hnot. naive_solver.
Qed.

End whole_report.

(** ** Strings *)

Lemma append_assoc_string s1 s2 s3 : (s1 +:+ s2) +:+ s3 = s1 +:+ (s2 +:+ s3).
Proof.
  induction s1 as [|c s1 IH]; [done|]. by rewrite !append_cons, IH.
Qed.

Lemma append_nil_r s : s +:+ EmptyString = s.
Proof. induction s as [|c s IH]; [done|]. by rewrite append_cons, IH. Qed.

Lemma lacks_app a s1 s2 : lacks a (s1 +:+ s2) ↔ lacks a s1 ∧ lacks a s2.
Proof.
  induction s1 as [|c s1 IH].
  - rewrite append_nil. simpl. tauto.
  - rewrite append_cons. simpl. rewrite IH. tauto.
Qed.

Lemma split_char_lacks sep s : lacks sep s → split_char sep s = [s].
Proof.
  induction s as [|c s IH]; [done|]. intros [Hc Hs]. simpl.
  rewrite (proj2 (Ascii.eqb_neq c sep)) by done. by rewrite IH.
Qed.

Lemma split_char_app sep s1 s2 :
  lacks sep s1 →
  split_char sep (s1 +:+ String sep s2) = s1 :: split_char sep s2.
Proof.
  induction s1 as [|c s1 IH].
  - intros _. rewrite append_nil. simpl. by rewrite Ascii.eqb_refl.
  - intros [Hc Hs]. rewrite append_cons. simpl.
    rewrite (proj2 (Ascii.eqb_neq c sep)) by done. by rewrite IH.
Qed.

Lemma drop_last_snoc s c : drop_last (s +:+ String c EmptyString) = s.
Proof.
  induction s as [|c' s IH]; [done|]. rewrite append_cons. simpl.
  rewrite IH. destruct s; by rewrite ?append_nil, ?append_cons.
Qed.

Lemma lacks_snoc a d c : lacks a d → c ≠ a → lacks a (d +:+ String c EmptyString).
Proof. intros. apply lacks_app. by repeat split. Qed.

(** A decimal numeral holds digits only. *)
Lemma pretty_N_go_lacks a x s :
  (∀ d, pretty_N_char d ≠ a) →
  ∃ d, pretty_N_go x s = d +:+ s ∧ lacks a d.
Proof.
  intros Ha. revert s. induction (N.lt_wf_0 x) as [x _ IH]; intros s.
  destruct (decide (x = 0)%N) as [->|Hx].
  - exists EmptyString. by rewrite pretty_N_go_0.
  - rewrite pretty_N_go_step by lia.
    destruct (IH (x `div` 10)%N) with (s := String (pretty_N_char (x `mod` 10)) s)
      as (d & -> & Hd).
    { apply N.div_lt; lia. }
    exists (d +:+ String (pretty_N_char (x `mod` 10)) EmptyString). split.
    + by rewrite append_assoc_string.
    + by apply lacks_snoc.
Qed.

Lemma pretty_nat_lacks a (n : nat) :
  (∀ d, pretty_N_char d ≠ a) → lacks a (pretty n).
Proof.
  intros Ha. unfold pretty, pretty_nat, pretty, pretty_N.
  destruct (decide (N.of_nat n = 0)%N).
  - split; [|done]. apply (Ha 0%N).
  - destruct (pretty_N_go_lacks a (N.of_nat n) EmptyString Ha) as (d & -> & Hd).
    apply lacks_app. by split.
Qed.

Lemma digit_not_paren d : pretty_N_char d ≠ "("%char.
Proof. unfold pretty_N_char. by repeat case_match. Qed.

(** [split('T')[0]] of line 102, read through [split]. *)
Lemma before_T_split s : head (split_char "T" s) = Some (before_T s).
Proof.
  induction s as [|c s IH]; [done|]. simpl.
  destruct (Ascii.eqb c "T"); [done|].
  destruct (split_char "T" s) as [|piece pieces]; [done|].
  simpl in *. by injection IH as ->.
Qed.

Lemma war_id_of_date i x w :
  war_id_of i x = Ok w →
  ∃ day, split_T_0 (field x "createdDate" (PStr "N/A")) = Ok day ∧
         w = "War " +:+ pretty (i + 1)%nat +:+ " (" +:+ day +:+ ")" ∧
         (lacks "(" day → war_date w = Ok day).
Proof.
  unfold war_id_of. intros H.
  inv_bind H as created Hc. inv_bind H as day Hday. injection H as <-.
  exists day. rewrite (get_field _ _ _ _ Hc). split_and!; [done..|]. intros Hlacks.
  unfold war_date.
  replace ("War " +:+ pretty (i + 1)%nat +:+ " (" +:+ day +:+ ")")
    with (("War " +:+ pretty (i + 1)%nat +:+ " ") +:+ String "(" (day +:+ ")"))
    by (by rewrite !append_assoc_string).
  rewrite split_char_app.
  - rewrite split_char_lacks.
    2:{ apply lacks_app. split; [done|]. split; [discriminate|exact I]. }
    simpl. by rewrite drop_last_snoc.
  - apply lacks_app. split; [by repeat split|].
    apply lacks_app. split; [|by repeat split].
    apply pretty_nat_lacks, digit_not_paren.
Qed.

Section war_dates.
Context (container_repr : pyval → string).

(** X11: the identifier of the war at position [i] of the log is "War",
    the number [i + 1] and, in parentheses, the date fragment of the war;
    the date [build_history_html] cuts out of the identifier is that
    fragment, as long as the fragment holds no opening parenthesis. *)
Theorem war_date_recovers_day clan_tag cd cw wl st tags ids bm i w x :
  generate_html_for_clan container_repr clan_tag cd cw wl
    = Ok (ClanReport st tags ids bm) →
  ids !! i = Some w → war_log_items wl !! i = Some x →
  ∃ day, split_T_0 (field x "createdDate" (PStr "N/A")) = Ok day ∧
         w = "War " +:+ pretty (i + 1)%nat +:+ " (" +:+ day +:+ ")" ∧
         (lacks "(" day → war_date w = Ok day).
Proof.
  intros (_ & _ & _ & _ & _ & _ & Hids & _)%generate_html_for_clan_Ok Hw Hx.
  unfold war_ids_of in Hids. apply imapM_lookup in Hids as [_ Hlook].
  destruct (Hlook _ _ Hw) as (x' & Hx' & Hid).
  assert (x' = x) as -> by congruence. by apply war_id_of_date.
Qed.

End war_dates.

(** ** The request URL *)

Lemma str_replace_char a new c s :
  str_replace (String a EmptyString) new (String c s) =
  if Ascii.ascii_dec a c then new +:+ str_replace (String a EmptyString) new s
  else String c (str_replace (String a EmptyString) new s).
Proof.
  unfold str_replace. simpl. destruct (Ascii.ascii_dec a c); [|done].
  by destruct s.
Qed.

Lemma str_replace_char_lacks a new s :
  lacks a new → lacks a (str_replace (String a EmptyString) new s).
Proof.
  intros Hnew. induction s as [|c s IH]; [done|].
  rewrite str_replace_char. destruct (Ascii.ascii_dec a c) as [->|Hne].
  - apply lacks_app. by split.
  - split; [congruence|done].
Qed.

Lemma str_replace_char_id a new s :
  lacks a s → str_replace (String a EmptyString) new s = s.
Proof.
  induction s as [|c s IH]; [done|]. intros [Hc Hs].
  rewrite str_replace_char. destruct (Ascii.ascii_dec a c) as [->|Hne]; [done|].
  by rewrite IH.
Qed.

(** X12: the tag written into the URL and the section identifier hold no
    [#]; a tag that has its only [#] in front becomes [%23] and the rest,
    respectively the rest alone; the URLs of the three endpoints are the
    base, the path and the encoded tag, and hold no [#]. *)
Theorem url_and_clan_id_without_hash :
  (∀ t, lacks "#" (encoded_clan_tag t) ∧ lacks "#" (clan_id_of t)) ∧
  (∀ t, lacks "#" t →
        encoded_clan_tag ("#" +:+ t) = "%23" +:+ t ∧ clan_id_of ("#" +:+ t) = t) ∧
  (∀ t,
     api_url "/clans/{clanTag}" t = BASE_URL +:+ "/clans/" +:+ encoded_clan_tag t ∧
     api_url "/clans/{clanTag}/currentriverrace" t =
       BASE_URL +:+ "/clans/" +:+ encoded_clan_tag t +:+ "/currentriverrace" ∧
     api_url "/clans/{clanTag}/riverracelog?limit=5" t =
       BASE_URL +:+ "/clans/" +:+ encoded_clan_tag t +:+ "/riverracelog?limit=5" ∧
     lacks "#" (api_url "/clans/{clanTag}" t) ∧
     lacks "#" (api_url "/clans/{clanTag}/currentriverrace" t) ∧
     lacks "#" (api_url "/clans/{clanTag}/riverracelog?limit=5" t)).
Proof.
  assert (∀ t, lacks "#" (encoded_clan_tag t)) as Henc.
  { intros t. apply str_replace_char_lacks. by repeat split. }
  split_and!.
  - intros t. split; [done|]. by apply str_replace_char_lacks.
  - intros t Ht. unfold encoded_clan_tag, clan_id_of.
    change ("#" +:+ t) with (String "#" t). rewrite !str_replace_char.
    destruct (Ascii.ascii_dec "#" "#"); [|done].
    by rewrite !str_replace_char_id.
  - intros t.
    assert (api_url "/clans/{clanTag}" t =
            BASE_URL +:+ "/clans/" +:+ encoded_clan_tag t) as H1.
    { unfold api_url, str_replace. generalize (encoded_clan_tag t). intros e.
      cbv -[String.append]. by rewrite append_nil_r. }
    assert (api_url "/clans/{clanTag}/currentriverrace" t =
            BASE_URL +:+ "/clans/" +:+ encoded_clan_tag t +:+ "/currentriverrace") as H2.
    { unfold api_url, str_replace. generalize (encoded_clan_tag t). intros e.
      by cbv -[String.append]. }
    assert (api_url "/clans/{clanTag}/riverracelog?limit=5" t =
            BASE_URL +:+ "/clans/" +:+ encoded_clan_tag t +:+ "/riverracelog?limit=5") as H3.
    { unfold api_url, str_replace. generalize (encoded_clan_tag t). intros e.
      by cbv -[String.append]. }
    split_and!; [done..| | |].
    + rewrite H1, !lacks_app. split_and!; [by repeat split..|done].
    + rewrite H2, !lacks_app. split_and!; [by repeat split..|done|by repeat split].
    + rewrite H3, !lacks_app. split_and!; [by repeat split..|done|by repeat split].
Qed.

Lemma url_and_clan_id_without_hash_witness :
  encoded_clan_tag ("#" +:+ "2V2VRRLJ") = "%23" +:+ "2V2VRRLJ" ∧
  clan_id_of ("#" +:+ "2V2VRRLJ") = "2V2VRRLJ".
Proof.
  apply (proj1 (proj2 url_and_clan_id_without_hash) "2V2VRRLJ").
  by repeat split.
Defined.

(** ** The indicators of the current-war table *)

(** X13: the day of the war shown is at least 1; a member shown with all
    battles complete is never marked as having missed battles on a prior
    day, and on day 1 nobody is. *)
Theorem complete_is_never_missed cw day :
  war_day_number cw = Ok day →
  1 ≤ day ∧
  ∀ decks_used daily missed,
    daily_status_html day decks_used = Ok daily →
    missed_battle_indicator_html day decks_used = Ok missed →
    (missed = EmptyString ∨ missed = missed_prior_day_html) ∧
    (daily = all_complete_html → missed = EmptyString) ∧
    (day = 1 → missed = EmptyString).
Proof.
  unfold war_day_number. intros H.
  inv_bind H as period_index Hp. inv_bind H as z Hz. injection H as <-.
  split; [lia|]. intros decks_used daily missed Hdaily Hmissed.
  unfold daily_status_html in Hdaily. inv_bind Hdaily as d Hd.
  unfold missed_battle_indicator_html, cumulative_max_battles in *.
  destruct (Z.ltb_spec 1 (1 `max` (z - 2))) as [Hday|Hday].
  - inv_bind Hmissed as d' Hd'. assert (d' = d) as -> by congruence.
    destruct (Z.ltb_spec d ((1 `max` (z - 2) - 1) * 4)) as [Hlt|Hge];
      injection Hmissed as <-.
    + split_and!; [by right| |lia].
      destruct (Z.leb_spec ((1 `max` (z - 2)) * 4) d); [lia|].
      injection Hdaily as <-. intros Heq. exfalso. revert Heq.
      cbv [waiting_html all_complete_html indicator_span quote String.append].
      discriminate.
    + split_and!; [by left|done..].
  - injection Hmissed as <-. split_and!; [by left|done..].
Qed.

Lemma complete_is_never_missed_witness :
  1 ≤ 3 ∧
  ∀ decks_used daily missed,
    daily_status_html 3 decks_used = Ok daily →
    missed_battle_indicator_html 3 decks_used = Ok missed →
    (missed = EmptyString ∨ missed = missed_prior_day_html) ∧
    (daily = all_complete_html → missed = EmptyString) ∧
    (3 = 1 → missed = EmptyString).
Proof.
  apply (complete_is_never_missed (PDict [("periodIndex", PInt 5)]) 3).
  vm_compute. reflexivity.
Defined.

(** ** Examples of the further properties *)

Lemma total_possible_battles_per_war_witness :
  total_possible_battles (report_benchmarks sample_run) =
    sum_list_Z (war_benchmark "#2V2VRRLJ" <$> war_log_items sample_war_log) ∧
  ("#2V2VRRLJ" ∉ TOP_CLANS_FOR_BENCHMARK →
   total_possible_battles (report_benchmarks sample_run) =
     16 * Z.of_nat (length (war_log_items sample_war_log))).
Proof.
  apply (total_possible_battles_per_war repr_elided "#2V2VRRLJ" sample_clan
           sample_current_war sample_war_log (report_player_stats sample_run)
           (report_member_tags sample_run) (report_war_ids sample_run)
           (report_benchmarks sample_run)).
  vm_compute. reflexivity.
Defined.

Lemma roster_names_kept_witness :
  report_member_tags sample_run = roster_tags sample_clan ∧
  ∀ k, k ∈ report_member_tags sample_run →
    ∃ r m, report_player_stats sample_run !! k = Some r ∧
      m ∈ roster sample_clan ∧ tag_key m = Some k ∧
      (py_eq_str (field m "name" PNone) placeholder_name = false →
       name r = field m "name" PNone).
Proof.
  apply (roster_names_kept repr_elided "#2V2VRRLJ" sample_clan sample_current_war
           sample_war_log (report_player_stats sample_run)
           (report_member_tags sample_run) (report_war_ids sample_run)
           (report_benchmarks sample_run)).
  vm_compute. reflexivity.
Defined.

Lemma current_war_fields_from_payload_witness :
  current_war_decks_used sample_ann =
    match last (tagged (KStr "#A") (current_war_participants sample_current_war)) with
    | Some p => field p "decksUsed" (PInt 0)
    | None => PInt 0
    end ∧
  current_war_fame sample_ann =
    match last (tagged (KStr "#A") (current_war_participants sample_current_war)) with
    | Some p => field p "fame" (PInt 0)
    | None => PInt 0
    end.
Proof.
  apply (current_war_fields_from_payload repr_elided "#2V2VRRLJ" sample_clan
           sample_current_war sample_war_log (report_player_stats sample_run)
           (report_member_tags sample_run) (report_war_ids sample_run)
           (report_benchmarks sample_run) (KStr "#A") sample_ann).
  - vm_compute. reflexivity.
  - vm_compute. reflexivity.
  - apply (bool_decide_unpack _). vm_compute. exact I.
Defined.


Lemma non_object_payload_raises_witness :
  ∃ e, generate_html_for_clan repr_elided "#2V2VRRLJ"
         sample_clan (PList [PInt 1]) sample_war_log = Raise e.
Proof.
  apply (non_object_payload_raises repr_elided "#2V2VRRLJ"
           sample_clan (PList [PInt 1]) sample_war_log);
    [reflexivity..|]. right. left. reflexivity.
Defined.

Lemma war_date_recovers_day_witness :
  ∃ day, split_T_0 (field doubled_war "createdDate" (PStr "N/A")) = Ok day ∧
         "War 1 (20240101)" = "War " +:+ pretty (0 + 1)%nat +:+ " (" +:+ day +:+ ")" ∧
         (lacks "(" day → war_date "War 1 (20240101)" = Ok day).
Proof.
  apply (war_date_recovers_day repr_elided "#2V2VRRLJ" sample_clan sample_current_war
           doubled_war_log (report_player_stats doubled_run)
           (report_member_tags doubled_run) (report_war_ids doubled_run)
           (report_benchmarks doubled_run) 0%nat "War 1 (20240101)" doubled_war);
    vm_compute; reflexivity.
Defined.

(** ** When the estimator raises *)

Lemma py_gt0_py_int v : (∃ b, py_gt0 v = Ok b) ↔ numeric v.
Proof. unfold numeric. destruct v; simpl; split; intros [? ?]; eauto; done. Qed.

Lemma py_gt0_of_py_int v z : py_int v = Ok z → py_gt0 v = Ok (0 <? z).
Proof. destruct v; try done; simpl; intros [= <-]; [by destruct b|done]. Qed.

Lemma decks_used_list_Ok_iff ps :
  (∃ decks, decks_used_list ps = Ok decks) ↔
  Forall (λ p, ∃ d, get p "decksUsed" (PInt 0) = Ok d ∧ numeric d) ps.
Proof.
  induction ps as [|p ps IH]; cbn [decks_used_list].
  - split; [constructor|eauto].
  - rewrite Forall_cons, <- IH. split.
    + intros [decks H]. inv_bind H as d Hd. inv_bind H as keep Hkeep.
      assert (numeric d) by (apply py_gt0_py_int; eauto).
      split; [eauto|]. destruct keep; [|eauto].
      inv_bind H as d' Hd'. inv_bind H as z Hz. inv_bind H as zs Hzs. eauto.
    + intros [(d & Hd & Hnum) [decks Hdecks]].
      destruct (proj2 (py_gt0_py_int d) Hnum) as [keep Hkeep].
      destruct Hnum as [z Hz]. exists (if keep then z :: decks else decks).
      rewrite Hd. cbn [bind]. rewrite Hkeep. cbn [bind].
      destruct keep; [|done]. cbn [bind]. rewrite Hz. cbn [bind].
      by rewrite Hdecks.
Qed.

(** On a list, the estimator returns exactly when the list comprehension of
    line 56 does. *)
Lemma calculate_fair_benchmark_Ok_iff ps :
  (∃ b, calculate_fair_benchmark (PList ps) = Ok b) ↔
  Forall (λ p, ∃ d, get p "decksUsed" (PInt 0) = Ok d ∧ numeric d) ps.
Proof.
  rewrite <- decks_used_list_Ok_iff. split.
  - intros [b H]. unfold calculate_fair_benchmark in H.
    destruct ps as [|p ps]; [simpl; eauto|].
    cbn [truthy negb py_iter bind] in H.
    destruct (decks_used_list (p :: ps)) as [decks|e]; [eauto|done].
  - intros [decks Hd]. rewrite (calculate_fair_benchmark_unfold _ _ Hd).
    destruct decks as [|z zs]; [eauto|].
    destruct (most_common_1_nonempty (z :: zs)) as (m & n & ->); [done|]. eauto.
Qed.

Lemma non_number_not_numeric d : non_number d → ¬ numeric d.
Proof. intros Hd [z Hz]. by destruct d. Qed.

(** X15: on a list each element of which is an object whose [decksUsed] is
    absent, an integer or a boolean, the estimator returns; on a list with
    an element that is no object, or whose [decksUsed] is [None], a string,
    a list or an object, it raises. *)
Theorem fair_benchmark_returns_or_raises ps :
  (Forall (λ p, is_dict p = true ∧ numeric (field p "decksUsed" (PInt 0))) ps →
   ∃ b, calculate_fair_benchmark (PList ps) = Ok b) ∧
  (Exists (λ p, is_dict p = false ∨ non_number (field p "decksUsed" (PInt 0))) ps →
   ∃ e, calculate_fair_benchmark (PList ps) = Raise e).
Proof.
  split.
  - intros Hall. apply calculate_fair_benchmark_Ok_iff.
    eapply Forall_impl; [exact Hall|]. intros p [Hdict Hnum]. simpl in *.
    destruct p; try done. eexists. split; [done|]. exact Hnum.
  - intros Hbad.
    destruct (calculate_fair_benchmark (PList ps)) as [b|e] eqn:H; [|eauto].
    exfalso. assert (∃ b, calculate_fair_benchmark (PList ps) = Ok b) as Hok by eauto.
    apply calculate_fair_benchmark_Ok_iff in Hok.
    apply Exists_exists in Hbad as (p & Hp & Hbad).
    rewrite Forall_forall in Hok. destruct (Hok p Hp) as (d & Hd & Hnum).
    destruct Hbad as [Hdict|Hnon].
    + by destruct p.
    + rewrite (get_field _ _ _ _ Hd) in Hnon. by apply (non_number_not_numeric d).
Qed.

Lemma fair_benchmark_returns_or_raises_witness :
  (∃ b, calculate_fair_benchmark
          (PList [with_attacks 4; PDict []; PDict [("decksUsed", PBool true)]]) = Ok b) ∧
  (∃ e, calculate_fair_benchmark
          (PList [with_attacks 4; PDict [("decksUsed", PStr "4")]]) = Raise e).
Proof.
  split.
  - apply (proj1 (fair_benchmark_returns_or_raises
                    [with_attacks 4; PDict []; PDict [("decksUsed", PBool true)]])).
    repeat constructor; vm_compute; eauto.
  - apply (proj2 (fair_benchmark_returns_or_raises
                    [with_attacks 4; PDict [("decksUsed", PStr "4")]])).
    right. left. right. exact I.
Defined.

(** ** Histories hold numbers *)

Section numbers.
Context (container_repr : pyval → string).

Lemma record_participant_numeric w st p st' :
  record_participant container_repr w st p = Ok st' →
  numeric_histories st → numeric_histories st'.
Proof.
  unfold record_participant. intros H Hst.
  inv_bind H as t Ht. inv_bind H as f Hf. inv_bind H as d Hd. inv_bind H as k Hk.
  destruct (st !! k) as [r|] eqn:Hr; [|by injection H as <-].
  inv_bind H as r1 Hr1. inv_bind H as zf Hzf. inv_bind H as zd Hzd.
  injection H as <-.
  assert (war_history r1 = war_history r) as Hh.
  { destruct (py_eq_str _ _); [|by injection Hr1 as <-].
    inv_bind Hr1 as n Hn. by injection Hr1 as <-. }
  intros k' r' w' e Hr' He. destruct (decide (k = k')) as [->|Hne].
  - rewrite lookup_insert_eq in Hr'. injection Hr' as <-. simpl in He.
    destruct (decide (w = w')) as [->|Hw].
    + rewrite lookup_insert_eq in He. injection He as <-.
      split; simpl; unfold numeric; eauto.
    + rewrite lookup_insert_ne, Hh in He by done. by eapply Hst.
  - rewrite lookup_insert_ne in Hr' by done. by eapply Hst.
Qed.

Lemma process_war_numeric clan_tag s b w x s' b' :
  process_war container_repr clan_tag (s, b) (w, x) = Ok (s', b') →
  numeric_histories s → numeric_histories s'.
Proof.
  intros [_ H]%process_war_Ok Hs.
  eapply (foldM_invariant numeric_histories); [|
    |exact H].
  - intros st p st' _ Hst Hstep. by eapply record_participant_numeric.
  - intros k r w' e Hr He. rewrite lookup_fmap in Hr.
    destruct (s !! k) as [r0|] eqn:Hr0; [|done]. injection Hr as <-.
    simpl in He. destruct (decide (w = w')) as [->|Hw].
    + rewrite lookup_insert_eq in He. injection He as <-.
      split; simpl; unfold numeric; simpl; eauto.
    + rewrite lookup_insert_ne in He by done. by eapply Hs.
Qed.

(** X14: every history entry of the registry holds numbers; the test by
    which the history table decides to show a player therefore never
    raises, and it hides the player exactly when neither the attacks nor
    the fame of the entry are positive. *)
Theorem history_entries_are_numbers clan_tag cd cw wl st tags ids bm k r w e :
  generate_html_for_clan container_repr clan_tag cd cw wl
    = Ok (ClanReport st tags ids bm) →
  st !! k = Some r → war_history r !! w = Some e →
  numeric_entry e ∧
  ∃ shown, history_row_shown e = Ok shown ∧
    (shown = false ↔ int_of (decksUsed e) ≤ 0 ∧ int_of (fame e) ≤ 0).
Proof.
  intros (st0 & st1 & allp & _ & Hseed & Hov & _ & _ & Hloop)%generate_html_for_clan_Ok Hr He.
  assert (numeric_histories st) as Hnum.
  { change st with ((st, bm).1).
    eapply (foldM_invariant (λ state, numeric_histories state.1)); [| |exact Hloop].
    - intros [s b] [w' x] [s' b'] _ Hs Hstep. simpl in *.
      by eapply process_war_numeric.
    - simpl. intros k' r' w' e' Hr' He'.
      destruct (initial_records _ _ _ _ _ _ _ Hseed Hov Hr') as (Hh & _).
      by rewrite Hh, lookup_empty in He'. }
  destruct (Hnum _ _ _ _ Hr He) as [[zf Hf] [zd Hd]]. split.
  { split; unfold numeric; eauto. }
  unfold history_row_shown.
  rewrite (py_gt0_of_py_int _ _ Hd), (py_int_int_of _ _ Hd), (py_int_int_of _ _ Hf).
  cbn [bind]. destruct (Z.ltb_spec 0 zd).
  - exists true. split; [done|]. split; [done|lia].
  - rewrite (py_gt0_of_py_int _ _ Hf). exists (0 <? zf). split; [done|].
    destruct (Z.ltb_spec 0 zf); split; try done; lia.
Qed.

End numbers.

Lemma history_entries_are_numbers_witness :
  numeric_entry (last_entry (tagged (KStr "#A") (war_participants "#2V2VRRLJ" doubled_war))) ∧
  ∃ shown,
    history_row_shown
      (last_entry (tagged (KStr "#A") (war_participants "#2V2VRRLJ" doubled_war))) = Ok shown ∧
    (shown = false ↔
     int_of (decksUsed (last_entry (tagged (KStr "#A") (war_participants "#2V2VRRLJ" doubled_war)))) ≤ 0 ∧
     int_of (fame (last_entry (tagged (KStr "#A") (war_participants "#2V2VRRLJ" doubled_war)))) ≤ 0).
Proof.
  apply (history_entries_are_numbers repr_elided "#2V2VRRLJ" sample_clan
           sample_current_war doubled_war_log (report_player_stats doubled_run)
           (report_member_tags doubled_run) (report_war_ids doubled_run)
           (report_benchmarks doubled_run) (KStr "#A") doubled_ann "War 1 (20240101)");
    vm_compute; reflexivity.
Defined.

(** * The first standing of the clan *)

(** ** The search of the per-war loop *)

(** When the search of lines 120-124 returns, what it returns holds the
    participants of the first standing, in payload order, whose clan tag is
    the clan under report, and nothing when no standing is of the clan. *)
Lemma find_war_participants_first clan_tag ss wp :
  find_war_participants clan_tag ss = Ok wp →
  elements_of wp =
    match filter (λ s, py_eq_str (standing_clan_tag s) clan_tag = true) ss with
    | s :: _ => standing_participants s
    | [] => []
    end.
Proof.
  induction ss as [|s ss IH]; intros H; simpl in H.
  - by injection H as <-.
  - inv_bind H as c Hc. inv_bind H as t Ht.
    assert (standing_clan_tag s = t) as Hs.
    { unfold standing_clan_tag. by rewrite (get_field _ _ _ _ Hc), (get_field _ _ _ _ Ht). }
    rewrite filter_cons.
    destruct (py_eq_str t clan_tag) eqn:Heq.
    + rewrite decide_True by (by rewrite Hs). inv_bind H as c' Hc'.
      unfold standing_participants.
      by rewrite (get_field _ _ _ _ Hc'), (get_field _ _ _ _ H).
    + rewrite decide_False by (by rewrite Hs, Heq). by apply IH.
Qed.

Section first_standing.
Context (container_repr : pyval → string).

Lemma process_war_first_standing clan_tag s b w x s' b' :
  process_war container_repr clan_tag (s, b) (w, x) = Ok (s', b') →
  ∃ wp,
    find_war_participants clan_tag (elements_of (field x "standings" (PList [])))
      = Ok wp ∧
    war_participants clan_tag x = first_standing_participants clan_tag x.
Proof.
  unfold process_war. intros H.
  inv_bind H as standings Hst. inv_bind H as ss Hss. inv_bind H as wp Hwp.
  rewrite <- (py_iter_elements _ _ Hss), <- (get_field _ _ _ _ Hst) in Hwp.
  exists wp. split; [done|].
  unfold war_participants, first_standing_participants, clan_standings.
  rewrite Hwp. by apply find_war_participants_first.
Qed.

Lemma war_loop_first_standing clan_tag es s b s' b' x :
  foldM (process_war container_repr clan_tag) (s, b) es = Ok (s', b') →
  x ∈ es.*2 →
  war_participants clan_tag x = first_standing_participants clan_tag x.
Proof.
  revert s b. induction es as [|[w x0] es IH]; intros s b H Hx; simpl in *.
  - by apply not_elem_of_nil in Hx.
  - inv_bind H as st1 E. destruct st1 as [s1 b1].
    apply elem_of_cons in Hx as [->|Hx]; [|by eapply IH].
    by destruct (process_war_first_standing _ _ _ _ _ _ _ E) as (_ & _ & ?).
Qed.

(** In a report that is returned, the participants the per-war loop walks
    for a logged war are those of the war's first standing of the clan. *)
Lemma logged_war_first_standing clan_tag cd cw wl st tags ids bm x :
  generate_html_for_clan container_repr clan_tag cd cw wl
    = Ok (ClanReport st tags ids bm) →
  x ∈ war_log_items wl →
  war_participants clan_tag x = first_standing_participants clan_tag x.
Proof.
  intros (st0 & st1 & allp & _ & _ & _ & Hids & _ & Hloop)%generate_html_for_clan_Ok Hx.
  apply war_ids_of_spec in Hids as [Hlen Hnd].
  eapply war_loop_first_standing; [exact Hloop|]. by rewrite zip_war_items.
Qed.

Lemma logged_wars_first_standing clan_tag cd cw wl st tags ids bm :
  generate_html_for_clan container_repr clan_tag cd cw wl
    = Ok (ClanReport st tags ids bm) →
  recorded_participants clan_tag (war_log_items wl) =
  logged_participants clan_tag (war_log_items wl).
Proof.
  intros H. unfold recorded_participants, logged_participants.
  assert (∀ x, x ∈ war_log_items wl →
            war_participants clan_tag x = first_standing_participants clan_tag x)
    as Hall by (intros; by eapply logged_war_first_standing).
  induction (war_log_items wl) as [|x l IH]; [done|].
  rewrite !bind_cons, Hall by left. f_equal. apply IH.
  intros. apply Hall. by right.
Qed.


(** X5: whatever the participant lists hold, the cumulative fame and the
    cumulative attacks of a record are the sums over every participant
    entry that carries the record's tag in the first standing of the clan
    of each logged war; an entry listed twice counts twice. *)
Theorem totals_sum_of_entries clan_tag cd cw wl st tags ids bm k r :
  generate_html_for_clan container_repr clan_tag cd cw wl
    = Ok (ClanReport st tags ids bm) →
  st !! k = Some r →
  total_war_fame r =
    fame_sum (tagged k (logged_participants clan_tag (war_log_items wl))) ∧
  total_decks_used r =
    decks_sum (tagged k (logged_participants clan_tag (war_log_items wl))).
Proof.
  intros H Hr. rewrite <- (logged_wars_first_standing _ _ _ _ _ _ _ _ H).
  by eapply totals_over_recorded_participants.
Qed.

(** X6: the history entry of a record for a war is the entry of the last
    participant with the record's tag in the war's first standing of the
    clan, and the zero entry when there is none. *)
Theorem history_holds_last_entry clan_tag cd cw wl st tags ids bm k r i w x :
  generate_html_for_clan container_repr clan_tag cd cw wl
    = Ok (ClanReport st tags ids bm) →
  st !! k = Some r → ids !! i = Some w → war_log_items wl !! i = Some x →
  war_history r !! w =
    Some (last_entry (tagged k (first_standing_participants clan_tag x))).
Proof.
  intros H Hr Hw Hx.
  rewrite <- (logged_war_first_standing _ _ _ _ _ _ _ _ x H)
    by (by eapply list_elem_of_lookup_2).
  by eapply history_of_recorded_participants.
Qed.

Lemma calculate_fair_benchmark_elements wp z :
  calculate_fair_benchmark wp = Ok z →
  calculate_fair_benchmark (PList (elements_of wp)) = Ok z.
Proof.
  unfold calculate_fair_benchmark. intros H.
  destruct (truthy wp) eqn:Ht; simpl in H.
  - inv_bind H as ps Hps. rewrite (py_iter_elements _ _ Hps).
    assert (truthy (PList ps) = true) as ->.
    { destruct wp as [| | |s|l|kvs]; try done; simpl in *.
      - injection Hps as <-. by destruct s.
      - by injection Hps as <-.
      - injection Hps as <-. by destruct kvs. }
    simpl. done.
  - injection H as <-.
    assert (elements_of wp = []) as ->; [|done].
    destruct wp as [| | |s|l|kvs]; try done; simpl in *.
    + by destruct s.
    + by destruct l.
    + by destruct kvs.
Qed.

(** X3: the benchmark map has one entry for each war identifier; for a
    clan outside the configured top clans it is 16, for a top clan it is
    what the estimator returns on the participants of the war's first
    standing of the clan. *)
Theorem war_benchmarks_per_war clan_tag cd cw wl st tags ids bm :
  generate_html_for_clan container_repr clan_tag cd cw wl
    = Ok (ClanReport st tags ids bm) →
  dom bm = list_to_set ids ∧
  ∀ i w x, ids !! i = Some w → war_log_items wl !! i = Some x →
    ∃ z, bm !! w = Some z ∧
      (clan_tag ∉ TOP_CLANS_FOR_BENCHMARK → z = 16) ∧
      (clan_tag ∈ TOP_CLANS_FOR_BENCHMARK →
       calculate_fair_benchmark (PList (first_standing_participants clan_tag x))
         = Ok z).
Proof.
  intros H.
  destruct (benchmarks_of_recorded_wars container_repr _ _ _ _ _ _ _ _ H) as [Hdom Hwars].
  split; [done|]. intros i w x Hw Hx.
  destruct (Hwars i w x Hw Hx) as (z & Hz & _ & Hnot & Htop).
  exists z. split_and!; [done..|]. intros Hin.
  destruct (Htop Hin) as (wp & Hwp & Hb).
  rewrite <- (logged_war_first_standing _ _ _ _ _ _ _ _ x H)
    by (by eapply list_elem_of_lookup_2).
  unfold war_participants. rewrite Hwp.
  by apply calculate_fair_benchmark_elements.
Qed.

End first_standing.

(** ** The name of a former member *)

Section first_match.
Context (container_repr : pyval → string).

Lemma first_standing_in_clan_participants clan_tag x p :
  p ∈ first_standing_participants clan_tag x → p ∈ clan_participants clan_tag x.
Proof.
  unfold first_standing_participants, clan_participants.
  destruct (clan_standings clan_tag x) as [|s ss]; [by intros ?%not_elem_of_nil|].
  intros Hp. rewrite bind_cons. apply elem_of_app. by left.
Qed.

Lemma process_war_unmatched clan_tag s b w x s' b' k r :
  process_war container_repr clan_tag (s, b) (w, x) = Ok (s', b') →
  s !! k = Some r → k ∉ first_standing_tags clan_tag x →
  ∃ r', s' !! k = Some r' ∧ name r' = name r.
Proof.
  intros H Hr Hk.
  destruct (process_war_first_standing container_repr _ _ _ _ _ _ _ H) as (_ & _ & Hfirst).
  destruct (process_war_record container_repr _ _ _ _ _ _ _ _ _ H Hr)
    as (r' & Hr' & _ & _ & _ & Hname).
  exists r'. split; [done|]. apply Hname. apply tagged_nil_iff. by rewrite Hfirst.
Qed.

Lemma war_loop_unmatched clan_tag es s b s' b' k r :
  foldM (process_war container_repr clan_tag) (s, b) es = Ok (s', b') →
  s !! k = Some r →
  (∀ x, x ∈ es.*2 → k ∉ first_standing_tags clan_tag x) →
  ∃ r', s' !! k = Some r' ∧ name r' = name r.
Proof.
  revert s b r. induction es as [|[w x] es IH]; intros s b r H Hr Hno; simpl in *.
  - injection H as <- <-. eauto.
  - inv_bind H as st1 E. destruct st1 as [s1 b1].
    destruct (process_war_unmatched _ _ _ _ _ _ _ _ _ E Hr) as (r1 & Hr1 & Hn1).
    { apply Hno. left. }
    destruct (IH _ _ _ H Hr1) as (r' & Hr' & Hn').
    { intros x' Hx'. apply Hno. by right. }
    exists r'. split; [done|]. by rewrite Hn', Hn1.
Qed.

Lemma process_war_first_match clan_tag s b w x s' b' l1 p l2 k r :
  process_war container_repr clan_tag (s, b) (w, x) = Ok (s', b') →
  first_standing_participants clan_tag x = l1 ++ p :: l2 →
  k ∉ omap tag_key l1 → tag_key p = Some k →
  s !! k = Some r → name r = PStr placeholder_name →
  py_str container_repr (field p "name" PNone) ≠ "Former Member" →
  ∃ r', s' !! k = Some r' ∧ name r' = PStr (starred_name container_repr p).
Proof.
  intros H Hps Hl1 Hp Hr Hn Hne.
  destruct (process_war_first_standing container_repr _ _ _ _ _ _ _ H) as (_ & _ & Hfirst).
  apply process_war_Ok in H as [_ H]. rewrite Hfirst, Hps in H.
  apply (record_loop_first_match container_repr w l1 p l2 _ _ k
           (set_war_history w zero_entry r) H); [done|done| |done|done].
  by rewrite lookup_fmap, Hr.
Qed.

Lemma zip_middle (ids : list string) (ws1 : list pyval) x ws2 :
  length ids = length (ws1 ++ x :: ws2) →
  ∃ ids1 w ids2, ids = ids1 ++ w :: ids2 ∧ length ids1 = length ws1 ∧
    zip ids (ws1 ++ x :: ws2) = zip ids1 ws1 ++ (w, x) :: zip ids2 ws2.
Proof.
  intros Hlen. rewrite length_app in Hlen. simpl in Hlen.
  destruct (drop (length ws1) ids) as [|w ids2] eqn:Hdrop.
  { apply (f_equal length) in Hdrop. rewrite length_drop in Hdrop. simpl in Hdrop. lia. }
  assert (length (take (length ws1) ids) = length ws1) as Hl1
    by (rewrite length_take; lia).
  pose proof (take_drop (length ws1) ids) as Hids. rewrite Hdrop in Hids.
  revert Hl1 Hids. generalize (take (length ws1) ids). intros ids1 Hl1 <-.
  exists ids1, w, ids2. split_and!; [done..|].
  by rewrite zip_with_app.
Qed.

Lemma first_match_names_record clan_tag cd cw wl st tags ids bm k ws1 x ws2 l1 p l2 :
  generate_html_for_clan container_repr clan_tag cd cw wl
    = Ok (ClanReport st tags ids bm) →
  k ∉ roster_tags cd →
  war_log_items wl = ws1 ++ x :: ws2 →
  (∀ x', x' ∈ ws1 → k ∉ first_standing_tags clan_tag x') →
  first_standing_participants clan_tag x = l1 ++ p :: l2 →
  k ∉ omap tag_key l1 → tag_key p = Some k →
  py_str container_repr (field p "name" PNone) ≠ "Former Member" →
  ∃ r, st !! k = Some r ∧ name r = PStr (starred_name container_repr p).
Proof.
  intros H Hroster Hitems Hbefore Hps Hl1 Hp Hne.
  pose proof H as (st0 & st1 & allp & _ & Hseed & Hov & Hids & Hall & Hloop)%generate_html_for_clan_Ok.
  apply war_ids_of_spec in Hids as [Hlen _].
  rewrite Hitems in Hlen, Hloop, Hall.
  destruct (zip_middle _ _ _ _ Hlen) as (ids1 & w & ids2 & _ & Hlen1 & Hzip).
  rewrite Hzip, foldM_app in Hloop.
  inv_bind Hloop as state1 Hloop1. destruct state1 as [s1 b1].
  simpl in Hloop. inv_bind Hloop as state2 Hwar. destruct state2 as [s2 b2].
  assert (k ∈ dom (add_former_members allp st1)) as [r0 Hr0]%elem_of_dom.
  { rewrite add_former_members_dom. apply elem_of_union_r.
    apply add_wars_tags_spec in Hall. rewrite Hall. apply elem_of_union_r.
    apply elem_of_list_to_set, list_elem_of_omap. exists p. split; [|done].
    rewrite bind_app, bind_cons. apply elem_of_app. right. apply elem_of_app. left.
    apply first_standing_in_clan_participants. rewrite Hps.
    apply elem_of_app. right. left. }
  destruct (initial_records _ _ _ _ _ _ _ Hseed Hov Hr0) as (_ & _ & _ & Hformer).
  specialize (Hformer Hroster). subst r0.
  destruct (war_loop_unmatched _ _ _ _ _ _ _ _ Hloop1 Hr0) as (r1 & Hr1 & Hn1).
  { intros x' Hx'. apply Hbefore. by rewrite zip_war_items in Hx'. }
  destruct (process_war_first_match _ _ _ _ _ _ _ _ _ _ _ _ Hwar Hps Hl1 Hp Hr1)
    as (r2 & Hr2 & Hn2); [by rewrite Hn1|done|].
  destruct (war_loop_name container_repr _ _ _ _ _ _ _ _ Hloop Hr2) as (r & Hr & Hn).
  { rewrite Hn2. by apply starred_name_not_placeholder. }
  exists r. split; [done|]. by rewrite Hn.
Qed.

(** C8: a record created for a tag outside the roster starts with the
    placeholder name; a war whose first standing of the clan does not list
    the tag leaves the name as it is; a participant matched to a record
    that carries the placeholder replaces it by its own reported name with
    the former-member mark; the first such participant of a war decides
    the name the record has after that war, unless it is reported as
    "Former Member"; a name other than the placeholder is not changed by
    any later war; so the name in the report is that of the first
    participant with the tag in the first logged war that lists the tag. *)
Theorem former_member_name_settles :
  (∀ allp st k,
     st !! k = None → k ∈ allp →
     add_former_members allp st !! k = Some former_member) ∧
  (∀ clan_tag s b w x s' b' k r,
     process_war container_repr clan_tag (s, b) (w, x) = Ok (s', b') →
     s !! k = Some r → k ∉ first_standing_tags clan_tag x →
     ∃ r', s' !! k = Some r' ∧ name r' = name r) ∧
  (∀ w st p st' k r,
     record_participant container_repr w st p = Ok st' →
     tag_key p = Some k → st !! k = Some r → name r = PStr placeholder_name →
     ∃ r', st' !! k = Some r' ∧ name r' = PStr (starred_name container_repr p)) ∧
  (∀ clan_tag s b w x s' b' l1 p l2 k r,
     process_war container_repr clan_tag (s, b) (w, x) = Ok (s', b') →
     first_standing_participants clan_tag x = l1 ++ p :: l2 →
     k ∉ omap tag_key l1 → tag_key p = Some k →
     s !! k = Some r → name r = PStr placeholder_name →
     py_str container_repr (field p "name" PNone) ≠ "Former Member" →
     ∃ r', s' !! k = Some r' ∧ name r' = PStr (starred_name container_repr p)) ∧
  (∀ clan_tag es s b s' b' k r,
     foldM (process_war container_repr clan_tag) (s, b) es = Ok (s', b') →
     s !! k = Some r → py_eq_str (name r) placeholder_name = false →
     ∃ r', s' !! k = Some r' ∧ name r' = name r) ∧
  (∀ clan_tag cd cw wl st tags ids bm k ws1 x ws2 l1 p l2,
     generate_html_for_clan container_repr clan_tag cd cw wl
       = Ok (ClanReport st tags ids bm) →
     k ∉ roster_tags cd →
     war_log_items wl = ws1 ++ x :: ws2 →
     (∀ x', x' ∈ ws1 → k ∉ first_standing_tags clan_tag x') →
     first_standing_participants clan_tag x = l1 ++ p :: l2 →
     k ∉ omap tag_key l1 → tag_key p = Some k →
     py_str container_repr (field p "name" PNone) ≠ "Former Member" →
     ∃ r, st !! k = Some r ∧ name r = PStr (starred_name container_repr p)).
Proof.
  split_and!.
  - intros allp st k Hk Hin. rewrite add_former_members_lookup, Hk.
    by destruct (decide (k ∈ allp)).
  - intros. by eapply process_war_unmatched.
  - intros w st p st' k r (k0 & Hk0 & ->)%record_participant_Ok Hp Hr Hn.
    assert (k0 = k) as -> by congruence. rewrite Hr, lookup_insert_eq.
    eexists. split; [done|]. unfold recorded. by rewrite Hn.
  - intros. by eapply process_war_first_match.
  - intros. by eapply war_loop_name.
  - intros. by eapply first_match_names_record.
Qed.

End first_match.

(** ** Defaults for absent fields *)

Lemma absent_field k v d : absent k v → field v k d = d.
Proof. destruct v; try done. simpl. unfold field. simpl. by intros ->. Qed.

Lemma absent_elements k v : absent k v → elements_of (field v k (PList [])) = [].
Proof. intros H. by rewrite (absent_field _ _ _ H). Qed.

Section defaults.
Context (container_repr : pyval → string).

Lemma war_ids_of_absent_date items ids i x :
  war_ids_of items = Ok ids → items !! i = Some x → absent "createdDate" x →
  ids !! i = Some ("War " +:+ pretty (i + 1)%nat +:+ " (N/A)").
Proof.
  intros H Hx Habs. unfold war_ids_of in H.
  apply imapM_lookup in H as [Hlen Hall].
  destruct (lookup_lt_is_Some_2 ids i) as [w Hw].
  { rewrite Hlen. by eapply lookup_lt_Some. }
  destruct (Hall i w Hw) as (x' & Hx' & Hid). simpl in Hid.
  assert (x' = x) as -> by congruence.
  apply war_id_of_date in Hid as (day & Hday & -> & _).
  rewrite (absent_field _ _ _ Habs) in Hday. vm_compute in Hday.
  by injection Hday as <-.
Qed.

Lemma war_benchmark_no_standings clan_tag x :
  absent "standings" x → war_benchmark clan_tag x = 16.
Proof.
  intros H. unfold war_benchmark. rewrite (absent_elements _ _ H). simpl.
  by destruct (bool_decide _).
Qed.

Lemma first_standing_no_standings clan_tag x :
  absent "standings" x → first_standing_participants clan_tag x = [].
Proof.
  intros H. unfold first_standing_participants, clan_standings.
  by rewrite (absent_elements _ _ H).
Qed.

Lemma tagless_participant_recorded clan_tag cd cw wl st tags ids bm x p :
  generate_html_for_clan container_repr clan_tag cd cw wl
    = Ok (ClanReport st tags ids bm) →
  x ∈ war_log_items wl → p ∈ first_standing_participants clan_tag x →
  absent "tag" p → is_Some (st !! KNone).
Proof.
  intros H Hx Hp Habs.
  pose proof H as (st0 & st1 & allp & _ & _ & _ & Hids & Hall & Hloop)%generate_html_for_clan_Ok.
  apply war_ids_of_spec in Hids as [Hlen Hnd].
  apply war_loop_dom in Hloop; [|by rewrite zip_war_ids]. simpl in Hloop.
  apply elem_of_dom. rewrite Hloop, add_former_members_dom.
  apply add_wars_tags_spec in Hall. rewrite Hall.
  apply elem_of_union_r, elem_of_union_r, elem_of_list_to_set, list_elem_of_omap.
  exists p. split.
  - apply list_elem_of_bind. exists x. split; [|done].
    by apply first_standing_in_clan_participants.
  - unfold tag_key. by rewrite (absent_field _ _ _ Habs).
Qed.

(** C6: payloads of the documented shape return, whatever fields they
    leave out, a roster member's tag and name excepted; when the three of
    them are truthy the result is a report in which every absent field has
    its default: no member list gives no current member, no item list no
    war, no creation date the identifier "War i (N/A)", no standings the
    benchmark 16 and zero entries, no tag the registry key [None], no fame
    or attacks the value 0 in the history entry and in the current-war
    fields. *)
Theorem absent_fields_never_raise clan_tag cd cw wl :
  clan_data_ok cd = true → current_war_ok cw = true → war_log_ok wl = true →
  (∃ r, generate_html_for_clan container_repr clan_tag cd cw wl = Ok r) ∧
  (truthy cd = true → truthy cw = true → truthy wl = true →
   ∃ st tags ids bm,
     generate_html_for_clan container_repr clan_tag cd cw wl
       = Ok (ClanReport st tags ids bm) ∧
     (absent "memberList" cd → tags = ∅) ∧
     (absent "items" wl → ids = [] ∧ bm = ∅) ∧
     (∀ i x, war_log_items wl !! i = Some x → absent "createdDate" x →
        ids !! i = Some ("War " +:+ pretty (i + 1)%nat +:+ " (N/A)")) ∧
     (∀ i w x, ids !! i = Some w → war_log_items wl !! i = Some x →
        absent "standings" x →
        bm !! w = Some 16 ∧
        ∀ k r, st !! k = Some r → war_history r !! w = Some zero_entry) ∧
     (∀ x p, x ∈ war_log_items wl →
        p ∈ first_standing_participants clan_tag x →
        absent "tag" p → is_Some (st !! KNone)) ∧
     (∀ k r i w x p, st !! k = Some r → ids !! i = Some w →
        war_log_items wl !! i = Some x →
        last (tagged k (first_standing_participants clan_tag x)) = Some p →
        ∃ e, war_history r !! w = Some e ∧
          (absent "fame" p → fame e = PInt 0) ∧
          (absent "decksUsed" p → decksUsed e = PInt 0)) ∧
     (∀ k r p, st !! k = Some r → k ∈ roster_tags cd →
        last (tagged k (current_war_participants cw)) = Some p →
        (absent "fame" p → current_war_fame r = PInt 0) ∧
        (absent "decksUsed" p → current_war_decks_used r = PInt 0))).
Proof.
  intros Hcd Hcw Hwl.
  destruct (well_formed_payloads_return container_repr clan_tag cd cw wl Hcd Hcw Hwl)
    as [rep H].
  split; [eauto|]. intros Tcd Tcw Twl.
  destruct rep as [|st tags ids bm].
  { exfalso. unfold generate_html_for_clan in H. rewrite Tcd, Tcw, Twl in H.
    simpl in H. repeat (apply bind_Ok in H as (? & _ & H)). done. }
  exists st, tags, ids, bm. split; [done|].
  pose proof H as (st0 & st1 & allp & Htags & Hseed & Hov & Hids & Hall & Hloop)%generate_html_for_clan_Ok.
  pose proof (war_ids_of_spec _ _ Hids) as [Hlen Hnd].
  split_and!.
  - intros Habs. apply current_member_tags_of_spec in Htags.
    unfold roster in Htags. by rewrite (absent_elements _ _ Habs) in Htags.
  - intros Habs. unfold war_log_items in *.
    rewrite (absent_elements _ _ Habs) in Hlen, Hloop.
    destruct ids; [|done]. simpl in Hloop. by injection Hloop as _ <-.
  - intros i x Hx Habs. by eapply war_ids_of_absent_date.
  - intros i w x Hw Hx Habs. split.
    + apply war_loop_benchmarks in Hloop as (_ & Hwars & _); [|by rewrite zip_war_ids].
      destruct (Hwars w x) as [-> _]; [by eapply zip_lookup_elem|].
      by rewrite war_benchmark_no_standings.
    + intros k r Hr.
      rewrite (history_of_recorded_participants container_repr _ _ _ _ _ _ _ _ _ _ _ _ _ H Hr Hw Hx).
      rewrite (logged_war_first_standing container_repr _ _ _ _ _ _ _ _ x H)
        by (by eapply list_elem_of_lookup_2).
      by rewrite first_standing_no_standings.
  - intros x p. by eapply tagless_participant_recorded.
  - intros k r i w x p Hr Hw Hx Hlast.
    rewrite (history_of_recorded_participants container_repr _ _ _ _ _ _ _ _ _ _ _ _ _ H Hr Hw Hx).
    rewrite (logged_war_first_standing container_repr _ _ _ _ _ _ _ _ x H)
      by (by eapply list_elem_of_lookup_2).
    unfold last_entry. rewrite Hlast. eexists. split; [done|]. unfold entry_of. simpl.
    split; intros Habs; by rewrite (absent_field _ _ _ Habs).
  - intros k r p Hr Hk Hlast.
    destruct (final_record_totals container_repr _ _ _ _ _ _ _ _ _ _ H Hr)
      as (st0' & st1' & allp' & r1 & Hseed' & Hov' & Hr1 & -> & -> & _).
    pose proof (seed_player_stats_spec _ _ Hseed') as [Hdom _].
    assert (is_Some (st0' !! k)) as [r0 Hr0] by (apply elem_of_dom; by rewrite Hdom).
    destruct (overlay_loop_last _ _ _ _ _ Hov' Hr0) as (r1' & Hr1' & Hd & Hf).
    rewrite add_former_members_lookup, Hr1' in Hr1. injection Hr1 as <-.
    rewrite Hd, Hf, Hlast.
    split; intros Habs; by rewrite (absent_field _ _ _ Habs).
Qed.

End defaults.

(** ** Examples of the first standing *)


Lemma war_benchmarks_per_war_witness :
  dom (report_benchmarks sample_run) = list_to_set (report_war_ids sample_run) ∧
  ∀ i w x, report_war_ids sample_run !! i = Some w →
    war_log_items sample_war_log !! i = Some x →
    ∃ z, report_benchmarks sample_run !! w = Some z ∧
      ("#2V2VRRLJ" ∉ TOP_CLANS_FOR_BENCHMARK → z = 16) ∧
      ("#2V2VRRLJ" ∈ TOP_CLANS_FOR_BENCHMARK →
       calculate_fair_benchmark (PList (first_standing_participants "#2V2VRRLJ" x))
         = Ok z).
Proof.
  apply (war_benchmarks_per_war repr_elided "#2V2VRRLJ" sample_clan sample_current_war
           sample_war_log (report_player_stats sample_run)
           (report_member_tags sample_run) (report_war_ids sample_run)
           (report_benchmarks sample_run)).
  vm_compute. reflexivity.
Defined.

Lemma totals_sum_of_entries_witness :
  total_war_fame doubled_ann =
    fame_sum (tagged (KStr "#A")
                (logged_participants "#2V2VRRLJ" (war_log_items doubled_war_log))) ∧
  total_decks_used doubled_ann =
    decks_sum (tagged (KStr "#A")
                 (logged_participants "#2V2VRRLJ" (war_log_items doubled_war_log))).
Proof.
  apply (totals_sum_of_entries repr_elided "#2V2VRRLJ" sample_clan sample_current_war
           doubled_war_log (report_player_stats doubled_run)
           (report_member_tags doubled_run) (report_war_ids doubled_run)
           (report_benchmarks doubled_run) (KStr "#A") doubled_ann);
    vm_compute; reflexivity.
Defined.

Lemma history_holds_last_entry_witness :
  war_history doubled_ann !! "War 1 (20240101)" =
  Some (last_entry (tagged (KStr "#A") (first_standing_participants "#2V2VRRLJ" doubled_war))).
Proof.
  apply (history_holds_last_entry repr_elided "#2V2VRRLJ" sample_clan sample_current_war
           doubled_war_log (report_player_stats doubled_run)
           (report_member_tags doubled_run) (report_war_ids doubled_run)
           (report_benchmarks doubled_run) (KStr "#A") doubled_ann 0%nat);
    vm_compute; reflexivity.
Defined.

Lemma former_member_name_settles_witness :
  ∃ r, report_player_stats late_run !! KStr "#C" = Some r ∧
       name r = PStr (starred_name repr_elided (participant "#C" "Cat" 900 8)).
Proof.
  apply (proj2 (proj2 (proj2 (proj2 (proj2 (former_member_name_settles repr_elided)))))
           "#2V2VRRLJ" sample_clan sample_current_war late_war_log
           (report_player_stats late_run) (report_member_tags late_run)
           (report_war_ids late_run) (report_benchmarks late_run) (KStr "#C")
           [war "20240101T000000.000Z"
              [standing "#2V2VRRLJ" [participant "#A" "Ann" 500 4]]]
           (war "20240108T000000.000Z"
              [standing "#2V2VRRLJ" [participant "#A" "Ann" 300 2;
                                     participant "#C" "Cat" 900 8]])
           [war "20240115T000000.000Z"
              [standing "#2V2VRRLJ" [participant "#C" "Kit" 100 1]]]
           [participant "#A" "Ann" 300 2] (participant "#C" "Cat" 900 8) []).
  - vm_compute. reflexivity.
  - apply (bool_decide_unpack _). vm_compute. exact I.
  - vm_compute. reflexivity.
  - intros x' Hx'. apply (bool_decide_unpack _).
    apply list_elem_of_singleton in Hx' as ->. vm_compute. exact I.
  - vm_compute. reflexivity.
  - apply (bool_decide_unpack _). vm_compute. exact I.
  - vm_compute. reflexivity.
  - vm_compute. discriminate.
Defined.

Lemma absent_fields_never_raise_witness :
  ∃ st tags ids bm,
    generate_html_for_clan repr_elided "#2V2VRRLJ"
      sample_clan sparse_current_war sparse_war_log
      = Ok (ClanReport st tags ids bm) ∧
    ids !! 0%nat = Some ("War " +:+ pretty 1%nat +:+ " (N/A)") ∧
    is_Some (st !! KNone).
Proof.
  destruct (absent_fields_never_raise repr_elided "#2V2VRRLJ"
              sample_clan sparse_current_war sparse_war_log)
    as [_ H]; [vm_compute; reflexivity..|].
  destruct H as (st & tags & ids & bm & Hrun & _ & _ & Hdate & _ & Htag & _);
    [vm_compute; reflexivity..|].
  exists st, tags, ids, bm. split_and!; [exact Hrun| |].
  - apply (Hdate 0%nat (PDict [("standings", PList [
      PDict [("rank", PInt 2)];
      PDict [("clan", PDict [("tag", PStr "#2V2VRRLJ");
                             ("participants", PList [PDict []; PDict [("tag", PStr "#C")]])])]])]));
      vm_compute; reflexivity.
  - apply (Htag (PDict [("standings", PList [
      PDict [("rank", PInt 2)];
      PDict [("clan", PDict [("tag", PStr "#2V2VRRLJ");
                             ("participants", PList [PDict []; PDict [("tag", PStr "#C")]])])]])])
             (PDict [])).
    + vm_compute. left.
    + vm_compute. left.
    + vm_compute. reflexivity.
Defined.
